(** * LPS tool: the production control spine

    A shallow embedding of [app/models], [app/services/state_machine.py]
    and the two routes of [app/api/routes.py] that add behaviour of their
    own (request validation of a failure, the drilldown read), followed by
    the properties of the enforcement layer.

    Conventions of the embedding.
    - A [datetime] is an integer (microseconds since the epoch).
    - An ORM object is identified with its primary key: the session keeps
      one object per row, so reading an attribute is a lookup of the row
      and an assignment rewrites the row.
    - [datetime.utcnow()] reads a clock the program does not control: the
      world carries the sequence of readings and the number of readings
      consumed so far.
    - A Python exception ends the operation where it is raised; the world
      it leaves behind is the world at that point. *)

From Stdlib Require Import ZArith List String Ascii Bool Lia.
From Stdlib Require Import Permutation Sorted.
Import ListNotations.

Local Open Scope string_scope.
Local Open Scope list_scope.
Local Open Scope Z_scope.

Infix "+:+" := String.append (at level 60, right associativity).

(** ** app/models/enums.py *)

Inductive WorkItemState :=
  INTENT | NOT_READY | READY | COMMITTED | COMPLETE | FAILED.

Inductive ConstraintStatus := OPEN | CLEARED.

Module CommitmentStatus.
Inductive t := ACTIVE | COMPLETE | FAILED.

Definition eq_dec (a b : t) : {a = b} + {a <> b}.
Proof. decide equality. Defined.
End CommitmentStatus.

Module PrimaryCause.
Inductive t :=
  ACCESS | MATERIALS | INFORMATION | RESOURCES | PERMITS
| PLANT_OR_EQUIPMENT | INTERFACES | WEATHER | OTHER.

Definition value (c : t) : string :=
  match c with
  | ACCESS => "Access"
  | MATERIALS => "Materials"
  | INFORMATION => "Information"
  | RESOURCES => "Resources"
  | PERMITS => "Permits"
  | PLANT_OR_EQUIPMENT => "Plant or equipment"
  | INTERFACES => "Interfaces"
  | WEATHER => "Weather"
  | OTHER => "Other"
  end.

Definition members : list t :=
  [ACCESS; MATERIALS; INFORMATION; RESOURCES; PERMITS;
   PLANT_OR_EQUIPMENT; INTERFACES; WEATHER; OTHER].

(** [PrimaryCause(s)]: the member whose value is [s], if any. *)
Definition of_value (s : string) : option t :=
  find (fun c => String.eqb (value c) s) members.
End PrimaryCause.

Module ReferencePlanSystem.
Inductive t := MSP | P6 | OTHER.

Definition value (r : t) : string :=
  match r with
  | MSP => "MSP"
  | P6 => "P6"
  | OTHER => "Other"
  end.
End ReferencePlanSystem.

Definition WorkItemState_value (s : WorkItemState) : string :=
  match s with
  | INTENT => "Intent"
  | NOT_READY => "Not Ready"
  | READY => "Ready"
  | COMMITTED => "Committed"
  | COMPLETE => "Complete"
  | FAILED => "Failed"
  end.

Definition WorkItemState_name (s : WorkItemState) : string :=
  match s with
  | INTENT => "INTENT"
  | NOT_READY => "NOT_READY"
  | READY => "READY"
  | COMMITTED => "COMMITTED"
  | COMPLETE => "COMPLETE"
  | FAILED => "FAILED"
  end.

(** [str(member)] and [format(member, "")] of a member of the enum: the
    class and the name of the member, for an [Enum] with a [str] mixin
    as for any other (Python 3.11 and later). *)
Definition WorkItemState_str (s : WorkItemState) : string :=
  "WorkItemState." +:+ WorkItemState_name s.

Definition WorkItemState_eq_dec (a b : WorkItemState) : {a = b} + {a <> b}.
Proof. decide equality. Defined.

Definition ConstraintStatus_eq_dec (a b : ConstraintStatus) : {a = b} + {a <> b}.
Proof. decide equality. Defined.

(** ** app/models/domain.py and app/models/audit.py *)

Definition datetime := Z.

Record WorkItem := {
  wi_id : Z;
  wi_title : string;
  wi_description : option string;
  wi_location : option string;
  wi_owner_user_id : string;
  wi_state : WorkItemState;
  wi_reference_plan_system : option ReferencePlanSystem.t;
  wi_reference_plan_external_id : option string;
  wi_reference_plan_dates : option string;
  wi_created_at : datetime;
  wi_updated_at : datetime
}.

Record Constraint := {
  c_id : Z;
  c_work_item_id : Z;
  c_type : string;
  c_description : option string;
  c_status : ConstraintStatus;
  c_cleared_by_user_id : option string;
  c_cleared_at : option datetime;
  c_created_at : datetime
}.

Record Commitment := {
  cm_id : Z;
  cm_work_item_id : Z;
  cm_committed_by_user_id : string;
  cm_owner_user_id : string;
  cm_due_at : datetime;
  cm_status : CommitmentStatus.t;
  cm_created_at : datetime;
  cm_completed_at : option datetime;
  cm_failed_at : option datetime
}.

Record LearningSignal := {
  ls_id : Z;
  ls_work_item_id : Z;
  ls_commitment_id : Z;
  ls_primary_cause : PrimaryCause.t;
  ls_secondary_cause : option string;
  ls_notes : option string;
  ls_drilldown_key : string;
  ls_created_at : datetime
}.

(** The payload of an audit event is a JSON object; the keys the tests
    read are enough here. *)
Inductive Json :=
| JInt (n : Z)
| JStr (s : string)
| JBool (b : bool)
| JIntList (l : list Z).

Record AuditEvent := {
  ae_id : Z;
  ae_event_type : string;
  ae_entity_type : string;
  ae_entity_id : string;
  ae_user_id : option string;
  ae_created_at : datetime;
  ae_payload_json : list (string * Json)
}.

Module AuditEventType.
Definition CONSTRAINT_CREATED := "constraint_created".
Definition CONSTRAINT_CLEARED := "constraint_cleared".
Definition CONSTRAINT_REOPENED := "constraint_reopened".
Definition COMMITMENT_CREATED := "commitment_created".
Definition COMMITMENT_COMPLETED := "commitment_completed".
Definition COMMITMENT_FAILED := "commitment_failed".
Definition COMMITMENT_REFUSED_NOT_READY := "commitment_refused_not_ready".
Definition WORK_ITEM_STATE_CHANGED := "work_item_state_changed".
End AuditEventType.

(** ** The session: five tables and the clock *)

Record World := {
  work_items : list WorkItem;
  constraints : list Constraint;
  commitments : list Commitment;
  learning_signals : list LearningSignal;
  audit_events : list AuditEvent;
  clock : nat -> datetime;
  clock_reads : nat
}.

(** ** Exceptions and the monad of operations *)

Inductive Exc :=
| RefusalError (message : string) (open_constraints : list string)
| ValueError (message : string)
| AttributeError (message : string)
| IndexError (message : string)
| HTTPException (status_code : Z) (detail : string)
| RequestValidationError (errors : list (string * string))
| OverflowError (message : string).

Inductive Outcome (A : Type) :=
| Returned (a : A)
| Raised (e : Exc).
Arguments Returned {A} a.
Arguments Raised {A} e.

Definition M (A : Type) : Type := World -> Outcome A * World.

Definition ret {A} (a : A) : M A := fun w => (Returned a, w).

Definition raise {A} (e : Exc) : M A := fun w => (Raised e, w).

Definition bind {A B} (m : M A) (k : A -> M B) : M B :=
  fun w =>
    match m w with
    | (Returned a, w') => k a w'
    | (Raised e, w') => (Raised e, w')
    end.

Notation "x <- m ;; k" := (bind m (fun x => k))
  (at level 61, m at next level, right associativity).
Notation "m ;;; k" := (bind m (fun _ => k))
  (at level 61, right associativity).

Definition gets {A} (f : World -> A) : M A := fun w => (Returned (f w), w).

Definition modify (f : World -> World) : M unit := fun w => (Returned tt, f w).

(** [datetime.utcnow()] *)
Definition utcnow : M datetime :=
  fun w =>
    (Returned (clock w (clock_reads w)),
     {| work_items := work_items w;
        constraints := constraints w;
        commitments := commitments w;
        learning_signals := learning_signals w;
        audit_events := audit_events w;
        clock := clock w;
        clock_reads := S (clock_reads w) |}).

(** [db.commit()] and [db.refresh(obj)]: the tables of the world are the
    rows the session sees, whether flushed or not, so both leave the world
    as it is. *)
Definition db_commit : M unit := ret tt.

(** Primary keys are handed out by autoincrement: one more than the
    largest key in the table. *)
Definition next_id (ids : list Z) : Z := 1 + fold_right Z.max 0 ids.

(** *** Rows by primary key *)

Definition get_work_item (w : World) (id : Z) : option WorkItem :=
  find (fun x => Z.eqb (wi_id x) id) (work_items w).

Definition get_constraint (w : World) (id : Z) : option Constraint :=
  find (fun x => Z.eqb (c_id x) id) (constraints w).

Definition get_commitment (w : World) (id : Z) : option Commitment :=
  find (fun x => Z.eqb (cm_id x) id) (commitments w).

(** Reading an attribute of an object whose row is not there is reading
    an attribute of [None]. *)
Definition deref {A} (what : string) (o : option A) : M A :=
  match o with
  | Some a => ret a
  | None => raise (AttributeError ("'NoneType' object has no attribute of " +:+ what))
  end.

Definition work_item_obj (id : Z) : M WorkItem :=
  o <- gets (fun w => get_work_item w id) ;; deref "WorkItem" o.

Definition constraint_obj (id : Z) : M Constraint :=
  o <- gets (fun w => get_constraint w id) ;; deref "Constraint" o.

Definition commitment_obj (id : Z) : M Commitment :=
  o <- gets (fun w => get_commitment w id) ;; deref "Commitment" o.

(** The relationship [work_item.constraints]. *)
Definition work_item_constraints (w : World) (work_item : Z) : list Constraint :=
  filter (fun c => Z.eqb (c_work_item_id c) work_item) (constraints w).

(** *** Attribute assignment *)

Definition update_rows {A} (key : A -> Z) (id : Z) (f : A -> A) (rows : list A) : list A :=
  map (fun r => if Z.eqb (key r) id then f r else r) rows.

Definition set_work_item (id : Z) (f : WorkItem -> WorkItem) : M unit :=
  modify (fun w =>
    {| work_items := update_rows wi_id id f (work_items w);
       constraints := constraints w;
       commitments := commitments w;
       learning_signals := learning_signals w;
       audit_events := audit_events w;
       clock := clock w;
       clock_reads := clock_reads w |}).

Definition set_constraint (id : Z) (f : Constraint -> Constraint) : M unit :=
  modify (fun w =>
    {| work_items := work_items w;
       constraints := update_rows c_id id f (constraints w);
       commitments := commitments w;
       learning_signals := learning_signals w;
       audit_events := audit_events w;
       clock := clock w;
       clock_reads := clock_reads w |}).

Definition set_commitment (id : Z) (f : Commitment -> Commitment) : M unit :=
  modify (fun w =>
    {| work_items := work_items w;
       constraints := constraints w;
       commitments := update_rows cm_id id f (commitments w);
       learning_signals := learning_signals w;
       audit_events := audit_events w;
       clock := clock w;
       clock_reads := clock_reads w |}).

Definition with_state (s : WorkItemState) (x : WorkItem) : WorkItem :=
  {| wi_id := wi_id x;
     wi_title := wi_title x;
     wi_description := wi_description x;
     wi_location := wi_location x;
     wi_owner_user_id := wi_owner_user_id x;
     wi_state := s;
     wi_reference_plan_system := wi_reference_plan_system x;
     wi_reference_plan_external_id := wi_reference_plan_external_id x;
     wi_reference_plan_dates := wi_reference_plan_dates x;
     wi_created_at := wi_created_at x;
     wi_updated_at := wi_updated_at x |}.

Definition with_updated_at (t : datetime) (x : WorkItem) : WorkItem :=
  {| wi_id := wi_id x;
     wi_title := wi_title x;
     wi_description := wi_description x;
     wi_location := wi_location x;
     wi_owner_user_id := wi_owner_user_id x;
     wi_state := wi_state x;
     wi_reference_plan_system := wi_reference_plan_system x;
     wi_reference_plan_external_id := wi_reference_plan_external_id x;
     wi_reference_plan_dates := wi_reference_plan_dates x;
     wi_created_at := wi_created_at x;
     wi_updated_at := t |}.

Definition with_clearing (s : ConstraintStatus) (by_user : option string)
    (at_time : option datetime) (x : Constraint) : Constraint :=
  {| c_id := c_id x;
     c_work_item_id := c_work_item_id x;
     c_type := c_type x;
     c_description := c_description x;
     c_status := s;
     c_cleared_by_user_id := by_user;
     c_cleared_at := at_time;
     c_created_at := c_created_at x |}.

Definition with_status (s : CommitmentStatus.t) (x : Commitment) : Commitment :=
  {| cm_id := cm_id x;
     cm_work_item_id := cm_work_item_id x;
     cm_committed_by_user_id := cm_committed_by_user_id x;
     cm_owner_user_id := cm_owner_user_id x;
     cm_due_at := cm_due_at x;
     cm_status := s;
     cm_created_at := cm_created_at x;
     cm_completed_at := cm_completed_at x;
     cm_failed_at := cm_failed_at x |}.

Definition with_completed_at (t : datetime) (x : Commitment) : Commitment :=
  {| cm_id := cm_id x;
     cm_work_item_id := cm_work_item_id x;
     cm_committed_by_user_id := cm_committed_by_user_id x;
     cm_owner_user_id := cm_owner_user_id x;
     cm_due_at := cm_due_at x;
     cm_status := cm_status x;
     cm_created_at := cm_created_at x;
     cm_completed_at := Some t;
     cm_failed_at := cm_failed_at x |}.

Definition with_failed_at (t : datetime) (x : Commitment) : Commitment :=
  {| cm_id := cm_id x;
     cm_work_item_id := cm_work_item_id x;
     cm_committed_by_user_id := cm_committed_by_user_id x;
     cm_owner_user_id := cm_owner_user_id x;
     cm_due_at := cm_due_at x;
     cm_status := cm_status x;
     cm_created_at := cm_created_at x;
     cm_completed_at := cm_completed_at x;
     cm_failed_at := Some t |}.

(** *** [db.add(obj)]: id by autoincrement, [created_at] by its column
    default, read from the clock when the row is written *)

Definition add_constraint_row (work_item_id : Z) (type : string)
    (description : option string) (status : ConstraintStatus) : M Constraint :=
  created <- utcnow ;;
  ids <- gets (fun w => map c_id (constraints w)) ;;
  let row := {| c_id := next_id ids;
                c_work_item_id := work_item_id;
                c_type := type;
                c_description := description;
                c_status := status;
                c_cleared_by_user_id := None;
                c_cleared_at := None;
                c_created_at := created |} in
  modify (fun w =>
    {| work_items := work_items w;
       constraints := constraints w ++ [row];
       commitments := commitments w;
       learning_signals := learning_signals w;
       audit_events := audit_events w;
       clock := clock w;
       clock_reads := clock_reads w |}) ;;;
  ret row.

Definition add_commitment_row (work_item_id : Z) (committed_by_user_id owner_user_id : string)
    (due_at : datetime) (status : CommitmentStatus.t) : M Commitment :=
  created <- utcnow ;;
  ids <- gets (fun w => map cm_id (commitments w)) ;;
  let row := {| cm_id := next_id ids;
                cm_work_item_id := work_item_id;
                cm_committed_by_user_id := committed_by_user_id;
                cm_owner_user_id := owner_user_id;
                cm_due_at := due_at;
                cm_status := status;
                cm_created_at := created;
                cm_completed_at := None;
                cm_failed_at := None |} in
  modify (fun w =>
    {| work_items := work_items w;
       constraints := constraints w;
       commitments := commitments w ++ [row];
       learning_signals := learning_signals w;
       audit_events := audit_events w;
       clock := clock w;
       clock_reads := clock_reads w |}) ;;;
  ret row.

Definition add_learning_signal_row (work_item_id commitment_id : Z)
    (primary_cause : PrimaryCause.t) (secondary_cause notes : option string)
    (drilldown_key : string) : M LearningSignal :=
  created <- utcnow ;;
  ids <- gets (fun w => map ls_id (learning_signals w)) ;;
  let row := {| ls_id := next_id ids;
                ls_work_item_id := work_item_id;
                ls_commitment_id := commitment_id;
                ls_primary_cause := primary_cause;
                ls_secondary_cause := secondary_cause;
                ls_notes := notes;
                ls_drilldown_key := drilldown_key;
                ls_created_at := created |} in
  modify (fun w =>
    {| work_items := work_items w;
       constraints := constraints w;
       commitments := commitments w;
       learning_signals := learning_signals w ++ [row];
       audit_events := audit_events w;
       clock := clock w;
       clock_reads := clock_reads w |}) ;;;
  ret row.

(** ** app/services/state_machine.py *)

Module StateMachine.

(** The body of [calculate_readiness] on the loaded relationship. *)
Fixpoint scan_for_open (constraints : list Constraint) : WorkItemState :=
  match constraints with
  | [] => READY
  | constraint :: rest =>
      if ConstraintStatus_eq_dec (c_status constraint) OPEN
      then NOT_READY
      else scan_for_open rest
  end.

Definition readiness (constraints : list Constraint) : WorkItemState :=
  match constraints with
  | [] => NOT_READY
  | _ => scan_for_open constraints
  end.

Definition calculate_readiness (w : World) (work_item : Z) : WorkItemState :=
  readiness (work_item_constraints w work_item).

Definition frozen (s : WorkItemState) : bool :=
  match s with
  | COMMITTED | COMPLETE | FAILED => true
  | _ => false
  end.

Definition update_work_item_state (work_item : Z) : M unit :=
  wi <- work_item_obj work_item ;;
  if frozen (wi_state wi) then ret tt
  else
    new_state <- gets (fun w => calculate_readiness w work_item) ;;
    if WorkItemState_eq_dec (wi_state wi) new_state then ret tt
    else
      set_work_item work_item (with_state new_state) ;;;
      now <- utcnow ;;
      set_work_item work_item (with_updated_at now) ;;;
      db_commit.

Definition add_constraint (work_item : Z) (constraint_type : string)
    (description : option string) : M Constraint :=
  wi <- work_item_obj work_item ;;
  constraint <- add_constraint_row (wi_id wi) constraint_type description OPEN ;;
  db_commit ;;;
  update_work_item_state work_item ;;;
  ret constraint.

Definition clear_constraint (constraint : Z) (cleared_by_user_id : string) : M unit :=
  c <- constraint_obj constraint ;;
  now <- utcnow ;;
  set_constraint constraint (with_clearing CLEARED (Some cleared_by_user_id) (Some now)) ;;;
  db_commit ;;;
  update_work_item_state (c_work_item_id c).

Definition reopen_constraint (constraint : Z) : M unit :=
  c <- constraint_obj constraint ;;
  set_constraint constraint (with_clearing OPEN None None) ;;;
  db_commit ;;;
  update_work_item_state (c_work_item_id c).

(** [x or default] on an optional string: [None] and the empty string
    are both false. *)
Definition str_or (x : option string) (default : string) : string :=
  match x with
  | None => default
  | Some EmptyString => default
  | Some s => s
  end.

Definition constraint_label (c : Constraint) : string :=
  c_type c +:+ ": " +:+ str_or (c_description c) "(no description)".

Definition is_open (c : Constraint) : bool :=
  if ConstraintStatus_eq_dec (c_status c) OPEN then true else false.

Definition is_active_for (work_item_id : Z) (c : Commitment) : bool :=
  Z.eqb (cm_work_item_id c) work_item_id
  && (if CommitmentStatus.eq_dec (cm_status c) CommitmentStatus.ACTIVE then true else false).

Definition msg_already_committed : string :=
  "REFUSAL: This work item already has an active commitment. "
  +:+ "Complete or fail the existing commitment first.".

Definition msg_no_constraints : string :=
  "REFUSAL: Cannot commit work with no constraints. "
  +:+ "Add at least one constraint and clear it to demonstrate readiness.".

Definition msg_not_ready (open_constraints : list string) : string :=
  "REFUSAL: Cannot commit Not Ready work. "
  +:+ "The following constraints are still Open: "
  +:+ String.concat ", " open_constraints.

Definition create_commitment (work_item : Z) (committed_by_user_id owner_user_id : string)
    (due_at : datetime) : M Commitment :=
  wi <- work_item_obj work_item ;;
  active_commitment <- gets (fun w => find (is_active_for (wi_id wi)) (commitments w)) ;;
  match active_commitment with
  | Some _ => raise (RefusalError msg_already_committed [])
  | None =>
      if WorkItemState_eq_dec (wi_state wi) READY then
        (* db.add(commitment) leaves the new row pending: it gets its id
           and its created_at from the flush of db.commit(), after the
           work item has been stamped *)
        set_work_item work_item (with_state COMMITTED) ;;;
        now <- utcnow ;;
        set_work_item work_item (with_updated_at now) ;;;
        commitment <- add_commitment_row (wi_id wi) committed_by_user_id owner_user_id
                        due_at CommitmentStatus.ACTIVE ;;
        db_commit ;;;
        ret commitment
      else
        cs <- gets (fun w => work_item_constraints w work_item) ;;
        let open_constraints := map constraint_label (filter is_open cs) in
        match cs with
        | [] => raise (RefusalError msg_no_constraints [])
        | _ => raise (RefusalError (msg_not_ready open_constraints) open_constraints)
        end
  end.

Definition _generate_drilldown_key (primary_cause : string)
    (location reference_system : option string) : string :=
  let parts := [primary_cause;
                str_or location "no_location";
                str_or reference_system "no_reference"] in
  String.concat "|" parts.

Definition fail_commitment (commitment : Z) (primary_cause : PrimaryCause.t)
    (secondary_cause notes : option string) : M LearningSignal :=
  c <- commitment_obj commitment ;;
  now <- utcnow ;;
  set_commitment commitment (with_status CommitmentStatus.FAILED) ;;;
  set_commitment commitment (with_failed_at now) ;;;
  wi <- work_item_obj (cm_work_item_id c) ;;
  set_work_item (wi_id wi) (with_state FAILED) ;;;
  set_work_item (wi_id wi) (with_updated_at now) ;;;
  let drilldown_key :=
    _generate_drilldown_key (PrimaryCause.value primary_cause)
      (wi_location wi)
      (option_map ReferencePlanSystem.value (wi_reference_plan_system wi)) in
  learning_signal <- add_learning_signal_row (wi_id wi) (cm_id c) primary_cause
                       secondary_cause notes drilldown_key ;;
  db_commit ;;;
  ret learning_signal.

Definition complete_commitment (commitment : Z) : M unit :=
  c <- commitment_obj commitment ;;
  now <- utcnow ;;
  if Z.ltb (cm_due_at c) now then
    fail_commitment commitment PrimaryCause.OTHER None
      (Some "Auto-failed: Completed after due date") ;;;
    ret tt
  else
    set_commitment commitment (with_status CommitmentStatus.COMPLETE) ;;;
    set_commitment commitment (with_completed_at now) ;;;
    wi <- work_item_obj (cm_work_item_id c) ;;
    set_work_item (wi_id wi) (with_state COMPLETE) ;;;
    set_work_item (wi_id wi) (with_updated_at now) ;;;
    db_commit.

(** The f-string formats the state with [format], which prints the
    member as [str] does: [WorkItemState.COMMITTED], not its value. *)
Definition msg_reset (s : WorkItemState) : string :=
  "Can only reset Failed or Complete work items. Current state: "
  +:+ WorkItemState_str s.

Definition reset_to_intent (work_item : Z) : M unit :=
  wi <- work_item_obj work_item ;;
  match wi_state wi with
  | FAILED | COMPLETE =>
      set_work_item work_item (with_state INTENT) ;;;
      now <- utcnow ;;
      set_work_item work_item (with_updated_at now) ;;;
      db_commit
  | s => raise (ValueError (msg_reset s))
  end.

End StateMachine.

(** ** The operations of the engine as requests *)

Inductive Op :=
| AddConstraint (work_item : Z) (constraint_type : string) (description : option string)
| ClearConstraint (constraint : Z) (cleared_by_user_id : string)
| ReopenConstraint (constraint : Z)
| CreateCommitment (work_item : Z) (committed_by_user_id owner_user_id : string) (due_at : datetime)
| CompleteCommitment (commitment : Z)
| FailCommitment (commitment : Z) (primary_cause : PrimaryCause.t)
    (secondary_cause notes : option string)
| ResetToIntent (work_item : Z).

Definition run (op : Op) : M unit :=
  match op with
  | AddConstraint wi t d => StateMachine.add_constraint wi t d ;;; ret tt
  | ClearConstraint c u => StateMachine.clear_constraint c u
  | ReopenConstraint c => StateMachine.reopen_constraint c
  | CreateCommitment wi u o d => StateMachine.create_commitment wi u o d ;;; ret tt
  | CompleteCommitment c => StateMachine.complete_commitment c
  | FailCommitment c p s n => StateMachine.fail_commitment c p s n ;;; ret tt
  | ResetToIntent wi => StateMachine.reset_to_intent wi
  end.

(** The methods class [StateMachine] defines, in the order of the file. *)
Definition StateMachine_methods : list string :=
  ["__init__"; "calculate_readiness"; "update_work_item_state";
   "add_constraint"; "clear_constraint"; "reopen_constraint";
   "create_commitment"; "complete_commitment"; "fail_commitment";
   "reset_to_intent"; "_generate_drilldown_key"].

(** [getattr(sm, name)] on an instance of [StateMachine] for a method
    name: the instance has [db] and the methods of its class. *)
Definition StateMachine_getattr (name : string) : Outcome string :=
  if existsb (String.eqb name) ("db" :: StateMachine_methods)
  then Returned name
  else Raised (AttributeError
                 ("'StateMachine' object has no attribute '" +:+ name +:+ "'")).

(** ** app/api/schemas.py and app/api/routes.py *)

Module Routes.

(** The JSON body of a failure request, before validation: an absent
    key and [null] are both [None]. *)
Record CommitmentFailBody := {
  body_primary_cause : option string;
  body_secondary_cause : option string;
  body_notes : option string
}.

Record CommitmentFail := {
  primary_cause : PrimaryCause.t;
  secondary_cause : option string;
  notes : option string
}.

Definition check_primary_cause (body : CommitmentFailBody) : list (string * string) :=
  match body_primary_cause body with
  | None => [("primary_cause", "value_error.missing")]
  | Some s =>
      match PrimaryCause.of_value s with
      | None => [("primary_cause", "type_error.enum")]
      | Some _ => []
      end
  end.

Definition check_notes (body : CommitmentFailBody) : list (string * string) :=
  match body_notes body with
  | Some n =>
      if Nat.ltb 500 (String.length n)
      then [("notes", "value_error.any_str.max_length")]
      else []
  | None => []
  end.

(** Schema [CommitmentFail] applied to the body; each error is the field
    and the type of the validation error. *)
Definition validate_CommitmentFail (body : CommitmentFailBody) : M CommitmentFail :=
  match check_primary_cause body ++ check_notes body,
        option_map PrimaryCause.of_value (body_primary_cause body) with
  | [], Some (Some cause) =>
      ret {| primary_cause := cause;
             secondary_cause := body_secondary_cause body;
             notes := body_notes body |}
  | errors, _ => raise (RequestValidationError errors)
  end.

(** PUT /commitments/{commitment_id}/fail: the body is validated before
    the handler runs. *)
Definition fail_commitment (commitment_id : Z) (body : CommitmentFailBody) : M LearningSignal :=
  fail_data <- validate_CommitmentFail body ;;
  commitment <- gets (fun w => get_commitment w commitment_id) ;;
  match commitment with
  | None => raise (HTTPException 404 "Commitment not found")
  | Some c =>
      StateMachine.fail_commitment (cm_id c) (primary_cause fail_data)
        (secondary_cause fail_data) (notes fail_data)
  end.

(** [key.split('|')] for a one-character separator. *)
Fixpoint split (sep : ascii) (s : string) : list string :=
  match s with
  | EmptyString => [EmptyString]
  | String ch rest =>
      if Ascii.eqb ch sep then EmptyString :: split sep rest
      else
        match split sep rest with
        | [] => [String ch EmptyString]
        | p :: ps => String ch p :: ps
        end
  end.

Record DrilldownRow := {
  row_key : string;
  row_count : Z;
  row_latest : datetime
}.

Record DrilldownItem := {
  item_primary_cause : string;
  item_location : string;
  item_reference_system : string;
  item_count : Z;
  item_latest_occurrence : datetime
}.

(** *** The aggregate query

    SELECT drilldown_key, count(id), max(created_at)
    FROM learning_signals GROUP BY drilldown_key ORDER BY count(id) DESC *)

Definition group_of (signals : list LearningSignal) (key : string) : list LearningSignal :=
  filter (fun s => String.eqb (ls_drilldown_key s) key) signals.

Definition max_created_at (group : list LearningSignal) : datetime :=
  match map ls_created_at group with
  | [] => 0
  | t :: ts => fold_left Z.max ts t
  end.

Definition group_row (signals : list LearningSignal) (key : string) : DrilldownRow :=
  {| row_key := key;
     row_count := Z.of_nat (List.length (group_of signals key));
     row_latest := max_created_at (group_of signals key) |}.

(** One row per distinct key. *)
Definition group_by_key (signals : list LearningSignal) : list DrilldownRow :=
  map (group_row signals) (nodup string_dec (map ls_drilldown_key signals)).

Definition count_desc (a b : DrilldownRow) : Prop := row_count b <= row_count a.

(** What ORDER BY count DESC promises about the rows the database hands
    back: all the groups, larger counts first. The order of groups with
    equal counts is the engine's choice. *)
Definition query_result (signals : list LearningSignal) (rows : list DrilldownRow) : Prop :=
  Permutation rows (group_by_key signals) /\ StronglySorted count_desc rows.

(** One such order, by insertion. *)
Fixpoint insert_by_count (r : DrilldownRow) (sorted : list DrilldownRow) : list DrilldownRow :=
  match sorted with
  | [] => [r]
  | x :: rest =>
      if Z.leb (row_count x) (row_count r) then r :: x :: rest
      else x :: insert_by_count r rest
  end.

Definition order_by_count_desc (rows : list DrilldownRow) : list DrilldownRow :=
  fold_right insert_by_count [] rows.

(** *** The loop over the rows *)

Definition subscript (parts : list string) (i : nat) : M string :=
  match nth_error parts i with
  | Some p => ret p
  | None => raise (IndexError "list index out of range")
  end.

Definition shown (sentinel : string) (part : string) : string :=
  if String.eqb part sentinel then "Not specified" else part.

Definition drilldown_item (row : DrilldownRow) : M DrilldownItem :=
  let parts := split "|" (row_key row) in
  p0 <- subscript parts 0 ;;
  p1 <- subscript parts 1 ;;
  p2 <- subscript parts 2 ;;
  ret {| item_primary_cause := p0;
         item_location := shown "no_location" p1;
         item_reference_system := shown "no_reference" p2;
         item_count := row_count row;
         item_latest_occurrence := row_latest row |}.

Fixpoint drilldown_items (rows : list DrilldownRow) : M (list DrilldownItem) :=
  match rows with
  | [] => ret []
  | row :: rest =>
      item <- drilldown_item row ;;
      items <- drilldown_items rest ;;
      ret (item :: items)
  end.

(** GET /learning-signals/drilldown, for the rows the query returned. *)
Definition get_drilldown (w : World) (rows : list DrilldownRow)
    (out : Outcome (list DrilldownItem)) : Prop :=
  query_result (learning_signals w) rows /\ fst (drilldown_items rows w) = out.

End Routes.

(** ** The other routes of app/api/routes.py

    A route answers with its result, with the HTTP error it raises (or
    that the framework makes of a body that fails its schema), or lets an
    exception of the state machine through. *)

Module Api.

Local Abbreviation query_work_item := get_work_item.
Local Abbreviation query_constraint := get_constraint.
Local Abbreviation query_commitment := get_commitment.

Inductive Detail :=
| Text (s : string)
| Blocked (message : string) (open_constraints : list string)
| Invalid (errors : list (string * string)).

Inductive Response (A : Type) :=
| Ok (a : A)
| HTTPError (status_code : Z) (detail : Detail)
| Uncaught (e : Exc).
Arguments Ok {A} a.
Arguments HTTPError {A} status_code detail.
Arguments Uncaught {A} e.

Definition Handler (A : Type) : Type := World -> Response A * World.

(** The body of a route that raises no HTTP error of its own. *)
Definition call {A} (m : M A) : Handler A :=
  fun w =>
    match m w with
    | (Returned a, w') => (Ok a, w')
    | (Raised e, w') => (Uncaught e, w')
    end.

Definition http_error {A} (status_code : Z) (detail : Detail) : Handler A :=
  fun w => (HTTPError status_code detail, w).

(** The signed 64-bit range of an INTEGER column. *)
Definition fits_integer (id : Z) : bool :=
  Z.leb (- 2 ^ 63) id && Z.ltb id (2 ^ 63).

Definition msg_overflow : string :=
  "Python int too large to convert to SQLite INTEGER".

(** A path id is an [int] of any size, and the first statement of every
    handler that has one binds it to the parameter of a query. The
    driver of the default database (sqlite3) refuses an [int] outside
    the range of the column with [OverflowError] before the query runs,
    and no handler catches it. *)
Definition bind_parameter {A} (id : Z) (h : Handler A) : Handler A :=
  fun w =>
    if fits_integer id then h w
    else (Uncaught (OverflowError msg_overflow), w).

(** *** app/api/schemas.py: bodies before validation, an absent key and
    [null] both [None] *)

Record WorkItemCreateBody := {
  body_title : option string;
  body_description : option string;
  body_location : option string;
  body_owner_user_id : option string;
  body_reference_plan_system : option string;
  body_reference_plan_external_id : option string;
  body_reference_plan_dates : option string
}.

Record WorkItemCreate := {
  title : string;
  description : option string;
  location : option string;
  owner_user_id : string;
  reference_plan_system : option ReferencePlanSystem.t;
  reference_plan_external_id : option string;
  reference_plan_dates : option string
}.

Definition ReferencePlanSystem_of_value (s : string) : option ReferencePlanSystem.t :=
  find (fun r => String.eqb (ReferencePlanSystem.value r) s)
    [ReferencePlanSystem.MSP; ReferencePlanSystem.P6; ReferencePlanSystem.OTHER].

(** [title: str = Field(..., min_length=1, max_length=200)] *)
Definition check_title (t : option string) : list (string * string) :=
  match t with
  | None => [("title", "value_error.missing")]
  | Some s =>
      if Nat.ltb (String.length s) 1 then [("title", "value_error.any_str.min_length")]
      else if Nat.ltb 200 (String.length s) then [("title", "value_error.any_str.max_length")]
      else []
  end.

Definition check_required (field : string) (v : option string) : list (string * string) :=
  match v with
  | None => [(field, "value_error.missing")]
  | Some _ => []
  end.

Definition check_reference_plan_system (v : option string) : list (string * string) :=
  match v with
  | None => []
  | Some s =>
      match ReferencePlanSystem_of_value s with
      | None => [("reference_plan_system", "type_error.enum")]
      | Some _ => []
      end
  end.

Definition validate_WorkItemCreate (body : WorkItemCreateBody)
    : list (string * string) + WorkItemCreate :=
  match check_title (body_title body)
        ++ check_required "owner_user_id" (body_owner_user_id body)
        ++ check_reference_plan_system (body_reference_plan_system body),
        body_title body, body_owner_user_id body with
  | [], Some t, Some o =>
      inr {| title := t;
             description := body_description body;
             location := body_location body;
             owner_user_id := o;
             reference_plan_system :=
               match body_reference_plan_system body with
               | Some s => ReferencePlanSystem_of_value s
               | None => None
               end;
             reference_plan_external_id := body_reference_plan_external_id body;
             reference_plan_dates := body_reference_plan_dates body |}
  | errors, _, _ => inl errors
  end.

Record ConstraintCreateBody := {
  body_type : option string;
  body_constraint_description : option string
}.

Record ConstraintCreate := {
  type : string;
  constraint_description : option string
}.

(** [type: str = Field(..., min_length=1)] *)
Definition check_type (t : option string) : list (string * string) :=
  match t with
  | None => [("type", "value_error.missing")]
  | Some s =>
      if Nat.ltb (String.length s) 1 then [("type", "value_error.any_str.min_length")]
      else []
  end.

Definition validate_ConstraintCreate (body : ConstraintCreateBody)
    : list (string * string) + ConstraintCreate :=
  match check_type (body_type body), body_type body with
  | [], Some t =>
      inr {| type := t; constraint_description := body_constraint_description body |}
  | errors, _ => inl errors
  end.

(** The bodies of the other routes, once validated. *)
Record ConstraintClear := { cleared_by_user_id : string }.

Record CommitmentCreate := {
  committed_by_user_id : string;
  commitment_owner_user_id : string;
  due_at : datetime
}.

(** *** app/api/routes.py *)

(** [db.add(work_item)]: the key by autoincrement, [created_at] and
    [updated_at] by their column defaults when the row is written. *)
Definition add_work_item_row (data : WorkItemCreate) (state : WorkItemState) : M WorkItem :=
  created <- utcnow ;;
  updated <- utcnow ;;
  ids <- gets (fun w => map wi_id (work_items w)) ;;
  let row := {| wi_id := next_id ids;
                wi_title := title data;
                wi_description := description data;
                wi_location := location data;
                wi_owner_user_id := owner_user_id data;
                wi_state := state;
                wi_reference_plan_system := reference_plan_system data;
                wi_reference_plan_external_id := reference_plan_external_id data;
                wi_reference_plan_dates := reference_plan_dates data;
                wi_created_at := created;
                wi_updated_at := updated |} in
  modify (fun w =>
    {| work_items := work_items w ++ [row];
       constraints := constraints w;
       commitments := commitments w;
       learning_signals := learning_signals w;
       audit_events := audit_events w;
       clock := clock w;
       clock_reads := clock_reads w |}) ;;;
  ret row.

(** POST /work-items *)
Definition create_work_item (body : WorkItemCreateBody) : Handler WorkItem :=
  match validate_WorkItemCreate body with
  | inl errors => http_error 422 (Invalid errors)
  | inr work_item_data =>
      call (work_item <- add_work_item_row work_item_data INTENT ;;
            db_commit ;;;
            ret work_item)
  end.

(** GET /work-items/{work_item_id} *)
Definition get_work_item (work_item_id : Z) : Handler WorkItem :=
  bind_parameter work_item_id (fun w =>
    match query_work_item w work_item_id with
    | None => http_error 404 (Text "Work item not found") w
    | Some work_item => (Ok work_item, w)
    end).

(** POST /work-items/{work_item_id}/constraints *)
Definition add_constraint (work_item_id : Z) (body : ConstraintCreateBody) : Handler Constraint :=
  match validate_ConstraintCreate body with
  | inl errors => http_error 422 (Invalid errors)
  | inr constraint_data =>
      bind_parameter work_item_id (fun w =>
        match query_work_item w work_item_id with
        | None => http_error 404 (Text "Work item not found") w
        | Some work_item =>
            call (StateMachine.add_constraint (wi_id work_item)
                    (type constraint_data) (constraint_description constraint_data)) w
        end)
  end.

(** GET /work-items/{work_item_id}/constraints *)
Definition list_constraints (work_item_id : Z) : Handler (list Constraint) :=
  bind_parameter work_item_id (fun w =>
    match query_work_item w work_item_id with
    | None => http_error 404 (Text "Work item not found") w
    | Some work_item => (Ok (work_item_constraints w (wi_id work_item)), w)
    end).

(** PUT /constraints/{constraint_id}/clear *)
Definition clear_constraint (constraint_id : Z) (clear_data : ConstraintClear) : Handler Constraint :=
  bind_parameter constraint_id (fun w =>
    match query_constraint w constraint_id with
    | None => http_error 404 (Text "Constraint not found") w
    | Some constraint =>
        call (StateMachine.clear_constraint (c_id constraint) (cleared_by_user_id clear_data) ;;;
              constraint_obj (c_id constraint)) w
    end).

(** PUT /constraints/{constraint_id}/reopen *)
Definition reopen_constraint (constraint_id : Z) : Handler Constraint :=
  bind_parameter constraint_id (fun w =>
    match query_constraint w constraint_id with
    | None => http_error 404 (Text "Constraint not found") w
    | Some constraint =>
        call (StateMachine.reopen_constraint (c_id constraint) ;;;
              constraint_obj (c_id constraint)) w
    end).

(** POST /work-items/{work_item_id}/commit *)
Definition create_commitment (work_item_id : Z) (commitment_data : CommitmentCreate)
    : Handler Commitment :=
  bind_parameter work_item_id (fun w =>
    match query_work_item w work_item_id with
    | None => http_error 404 (Text "Work item not found") w
    | Some work_item =>
        match StateMachine.create_commitment (wi_id work_item)
                (committed_by_user_id commitment_data)
                (commitment_owner_user_id commitment_data)
                (due_at commitment_data) w with
        | (Returned commitment, w') => (Ok commitment, w')
        | (Raised (RefusalError message open_constraints), w') =>
            http_error 403 (Blocked message open_constraints) w'
        | (Raised e, w') => (Uncaught e, w')
        end
    end).

(** GET /work-items/{work_item_id}/commitments *)
Definition list_commitments (work_item_id : Z) : Handler (list Commitment) :=
  bind_parameter work_item_id (fun w =>
    match query_work_item w work_item_id with
    | None => http_error 404 (Text "Work item not found") w
    | Some work_item =>
        (Ok (filter (fun c => Z.eqb (cm_work_item_id c) (wi_id work_item)) (commitments w)), w)
    end).

(** PUT /commitments/{commitment_id}/complete *)
Definition complete_commitment (commitment_id : Z) : Handler Commitment :=
  bind_parameter commitment_id (fun w =>
    match query_commitment w commitment_id with
    | None => http_error 404 (Text "Commitment not found") w
    | Some commitment =>
        call (StateMachine.complete_commitment (cm_id commitment) ;;;
              commitment_obj (cm_id commitment)) w
    end).

(** What the framework makes of the outcome of a handler. *)
Definition response_of {A} (r : Outcome A * World) : Response A * World :=
  match r with
  | (Returned a, w') => (Ok a, w')
  | (Raised (HTTPException status_code detail), w') =>
      http_error status_code (Text detail) w'
  | (Raised (RequestValidationError errors), w') => http_error 422 (Invalid errors) w'
  | (Raised e, w') => (Uncaught e, w')
  end.

(** PUT /commitments/{commitment_id}/fail: [Routes.fail_commitment], with
    what the framework makes of the exceptions it raises. The body is
    validated before the handler runs and binds the path id. *)
Definition fail_commitment (commitment_id : Z) (body : Routes.CommitmentFailBody)
    : Handler LearningSignal :=
  fun w =>
    match Routes.validate_CommitmentFail body w with
    | (Raised _, _) => response_of (Routes.fail_commitment commitment_id body w)
    | (Returned _, _) =>
        bind_parameter commitment_id
          (fun w => response_of (Routes.fail_commitment commitment_id body w)) w
    end.

(** POST /work-items/{work_item_id}/reset *)
Definition reset_to_intent (work_item_id : Z) : Handler WorkItem :=
  bind_parameter work_item_id (fun w =>
    match query_work_item w work_item_id with
    | None => http_error 404 (Text "Work item not found") w
    | Some work_item =>
        match (StateMachine.reset_to_intent (wi_id work_item) ;;;
               work_item_obj (wi_id work_item)) w with
        | (Returned refreshed, w') => (Ok refreshed, w')
        | (Raised (ValueError message), w') => http_error 400 (Text message) w'
        | (Raised e, w') => (Uncaught e, w')
        end
    end).

(** The requests, and the status and the world each one ends with. *)
Inductive Request :=
| PostWorkItem (body : WorkItemCreateBody)
| GetWorkItem (work_item_id : Z)
| PostConstraint (work_item_id : Z) (body : ConstraintCreateBody)
| GetConstraints (work_item_id : Z)
| PutClear (constraint_id : Z) (clear_data : ConstraintClear)
| PutReopen (constraint_id : Z)
| PostCommit (work_item_id : Z) (commitment_data : CommitmentCreate)
| GetCommitments (work_item_id : Z)
| PutComplete (commitment_id : Z)
| PutFail (commitment_id : Z) (body : Routes.CommitmentFailBody)
| PostReset (work_item_id : Z).

(** The status code of a response: the code of the route decorator on
    success, the code of the HTTP error, 500 for an exception let
    through. *)
Definition status_of {A} (success : Z) (r : Response A) : Z :=
  match r with
  | Ok _ => success
  | HTTPError status_code _ => status_code
  | Uncaught _ => 500
  end.

Definition answer {A} (success : Z) (h : Handler A) (w : World) : Z * World :=
  (status_of success (fst (h w)), snd (h w)).

Definition serve (request : Request) (w : World) : Z * World :=
  match request with
  | PostWorkItem body => answer 201 (create_work_item body) w
  | GetWorkItem id => answer 200 (get_work_item id) w
  | PostConstraint id body => answer 201 (add_constraint id body) w
  | GetConstraints id => answer 200 (list_constraints id) w
  | PutClear id data => answer 200 (clear_constraint id data) w
  | PutReopen id => answer 200 (reopen_constraint id) w
  | PostCommit id data => answer 201 (create_commitment id data) w
  | GetCommitments id => answer 200 (list_commitments id) w
  | PutComplete id => answer 200 (complete_commitment id) w
  | PutFail id body => answer 200 (fail_commitment id body) w
  | PostReset id => answer 200 (reset_to_intent id) w
  end.

End Api.

(** ** Predicates of the statements *)

Definition cleared (c : Constraint) : Prop := c_status c = CLEARED.

(** [needle in hay] on strings. *)
Definition contains (needle hay : string) : Prop :=
  exists pre post, hay = pre +:+ needle +:+ post.

(** The character occurs in the string. *)
Fixpoint has_char (ch : ascii) (s : string) : bool :=
  match s with
  | EmptyString => false
  | String x rest => Ascii.eqb x ch || has_char ch rest
  end.

(** The three parts [_generate_drilldown_key] joins. *)
Definition key_parts (primary_cause : string) (location reference_system : option string)
    : list string :=
  [primary_cause;
   StateMachine.str_or location "no_location";
   StateMachine.str_or reference_system "no_reference"].

(** What the drilldown read reports of an item. *)
Definition reported (item : Routes.DrilldownItem) : string * string * string :=
  (Routes.item_primary_cause item, Routes.item_location item,
   Routes.item_reference_system item).

(** An optional component as a report recovers it: a value as it is, an
    absent one as Not specified. *)
Definition original (component : option string) : string :=
  match component with
  | Some s => s
  | None => "Not specified"
  end.

(** The components the key was generated from, recovered. *)
Definition original_components (primary_cause : string)
    (location reference_system : option string) : string * string * string :=
  (primary_cause, original location, original reference_system).

(** The component, when present, contains the delimiter. *)
Definition has_delimiter (component : option string) : bool :=
  match component with
  | Some s => has_char "|" s
  | None => false
  end.

(** The component, when present, is neither empty nor the placeholder. *)
Definition apart_from (placeholder : string) (component : option string) : Prop :=
  component <> Some "" /\ component <> Some placeholder.

(** The key was produced by [_generate_drilldown_key]. *)
Definition generated_key (s : LearningSignal) : Prop :=
  exists c l r, ls_drilldown_key s = StateMachine._generate_drilldown_key c l r.

(** The work item has an Active commitment. *)
Definition has_active_commitment (w : World) (wi : WorkItem) : Prop :=
  exists c, In c (commitments w)
            /\ cm_work_item_id c = wi_id wi
            /\ cm_status c = CommitmentStatus.ACTIVE.

(** Exactly one of completed-at and failed-at is set. *)
Definition exactly_one_stamp (c : Commitment) : Prop :=
  (cm_completed_at c <> None /\ cm_failed_at c = None)
  \/ (cm_completed_at c = None /\ cm_failed_at c <> None).

Definition after {A} (m : M A) (w : World) : World := snd (m w).

Definition outcome {A} (m : M A) (w : World) : Outcome A := fst (m w).

(** The operation writes no audit event. *)
Definition audit_silent {A} (m : M A) : Prop :=
  forall w, audit_events (snd (m w)) = audit_events w.

(** Work items that are Committed, Complete or Failed keep their state. *)
Definition frozen_kept (w w' : World) : Prop :=
  forall id wi,
    get_work_item w id = Some wi ->
    StateMachine.frozen (wi_state wi) = true ->
    exists wi', get_work_item w' id = Some wi' /\ wi_state wi' = wi_state wi.

(** Existing commitments are as they were. *)
Definition commitments_kept (w w' : World) : Prop :=
  forall id c, get_commitment w id = Some c -> get_commitment w' id = Some c.

(** The work items table is as it was, or the rows of one work item that
    is not frozen have been given a state and an update time. *)
Definition touches_only_unfrozen (w w' : World) : Prop :=
  work_items w' = work_items w
  \/ exists id wi s t,
       get_work_item w id = Some wi
       /\ StateMachine.frozen (wi_state wi) = false
       /\ work_items w' = update_rows wi_id id (with_updated_at t)
                            (update_rows wi_id id (with_state s) (work_items w)).

(** A commitment carries no completion or failure time while Active. *)
Definition unstamped_while_active (c : Commitment) : Prop :=
  cm_status c = CommitmentStatus.ACTIVE ->
  cm_completed_at c = None /\ cm_failed_at c = None.

Definition active_unstamped (w : World) : Prop :=
  Forall unstamped_while_active (commitments w).

(** The change of state an operation may make to a work item. *)
Definition allowed_transition (op : Op) (s s' : WorkItemState) : Prop :=
  s = s'
  \/ match op with
     | AddConstraint _ _ _ | ReopenConstraint _ =>
         StateMachine.frozen s = false /\ s' = NOT_READY
     | ClearConstraint _ _ =>
         StateMachine.frozen s = false /\ (s' = READY \/ s' = NOT_READY)
     | CreateCommitment _ _ _ _ => s = READY /\ s' = COMMITTED
     | CompleteCommitment _ => s' = COMPLETE \/ s' = FAILED
     | FailCommitment _ _ _ _ => s' = FAILED
     | ResetToIntent _ => (s = COMPLETE \/ s = FAILED) /\ s' = INTENT
     end.

(** Operations on constraints. *)
Definition is_constraint_op (op : Op) : bool :=
  match op with
  | AddConstraint _ _ _ | ClearConstraint _ _ | ReopenConstraint _ => true
  | _ => false
  end.

(** Operations that end a commitment, and the reset. *)
Definition ends_commitment (op : Op) : bool :=
  match op with
  | CompleteCommitment _ | FailCommitment _ _ _ _ => true
  | _ => false
  end.

Definition is_reset (op : Op) : bool :=
  match op with
  | ResetToIntent _ => true
  | _ => false
  end.

(** A constraint is Open with no clearer and no clearing time, or Cleared
    with both. *)
Definition clearing_consistent (c : Constraint) : Prop :=
  match c_status c with
  | OPEN => c_cleared_by_user_id c = None /\ c_cleared_at c = None
  | CLEARED => c_cleared_by_user_id c <> None /\ c_cleared_at c <> None
  end.

(** The number of Active commitments of a work item. *)
Definition active_count (w : World) (work_item_id : Z) : nat :=
  List.length (filter (StateMachine.is_active_for work_item_id) (commitments w)).

(** A work item recorded as Ready has constraints that make it Ready. *)
Definition ready_is_backed (w : World) : Prop :=
  forall id wi,
    get_work_item w id = Some wi ->
    wi_state wi = READY ->
    StateMachine.calculate_readiness w id = READY.

(** The state [update_work_item_state] leaves a work item in. *)
Definition recomputed_state (w : World) (wi : WorkItem) : WorkItemState :=
  if StateMachine.frozen (wi_state wi) then wi_state wi
  else StateMachine.calculate_readiness w (wi_id wi).

(** The fields of a commitment that are fixed at creation. *)
Definition pledge (c : Commitment) : Z * Z * string * string * datetime * datetime :=
  (cm_id c, cm_work_item_id c, cm_committed_by_user_id c, cm_owner_user_id c,
   cm_due_at c, cm_created_at c).

(** Every commitment belongs to a work item of the table. *)
Definition commitments_have_work_items (w : World) : Prop :=
  forall c, In c (commitments w) -> get_work_item w (cm_work_item_id c) <> None.







(** Every Failed commitment has a learning signal. *)
Definition failures_have_signals (w : World) : Prop :=
  forall c, In c (commitments w) ->
            cm_status c = CommitmentStatus.FAILED ->
            exists s, In s (learning_signals w) /\ ls_commitment_id s = cm_id c.

(** The sum of the counts of the rows. *)
Definition total_count (rows : list Routes.DrilldownRow) : Z :=
  fold_right Z.add 0 (map Routes.row_count rows).

(** The number of occurrences of a character. *)
Fixpoint count_char (ch : ascii) (s : string) : nat :=
  match s with
  | EmptyString => O
  | String x rest => (if Ascii.eqb x ch then 1 else 0)%nat + count_char ch rest
  end.

(** ** The worlds the operations leave behind, in closed form *)

Definition new_signal (w : World) (c : Commitment) (wi : WorkItem)
    (primary_cause : PrimaryCause.t) (secondary_cause notes : option string) : LearningSignal :=
  {| ls_id := next_id (map ls_id (learning_signals w));
     ls_work_item_id := wi_id wi;
     ls_commitment_id := cm_id c;
     ls_primary_cause := primary_cause;
     ls_secondary_cause := secondary_cause;
     ls_notes := notes;
     ls_drilldown_key :=
       StateMachine._generate_drilldown_key (PrimaryCause.value primary_cause)
         (wi_location wi)
         (option_map ReferencePlanSystem.value (wi_reference_plan_system wi));
     ls_created_at := clock w (S (clock_reads w)) |}.

(** After [fail_commitment] called when the clock has been read [n] times. *)
Definition world_after_fail (w : World) (n : nat) (commitment : Z) (wi : WorkItem)
    (signal : LearningSignal) : World :=
  let now := clock w n in
  {| work_items := update_rows wi_id (wi_id wi) (with_updated_at now)
                     (update_rows wi_id (wi_id wi) (with_state FAILED) (work_items w));
     constraints := constraints w;
     commitments := update_rows cm_id commitment (with_failed_at now)
                      (update_rows cm_id commitment (with_status CommitmentStatus.FAILED)
                         (commitments w));
     learning_signals := learning_signals w ++ [signal];
     audit_events := audit_events w;
     clock := clock w;
     clock_reads := S (S n) |}.

Definition world_after_on_time_completion (w : World) (commitment : Z) (wi : WorkItem) : World :=
  let now := clock w (clock_reads w) in
  {| work_items := update_rows wi_id (wi_id wi) (with_updated_at now)
                     (update_rows wi_id (wi_id wi) (with_state COMPLETE) (work_items w));
     constraints := constraints w;
     commitments := update_rows cm_id commitment (with_completed_at now)
                      (update_rows cm_id commitment (with_status CommitmentStatus.COMPLETE)
                         (commitments w));
     learning_signals := learning_signals w;
     audit_events := audit_events w;
     clock := clock w;
     clock_reads := S (clock_reads w) |}.

Definition world_after_reset (w : World) (work_item : Z) : World :=
  let now := clock w (clock_reads w) in
  {| work_items := update_rows wi_id work_item (with_updated_at now)
                     (update_rows wi_id work_item (with_state INTENT) (work_items w));
     constraints := constraints w;
     commitments := commitments w;
     learning_signals := learning_signals w;
     audit_events := audit_events w;
     clock := clock w;
     clock_reads := S (clock_reads w) |}.

(** The world with one more reading of the clock consumed. *)
Definition tick (w : World) : World := snd (utcnow w).

(** ** Worlds used as concrete inputs *)

Definition sample_work_item : WorkItem :=
  {| wi_id := 1;
     wi_title := "Install formwork";
     wi_description := Some "Install formwork for foundation";
     wi_location := Some "Grid A1-A5";
     wi_owner_user_id := "user_123";
     wi_state := INTENT;
     wi_reference_plan_system := None;
     wi_reference_plan_external_id := None;
     wi_reference_plan_dates := None;
     wi_created_at := 0;
     wi_updated_at := 0 |}.

(** A fresh database holding the sample work item; the n-th reading of the
    clock is n. *)
Definition fresh_world : World :=
  {| work_items := [sample_work_item];
     constraints := [];
     commitments := [];
     learning_signals := [];
     audit_events := [];
     clock := fun n => Z.of_nat n;
     clock_reads := 0 |}.

Definition cleared_constraint (id : Z) (type : string) : Constraint :=
  {| c_id := id;
     c_work_item_id := 1;
     c_type := type;
     c_description := None;
     c_status := CLEARED;
     c_cleared_by_user_id := Some "user_123";
     c_cleared_at := Some 0;
     c_created_at := 0 |}.

Definition open_constraint (id : Z) (type descr : string) (created_at : datetime) : Constraint :=
  {| c_id := id;
     c_work_item_id := 1;
     c_type := type;
     c_description := Some descr;
     c_status := OPEN;
     c_cleared_by_user_id := None;
     c_cleared_at := None;
     c_created_at := created_at |}.

(** The sample work item made Ready: one constraint, cleared. *)
Definition ready_world : World :=
  Eval vm_compute in
  after (StateMachine.clear_constraint 1 "user_123")
    (after (StateMachine.add_constraint 1 "Materials" (Some "Concrete ready")) fresh_world).

(** ... then committed, due at 1000. *)
Definition committed_world : World :=
  Eval vm_compute in
  after (StateMachine.create_commitment 1 "user_123" "user_123" 1000) ready_world.

(** ... then completed on time. *)
Definition completed_world : World :=
  Eval vm_compute in
  after (StateMachine.complete_commitment 1) committed_world.

(** ... then failed, although Complete. *)
Definition failed_after_complete : World :=
  Eval vm_compute in
  after (StateMachine.fail_commitment 1 PrimaryCause.WEATHER None None) completed_world.

(** Two learning signals with different keys, one occurrence each. *)
Definition two_signals : list LearningSignal :=
  [ {| ls_id := 1; ls_work_item_id := 1; ls_commitment_id := 1;
       ls_primary_cause := PrimaryCause.ACCESS;
       ls_secondary_cause := None; ls_notes := None;
       ls_drilldown_key := "Access|no_location|no_reference";
       ls_created_at := 10 |};
    {| ls_id := 2; ls_work_item_id := 2; ls_commitment_id := 2;
       ls_primary_cause := PrimaryCause.WEATHER;
       ls_secondary_cause := None; ls_notes := None;
       ls_drilldown_key := "Weather|no_location|no_reference";
       ls_created_at := 20 |} ].

Definition access_row : Routes.DrilldownRow :=
  {| Routes.row_key := "Access|no_location|no_reference";
     Routes.row_count := 1;
     Routes.row_latest := 10 |}.

Definition weather_row : Routes.DrilldownRow :=
  {| Routes.row_key := "Weather|no_location|no_reference";
     Routes.row_count := 1;
     Routes.row_latest := 20 |}.

(** The sample work item with two open constraints. *)
Definition not_ready_world : World :=
  Eval vm_compute in
  after (StateMachine.add_constraint 1 "Access" (Some "Road blocked"))
    (after (StateMachine.add_constraint 1 "Materials" (Some "Concrete not delivered")) fresh_world).

(** ** Properties *)

(** *** Readiness *)

Section Readiness.

Import StateMachine.

Lemma scan_for_open_ready (C : list Constraint) :
  scan_for_open C = READY <-> Forall cleared C.
Proof.
  induction C as [|c C IH]; simpl.
  - split; [constructor | reflexivity].
  - destruct (ConstraintStatus_eq_dec (c_status c) OPEN) as [Ho|Ho].
    + split; [discriminate|].
      intros H. inversion H as [|? ? Hc _]; subst.
      unfold cleared in Hc. congruence.
    + rewrite IH. split.
      * intros H. constructor; [|exact H].
        unfold cleared. destruct (c_status c); congruence.
      * intros H. inversion H; assumption.
Qed.

Lemma scan_for_open_binary (C : list Constraint) :
  scan_for_open C = READY \/ scan_for_open C = NOT_READY.
Proof.
  induction C as [|c C IH]; simpl; [now left|].
  destruct (ConstraintStatus_eq_dec (c_status c) OPEN); [now right | exact IH].
Qed.

Lemma readiness_ready (C : list Constraint) :
  readiness C = READY <-> C <> [] /\ Forall cleared C.
Proof.
  destruct C as [|c C].
  - simpl. split; [discriminate | intros [H _]; now elim H].
  - change (readiness (c :: C)) with (scan_for_open (c :: C)).
    rewrite scan_for_open_ready. split; [intros H; split; [discriminate | exact H] | tauto].
Qed.

Lemma readiness_binary (C : list Constraint) :
  readiness C = READY \/ readiness C = NOT_READY.
Proof.
  destruct C as [|c C]; [now right|].
  change (readiness (c :: C)) with (scan_for_open (c :: C)).
  apply scan_for_open_binary.
Qed.

Lemma readiness_agree (C C' : list Constraint) :
  (C <> [] /\ Forall cleared C <-> C' <> [] /\ Forall cleared C') ->
  readiness C = readiness C'.
Proof.
  intros H.
  destruct (readiness_binary C) as [E|E], (readiness_binary C') as [E'|E'];
    try congruence.
  - apply readiness_ready in E. apply H in E. apply readiness_ready in E. congruence.
  - apply readiness_ready in E'. apply H in E'. apply readiness_ready in E'. congruence.
Qed.

Lemma cleared_statuses (C : list Constraint) :
  Forall cleared C <-> Forall (fun s => s = CLEARED) (map c_status C).
Proof. rewrite Forall_map. reflexivity. Qed.

Lemma readiness_statuses (C C' : list Constraint) :
  map c_status C = map c_status C' -> readiness C = readiness C'.
Proof.
  intros H. apply readiness_agree.
  rewrite !cleared_statuses, H.
  assert (C = [] <-> C' = []) as Hnil.
  { destruct C, C'; simpl in H; split; intros; congruence. }
  tauto.
Qed.

Lemma readiness_permutation (C C' : list Constraint) :
  Permutation C C' -> readiness C = readiness C'.
Proof.
  intros H. apply readiness_agree.
  assert (C = [] <-> C' = []) as Hnil.
  { split; intros ->.
    - now apply Permutation_nil.
    - apply Permutation_nil. now symmetry. }
  assert (Forall cleared C <-> Forall cleared C') as Hall.
  { split; intros Hc.
    - eapply Permutation_Forall; [exact H | exact Hc].
    - eapply Permutation_Forall; [apply Permutation_sym; exact H | exact Hc]. }
  tauto.
Qed.

(** C3. [calculate_readiness] answers Ready exactly when the work item
    has at least one constraint and all of them are Cleared, and
    NotReady otherwise; the answer is the same for any reordering of the
    constraints, for any constraints with the same statuses, and for any
    world with the same constraints table (so titles, timestamps and
    reference-plan data of the work item play no part). *)
Theorem calculate_readiness_spec :
  (forall C : list Constraint,
      (readiness C = READY <-> C <> [] /\ Forall cleared C)
      /\ (readiness C <> READY -> readiness C = NOT_READY))
  /\ (forall C C' : list Constraint,
        Permutation C C' -> readiness C = readiness C')
  /\ (forall C C' : list Constraint,
        map c_status C = map c_status C' -> readiness C = readiness C')
  /\ (forall (w : World) (work_item : Z),
        calculate_readiness w work_item = readiness (work_item_constraints w work_item))
  /\ (forall (w w' : World) (work_item : Z),
        constraints w = constraints w' ->
        calculate_readiness w work_item = calculate_readiness w' work_item).
Proof.
  split; [|split; [|split; [|split]]].
  - intros C. split; [apply readiness_ready|].
    destruct (readiness_binary C); tauto.
  - apply readiness_permutation.
  - apply readiness_statuses.
  - reflexivity.
  - intros w w' wi H. unfold calculate_readiness, work_item_constraints. now rewrite H.
Qed.

Lemma calculate_readiness_spec_witness :
  readiness [cleared_constraint 1 "Materials"; cleared_constraint 2 "Access"] = READY
  /\ readiness [open_constraint 1 "Materials" "Concrete" 0; cleared_constraint 2 "Access"]
     = readiness [cleared_constraint 2 "Access"; open_constraint 1 "Materials" "Concrete" 0].
Proof.
  destruct calculate_readiness_spec as (Hiff & Hperm & _).
  split.
  - apply (Hiff [cleared_constraint 1 "Materials"; cleared_constraint 2 "Access"]).
    split; [discriminate | repeat constructor].
  - apply Hperm. apply perm_swap.
Defined.

End Readiness.

(** *** Strings *)

Lemma append_assoc (a b c : string) : (a +:+ b) +:+ c = a +:+ b +:+ c.
Proof. induction a as [|x a IH]; simpl; [reflexivity | now rewrite IH]. Qed.

Lemma append_nil_r (a : string) : a +:+ "" = a.
Proof. induction a as [|x a IH]; simpl; [reflexivity | now rewrite IH]. Qed.

Lemma contains_refl (s : string) : contains s s.
Proof. exists "", "". simpl. now rewrite append_nil_r. Qed.

Lemma contains_trans (a b c : string) : contains a b -> contains b c -> contains a c.
Proof.
  intros (p & q & ->) (p' & q' & ->).
  exists (p' +:+ p), (q +:+ q'). now rewrite !append_assoc.
Qed.

Lemma contains_prefix (p s : string) : contains s (p +:+ s).
Proof. exists p, "". now rewrite append_nil_r. Qed.

Lemma contains_suffix (s q : string) : contains s (s +:+ q).
Proof. now exists "", q. Qed.

Lemma contains_concat (sep x : string) (l : list string) :
  In x l -> contains x (String.concat sep l).
Proof.
  induction l as [|y l IH]; [contradiction|].
  intros [->|Hin].
  - destruct l; simpl; [apply contains_refl | apply contains_suffix].
  - specialize (IH Hin). destruct l as [|z l]; [contradiction|].
    change (String.concat sep (y :: z :: l))
      with (y +:+ sep +:+ String.concat sep (z :: l)).
    eapply contains_trans; [exact IH|].
    eapply contains_trans; apply contains_prefix.
Qed.

(** *** Running the monad *)

Lemma bind_returned {A B} (m : M A) (k : A -> M B) (w w' : World) (a : A) :
  m w = (Returned a, w') -> bind m k w = k a w'.
Proof. intros H. unfold bind. now rewrite H. Qed.

Lemma bind_raised {A B} (m : M A) (k : A -> M B) (w w' : World) (e : Exc) :
  m w = (Raised e, w') -> bind m k w = (Raised e, w').
Proof. intros H. unfold bind. now rewrite H. Qed.

Lemma work_item_obj_some (w : World) (id : Z) (wi : WorkItem) :
  get_work_item w id = Some wi -> work_item_obj id w = (Returned wi, w).
Proof. intros H. unfold work_item_obj, bind, gets. now rewrite H. Qed.

Lemma commitment_obj_some (w : World) (id : Z) (c : Commitment) :
  get_commitment w id = Some c -> commitment_obj id w = (Returned c, w).
Proof. intros H. unfold commitment_obj, bind, gets. now rewrite H. Qed.

Lemma constraint_obj_some (w : World) (id : Z) (c : Constraint) :
  get_constraint w id = Some c -> constraint_obj id w = (Returned c, w).
Proof. intros H. unfold constraint_obj, bind, gets. now rewrite H. Qed.

Lemma after_bind_returned {A B} (m : M A) (k : A -> M B) (w w' : World) (a : A) :
  m w = (Returned a, w') -> after (bind m k) w = after (k a) w'.
Proof. intros H. unfold after. now rewrite (bind_returned _ _ _ _ _ H). Qed.

Lemma after_bind_raised {A B} (m : M A) (k : A -> M B) (w w' : World) (e : Exc) :
  m w = (Raised e, w') -> after (bind m k) w = w'.
Proof. intros H. unfold after. now rewrite (bind_raised _ _ _ _ _ H). Qed.

Lemma after_then_ret {A B} (m : M A) (b : B) (w : World) :
  after (m ;;; ret b) w = after m w.
Proof. unfold after, bind. destruct (m w) as [[a|e] w']; reflexivity. Qed.

Lemma work_item_obj_none (w : World) (id : Z) :
  get_work_item w id = None -> exists e, work_item_obj id w = (Raised e, w).
Proof. intros H. unfold work_item_obj, bind, gets. rewrite H. eexists. reflexivity. Qed.

Lemma commitment_obj_none (w : World) (id : Z) :
  get_commitment w id = None -> exists e, commitment_obj id w = (Raised e, w).
Proof. intros H. unfold commitment_obj, bind, gets. rewrite H. eexists. reflexivity. Qed.

Lemma constraint_obj_none (w : World) (id : Z) :
  get_constraint w id = None -> exists e, constraint_obj id w = (Raised e, w).
Proof. intros H. unfold constraint_obj, bind, gets. rewrite H. eexists. reflexivity. Qed.

Lemma find_key {A} (key : A -> Z) (id : Z) (rows : list A) (r : A) :
  find (fun x => Z.eqb (key x) id) rows = Some r -> In r rows /\ key r = id.
Proof.
  intros H. apply find_some in H. destruct H as [Hin Hk].
  split; [exact Hin | now apply Z.eqb_eq].
Qed.

(** *** Refusal of a commitment *)

Section Refusal.

Import StateMachine.

Lemma find_active_some (w : World) (wi : WorkItem) :
  has_active_commitment w wi ->
  exists c, find (is_active_for (wi_id wi)) (commitments w) = Some c.
Proof.
  intros (c & Hin & Hid & Hst).
  destruct (find (is_active_for (wi_id wi)) (commitments w)) as [c'|] eqn:E.
  - now exists c'.
  - exfalso. eapply find_none in E; [|exact Hin].
    unfold is_active_for in E. rewrite Hid, Z.eqb_refl, Hst in E.
    simpl in E. discriminate.
Qed.

Lemma find_active_none (w : World) (wi : WorkItem) :
  ~ has_active_commitment w wi ->
  find (is_active_for (wi_id wi)) (commitments w) = None.
Proof.
  intros H.
  destruct (find (is_active_for (wi_id wi)) (commitments w)) as [c|] eqn:E;
    [|reflexivity].
  exfalso. apply H. apply find_some in E. destruct E as [Hin Hc].
  unfold is_active_for in Hc. apply andb_true_iff in Hc. destruct Hc as [Hid Hst].
  exists c. split; [exact Hin|]. split; [now apply Z.eqb_eq|].
  destruct (CommitmentStatus.eq_dec (cm_status c) CommitmentStatus.ACTIVE);
    [assumption | discriminate].
Qed.

Lemma label_names_type (c : Constraint) : contains (c_type c) (constraint_label c).
Proof. apply contains_suffix. Qed.

Lemma label_names_description (c : Constraint) (d : string) :
  c_description c = Some d -> contains d (constraint_label c).
Proof.
  intros H. unfold constraint_label. rewrite H.
  destruct d as [|x d].
  - exists "", (c_type c +:+ ": " +:+ str_or (Some "") "(no description)"). reflexivity.
  - simpl str_or. eapply contains_trans; [|apply contains_prefix]. apply contains_prefix.
Qed.

Lemma msg_not_ready_names (c : Constraint) (cs : list Constraint) :
  In c cs -> c_status c = OPEN ->
  contains (constraint_label c) (msg_not_ready (map constraint_label (filter is_open cs))).
Proof.
  intros Hin Ho. unfold msg_not_ready.
  eapply contains_trans; [|apply contains_prefix].
  eapply contains_trans; [|apply contains_prefix].
  apply contains_concat, in_map, filter_In. split; [exact Hin|].
  unfold is_open. rewrite Ho. reflexivity.
Qed.

Lemma msg_no_constraints_says_so : contains "no constraints" msg_no_constraints.
Proof.
  exists "REFUSAL: Cannot commit work with ",
         ". Add at least one constraint and clear it to demonstrate readiness.".
  reflexivity.
Qed.

(** C1. A work item that is not Ready, or that has an Active commitment,
    is refused by [create_commitment]: the call raises [RefusalError]
    and the world, the work item's state included, is as before. When no
    commitment is Active (so the refusal is the not-ready one), the
    message names every Open constraint of the work item by type and
    description, and for a work item without constraints it is the
    message saying there are no constraints. *)
Theorem create_commitment_refuses
    (w : World) (work_item : Z) (wi : WorkItem)
    (committed_by_user_id owner_user_id : string) (due_at : datetime) :
  get_work_item w work_item = Some wi ->
  wi_state wi <> READY \/ has_active_commitment w wi ->
  exists message open_constraints,
    create_commitment work_item committed_by_user_id owner_user_id due_at w
    = (Raised (RefusalError message open_constraints), w)
    /\ (~ has_active_commitment w wi ->
        (forall c, In c (work_item_constraints w work_item) -> c_status c = OPEN ->
                   contains (constraint_label c) message
                   /\ contains (c_type c) message
                   /\ (forall d, c_description c = Some d -> contains d message)
                   /\ In (constraint_label c) open_constraints)
        /\ (work_item_constraints w work_item = [] ->
            message = msg_no_constraints /\ contains "no constraints" message)).
Proof.
  intros Hwi Hcase.
  unfold create_commitment.
  rewrite (bind_returned _ _ _ _ _ (work_item_obj_some _ _ _ Hwi)).
  unfold bind at 1, gets at 1.
  destruct (find (is_active_for (wi_id wi)) (commitments w)) as [c|] eqn:Hact.
  - exists msg_already_committed, []. split; [reflexivity|].
    intros Hno. exfalso. apply Hno.
    apply find_some in Hact. destruct Hact as [Hin Hc].
    unfold is_active_for in Hc. apply andb_true_iff in Hc. destruct Hc as [Hid Hst].
    exists c. split; [exact Hin|]. split; [now apply Z.eqb_eq|].
    destruct (CommitmentStatus.eq_dec (cm_status c) CommitmentStatus.ACTIVE);
      [assumption | discriminate].
  - destruct Hcase as [Hnr | Hhas].
    2:{ apply find_active_some in Hhas. destruct Hhas as [c Hc]. congruence. }
    destruct (WorkItemState_eq_dec (wi_state wi) READY) as [Hr|_]; [contradiction|].
    unfold bind, gets.
    destruct (work_item_constraints w work_item) as [|c0 cs] eqn:Hcs.
    + exists msg_no_constraints, []. split; [reflexivity|].
      intros _. split; [intros c []|].
      intros _. split; [reflexivity | apply msg_no_constraints_says_so].
    + eexists _, _. split; [reflexivity|].
      intros _. split; [|discriminate].
      intros c Hin Ho.
      pose proof (msg_not_ready_names c (c0 :: cs) Hin Ho) as Hn.
      split; [exact Hn|]. split; [|split].
      * eapply contains_trans; [apply label_names_type | exact Hn].
      * intros d Hd. eapply contains_trans; [eapply label_names_description; exact Hd | exact Hn].
      * apply in_map, filter_In. split; [exact Hin|].
        unfold is_open. now rewrite Ho.
Qed.

Lemma create_commitment_refuses_witness :
  exists message open_constraints,
    create_commitment 1 "user_123" "user_123" 5 not_ready_world
    = (Raised (RefusalError message open_constraints), not_ready_world)
    /\ contains "Access: Road blocked" message.
Proof.
  destruct (create_commitment_refuses not_ready_world 1
              (with_updated_at 1 (with_state NOT_READY sample_work_item))
              "user_123" "user_123" 5) as (m & o & Hrun & Hmsg).
  - reflexivity.
  - left. simpl. discriminate.
  - exists m, o. split; [exact Hrun|].
    assert (~ has_active_commitment not_ready_world
                (with_updated_at 1 (with_state NOT_READY sample_work_item))) as Hno.
    { intros (c & [] & _). }
    destruct (Hmsg Hno) as [Hopen _].
    destruct (Hopen (open_constraint 2 "Access" "Road blocked" 2)) as [Hc _].
    + vm_compute. right. left. reflexivity.
    + reflexivity.
    + exact Hc.
Defined.

End Refusal.

(** *** Rows after an assignment *)

Ltac run_monad :=
  unfold work_item_obj, commitment_obj, constraint_obj,
    add_constraint_row, add_commitment_row, add_learning_signal_row,
    db_commit, set_work_item, set_commitment, set_constraint,
    bind, utcnow, modify, gets, deref, ret, raise;
  simpl.

Lemma find_update_rows_same {A} (key : A -> Z) (id : Z) (f : A -> A) (rows : list A) :
  (forall r, key (f r) = key r) ->
  find (fun x => Z.eqb (key x) id) (update_rows key id f rows)
  = option_map f (find (fun x => Z.eqb (key x) id) rows).
Proof.
  intros Hk. induction rows as [|r rows IH]; [reflexivity|].
  simpl. destruct (Z.eqb (key r) id) eqn:E.
  - rewrite Hk, E. reflexivity.
  - rewrite E. exact IH.
Qed.

Lemma find_update_rows_other {A} (key : A -> Z) (id id' : Z) (f : A -> A) (rows : list A) :
  id <> id' ->
  (forall r, key (f r) = key r) ->
  find (fun x => Z.eqb (key x) id') (update_rows key id f rows)
  = find (fun x => Z.eqb (key x) id') rows.
Proof.
  intros Hne Hk. induction rows as [|r rows IH]; [reflexivity|].
  simpl. destruct (Z.eqb (key r) id) eqn:E.
  - rewrite Hk. apply Z.eqb_eq in E.
    destruct (Z.eqb (key r) id') eqn:E'.
    + apply Z.eqb_eq in E'. congruence.
    + exact IH.
  - destruct (Z.eqb (key r) id'); [reflexivity | exact IH].
Qed.

Lemma find_app_some {A} (p : A -> bool) (l l' : list A) (a : A) :
  find p l = Some a -> find p (l ++ l') = Some a.
Proof.
  induction l as [|x l IH]; simpl; [discriminate|].
  destruct (p x); [trivial | exact IH].
Qed.

(** *** Reset *)

Section Reset.

Import StateMachine.

Lemma reset_to_intent_run (w : World) (work_item : Z) (wi : WorkItem) :
  get_work_item w work_item = Some wi ->
  wi_state wi = COMPLETE \/ wi_state wi = FAILED ->
  reset_to_intent work_item w = (Returned tt, world_after_reset w work_item).
Proof.
  intros Hwi Hst. unfold reset_to_intent.
  rewrite (bind_returned _ _ _ _ _ (work_item_obj_some _ _ _ Hwi)).
  destruct Hst as [-> | ->]; reflexivity.
Qed.

Lemma reset_to_intent_rejects (w : World) (work_item : Z) (wi : WorkItem) :
  get_work_item w work_item = Some wi ->
  wi_state wi <> COMPLETE -> wi_state wi <> FAILED ->
  reset_to_intent work_item w = (Raised (ValueError (msg_reset (wi_state wi))), w).
Proof.
  intros Hwi Hc Hf. unfold reset_to_intent.
  rewrite (bind_returned _ _ _ _ _ (work_item_obj_some _ _ _ Hwi)).
  destruct (wi_state wi); try reflexivity; congruence.
Qed.

(** C8. [reset_to_intent] on a Complete or Failed work item returns,
    leaving it in Intent with updated-at set to the reading of the
    clock, every other work item as it was, and the constraints,
    commitments and learning signals tables untouched; on a work item
    in any other state it raises [ValueError] with a message that names
    the current state, as the member of the enum
    ([WorkItemState.COMMITTED] for a Committed work item), and the world
    is as before. *)
Theorem reset_to_intent_spec (w : World) (work_item : Z) (wi : WorkItem) :
  get_work_item w work_item = Some wi ->
  (wi_state wi = COMPLETE \/ wi_state wi = FAILED ->
   exists w' wi',
     reset_to_intent work_item w = (Returned tt, w')
     /\ get_work_item w' work_item = Some wi'
     /\ wi_state wi' = INTENT
     /\ wi_updated_at wi' = clock w (clock_reads w)
     /\ (forall other, other <> work_item -> get_work_item w' other = get_work_item w other)
     /\ constraints w' = constraints w
     /\ commitments w' = commitments w
     /\ learning_signals w' = learning_signals w)
  /\ (wi_state wi <> COMPLETE /\ wi_state wi <> FAILED ->
      exists message,
        reset_to_intent work_item w = (Raised (ValueError message), w)
        /\ message = "Can only reset Failed or Complete work items. Current state: "
                     +:+ WorkItemState_str (wi_state wi)
        /\ contains (WorkItemState_name (wi_state wi)) message).
Proof.
  intros Hwi. split.
  - intros Hst.
    exists (world_after_reset w work_item),
           (with_updated_at (clock w (clock_reads w)) (with_state INTENT wi)).
    split; [now apply (reset_to_intent_run w work_item wi)|].
    split.
    { unfold get_work_item, world_after_reset in *. simpl.
      rewrite !find_update_rows_same by reflexivity. now rewrite Hwi. }
    repeat split.
    intros other Hne. unfold get_work_item, world_after_reset. simpl.
    rewrite !find_update_rows_other by (congruence || reflexivity). reflexivity.
  - intros [Hc Hf]. exists (msg_reset (wi_state wi)).
    split; [now apply reset_to_intent_rejects|].
    split; [reflexivity|].
    exists "Can only reset Failed or Complete work items. Current state: WorkItemState.", "".
    unfold msg_reset, WorkItemState_str.
    rewrite append_nil_r, <- append_assoc. reflexivity.
Qed.

Lemma reset_to_intent_spec_witness :
  (exists w' wi',
      reset_to_intent 1 completed_world = (Returned tt, w')
      /\ get_work_item w' 1 = Some wi' /\ wi_state wi' = INTENT)
  /\ (exists message,
        reset_to_intent 1 committed_world = (Raised (ValueError message), committed_world)
        /\ message = "Can only reset Failed or Complete work items. "
                     +:+ "Current state: WorkItemState.COMMITTED").
Proof.
  split.
  - destruct (reset_to_intent_spec completed_world 1
                (with_updated_at 6 (with_state COMPLETE
                   (with_updated_at 4 (with_state COMMITTED
                      (with_updated_at 3 (with_state READY
                         (with_updated_at 1 (with_state NOT_READY sample_work_item))))))))
                eq_refl) as [Hok _].
    destruct (Hok (or_introl eq_refl)) as (w' & wi' & Hrun & Hget & Hst & _).
    exists w', wi'. auto.
  - destruct (reset_to_intent_spec committed_world 1
                (with_updated_at 4 (with_state COMMITTED
                   (with_updated_at 3 (with_state READY
                      (with_updated_at 1 (with_state NOT_READY sample_work_item))))))
                eq_refl) as [_ Hno].
    destruct Hno as (m & Hrun & Hm & _).
    + split; discriminate.
    + exists m. split; [exact Hrun | exact Hm].
Defined.

End Reset.

(** *** Completion and failure *)

Section Termination.

Import StateMachine.

Lemma fail_commitment_run (w : World) (commitment : Z) (c : Commitment) (wi : WorkItem)
    (primary_cause : PrimaryCause.t) (secondary_cause notes : option string) :
  get_commitment w commitment = Some c ->
  get_work_item w (cm_work_item_id c) = Some wi ->
  fail_commitment commitment primary_cause secondary_cause notes w
  = (Returned (new_signal w c wi primary_cause secondary_cause notes),
     world_after_fail w (clock_reads w) commitment wi
       (new_signal w c wi primary_cause secondary_cause notes)).
Proof.
  intros Hc Hwi. unfold fail_commitment.
  rewrite (bind_returned _ _ _ _ _ (commitment_obj_some _ _ _ Hc)).
  run_monad. unfold get_work_item in *. simpl. rewrite Hwi. reflexivity.
Qed.

Lemma complete_commitment_late (w : World) (commitment : Z) (c : Commitment) :
  get_commitment w commitment = Some c ->
  cm_due_at c < clock w (clock_reads w) ->
  complete_commitment commitment w
  = (fail_commitment commitment PrimaryCause.OTHER None
       (Some "Auto-failed: Completed after due date") ;;; ret tt) (tick w).
Proof.
  intros Hc Hlate. unfold complete_commitment.
  rewrite (bind_returned _ _ _ _ _ (commitment_obj_some _ _ _ Hc)).
  unfold bind at 1. unfold utcnow at 1.
  apply Z.ltb_lt in Hlate. rewrite Hlate. reflexivity.
Qed.

Lemma complete_commitment_on_time (w : World) (commitment : Z) (c : Commitment) (wi : WorkItem) :
  get_commitment w commitment = Some c ->
  get_work_item w (cm_work_item_id c) = Some wi ->
  clock w (clock_reads w) <= cm_due_at c ->
  complete_commitment commitment w
  = (Returned tt, world_after_on_time_completion w commitment wi).
Proof.
  intros Hc Hwi Hok. unfold complete_commitment.
  rewrite (bind_returned _ _ _ _ _ (commitment_obj_some _ _ _ Hc)).
  unfold bind at 1. unfold utcnow at 1.
  apply Z.ltb_ge in Hok. rewrite Hok.
  run_monad. unfold get_work_item in *. simpl. rewrite Hwi. reflexivity.
Qed.

Lemma get_commitment_after_fail (w : World) (n : nat) (commitment : Z) (c : Commitment)
    (wi : WorkItem) (signal : LearningSignal) :
  get_commitment w commitment = Some c ->
  get_commitment (world_after_fail w n commitment wi signal) commitment
  = Some (with_failed_at (clock w n) (with_status CommitmentStatus.FAILED c)).
Proof.
  intros Hc. unfold get_commitment, world_after_fail in *. simpl.
  rewrite !find_update_rows_same by reflexivity. now rewrite Hc.
Qed.

Lemma get_work_item_after_fail (w : World) (n : nat) (commitment : Z) (wi : WorkItem)
    (signal : LearningSignal) (id : Z) :
  get_work_item w id = Some wi ->
  get_work_item (world_after_fail w n commitment wi signal) id
  = Some (with_updated_at (clock w n) (with_state FAILED wi)).
Proof.
  intros Hwi. pose proof (find_key _ _ _ _ Hwi) as [_ Hid].
  unfold get_work_item, world_after_fail in *. simpl. rewrite Hid.
  rewrite !find_update_rows_same by reflexivity. now rewrite Hwi.
Qed.

Lemma get_commitment_after_completion (w : World) (commitment : Z) (c : Commitment)
    (wi : WorkItem) :
  get_commitment w commitment = Some c ->
  get_commitment (world_after_on_time_completion w commitment wi) commitment
  = Some (with_completed_at (clock w (clock_reads w))
            (with_status CommitmentStatus.COMPLETE c)).
Proof.
  intros Hc. unfold get_commitment, world_after_on_time_completion in *. simpl.
  rewrite !find_update_rows_same by reflexivity. now rewrite Hc.
Qed.

Lemma get_work_item_after_completion (w : World) (commitment : Z) (wi : WorkItem) (id : Z) :
  get_work_item w id = Some wi ->
  get_work_item (world_after_on_time_completion w commitment wi) id
  = Some (with_updated_at (clock w (clock_reads w)) (with_state COMPLETE wi)).
Proof.
  intros Hwi. pose proof (find_key _ _ _ _ Hwi) as [_ Hid].
  unfold get_work_item, world_after_on_time_completion in *. simpl. rewrite Hid.
  rewrite !find_update_rows_same by reflexivity. now rewrite Hwi.
Qed.

(** C4. [complete_commitment] returns for every commitment. When the
    reading of the clock is after the due timestamp, what it does is
    [fail_commitment] with primary cause Other and the auto-failure
    note: the commitment ends Failed with failed-at stamped and
    completed-at not touched, its work item ends Failed, and the
    learning signal of the failure is recorded. When the reading is at
    or before the due timestamp, the commitment ends Complete with
    completed-at the reading, its work item ends Complete, and no
    learning signal is recorded. *)
Theorem complete_commitment_spec
    (w : World) (commitment : Z) (c : Commitment) (wi : WorkItem) :
  get_commitment w commitment = Some c ->
  get_work_item w (cm_work_item_id c) = Some wi ->
  exists w' c' wi',
    complete_commitment commitment w = (Returned tt, w')
    /\ get_commitment w' commitment = Some c'
    /\ get_work_item w' (cm_work_item_id c) = Some wi'
    /\ (cm_due_at c < clock w (clock_reads w) ->
        w' = after (fail_commitment commitment PrimaryCause.OTHER None
                      (Some "Auto-failed: Completed after due date")) (tick w)
        /\ cm_status c' = CommitmentStatus.FAILED
        /\ cm_failed_at c' <> None
        /\ cm_completed_at c' = cm_completed_at c
        /\ wi_state wi' = FAILED
        /\ exists signal,
             learning_signals w' = learning_signals w ++ [signal]
             /\ ls_commitment_id signal = commitment
             /\ ls_primary_cause signal = PrimaryCause.OTHER
             /\ ls_notes signal = Some "Auto-failed: Completed after due date")
    /\ (clock w (clock_reads w) <= cm_due_at c ->
        cm_status c' = CommitmentStatus.COMPLETE
        /\ cm_completed_at c' = Some (clock w (clock_reads w))
        /\ cm_failed_at c' = cm_failed_at c
        /\ wi_state wi' = COMPLETE
        /\ wi_updated_at wi' = clock w (clock_reads w)
        /\ learning_signals w' = learning_signals w).
Proof.
  intros Hc Hwi.
  pose proof (find_key _ _ _ _ Hc) as [_ Hcid].
  destruct (Z_lt_le_dec (cm_due_at c) (clock w (clock_reads w))) as [Hlate | Hok].
  - assert (get_commitment (tick w) commitment = Some c) as Hc' by exact Hc.
    assert (get_work_item (tick w) (cm_work_item_id c) = Some wi) as Hwi' by exact Hwi.
    pose proof (fail_commitment_run (tick w) commitment c wi PrimaryCause.OTHER None
                  (Some "Auto-failed: Completed after due date") Hc' Hwi') as Hrun.
    eexists _, _, _. split; [|split; [|split; [|split]]].
    + rewrite (complete_commitment_late w commitment c Hc Hlate).
      rewrite (bind_returned _ _ _ _ _ Hrun). reflexivity.
    + apply get_commitment_after_fail. exact Hc'.
    + apply get_work_item_after_fail. exact Hwi'.
    + intros _. split; [unfold after; now rewrite Hrun|].
      repeat split; try discriminate.
      eexists. repeat split. exact Hcid.
    + intros Hle. lia.
  - eexists _, _, _. split; [|split; [|split; [|split]]].
    + apply (complete_commitment_on_time w commitment c wi Hc Hwi Hok).
    + apply get_commitment_after_completion. exact Hc.
    + apply get_work_item_after_completion. exact Hwi.
    + intros Hlt. lia.
    + intros _. repeat split.
Qed.

Lemma complete_commitment_spec_witness :
  exists w' c' wi',
    complete_commitment 1 committed_world = (Returned tt, w')
    /\ get_commitment w' 1 = Some c'
    /\ get_work_item w' 1 = Some wi'
    /\ cm_status c' = CommitmentStatus.COMPLETE
    /\ wi_state wi' = COMPLETE.
Proof.
  destruct (complete_commitment_spec committed_world 1
              {| cm_id := 1; cm_work_item_id := 1;
                 cm_committed_by_user_id := "user_123";
                 cm_owner_user_id := "user_123";
                 cm_due_at := 1000;
                 cm_status := CommitmentStatus.ACTIVE;
                 cm_created_at := 5;
                 cm_completed_at := None;
                 cm_failed_at := None |}
              (with_updated_at 4 (with_state COMMITTED
                 (with_updated_at 3 (with_state READY
                    (with_updated_at 1 (with_state NOT_READY sample_work_item))))))
              eq_refl eq_refl)
    as (w' & c' & wi' & Hrun & Hc & Hwi & _ & Hok).
  exists w', c', wi'.
  destruct Hok as (Hs & _ & _ & Hst & _); [simpl; lia|].
  auto.
Defined.

(** C5. [fail_commitment] returns for every commitment and appends
    exactly one learning signal, linked to the commitment and to its
    work item, carrying the given primary cause and the drilldown key of
    the cause, the work item's location and its reference system. A
    failure request whose body omits the primary cause is rejected by
    validation with the world as before. *)
Theorem fail_commitment_spec
    (w : World) (commitment : Z) (c : Commitment) (wi : WorkItem)
    (primary_cause : PrimaryCause.t) (secondary_cause notes : option string) :
  get_commitment w commitment = Some c ->
  get_work_item w (cm_work_item_id c) = Some wi ->
  (exists signal w',
      fail_commitment commitment primary_cause secondary_cause notes w
      = (Returned signal, w')
      /\ learning_signals w' = learning_signals w ++ [signal]
      /\ ls_commitment_id signal = commitment
      /\ ls_work_item_id signal = cm_work_item_id c
      /\ ls_primary_cause signal = primary_cause
      /\ ls_secondary_cause signal = secondary_cause
      /\ ls_notes signal = notes
      /\ ls_drilldown_key signal
         = _generate_drilldown_key (PrimaryCause.value primary_cause)
             (wi_location wi)
             (option_map ReferencePlanSystem.value (wi_reference_plan_system wi)))
  /\ (forall body : Routes.CommitmentFailBody,
        Routes.body_primary_cause body = None ->
        exists errors,
          Routes.fail_commitment commitment body w
          = (Raised (RequestValidationError errors), w)
          /\ In ("primary_cause", "value_error.missing") errors).
Proof.
  intros Hc Hwi.
  pose proof (find_key _ _ _ _ Hc) as [_ Hcid].
  pose proof (find_key _ _ _ _ Hwi) as [_ Hwid].
  split.
  - eexists _, _. split; [apply (fail_commitment_run w commitment c wi); assumption|].
    repeat split; assumption.
  - intros body Hnone.
    exists ([("primary_cause", "value_error.missing")] ++ Routes.check_notes body).
    split; [|now left].
    unfold Routes.fail_commitment, Routes.validate_CommitmentFail, Routes.check_primary_cause.
    rewrite Hnone. reflexivity.
Qed.

Lemma fail_commitment_spec_witness :
  (exists signal w',
      fail_commitment 1 PrimaryCause.WEATHER None None committed_world = (Returned signal, w')
      /\ learning_signals w' = [signal]
      /\ ls_drilldown_key signal = "Weather|Grid A1-A5|no_reference")
  /\ (exists errors,
        Routes.fail_commitment 1
          {| Routes.body_primary_cause := None;
             Routes.body_secondary_cause := None;
             Routes.body_notes := Some "late" |} committed_world
        = (Raised (RequestValidationError errors), committed_world)).
Proof.
  destruct (fail_commitment_spec committed_world 1
              {| cm_id := 1; cm_work_item_id := 1;
                 cm_committed_by_user_id := "user_123";
                 cm_owner_user_id := "user_123";
                 cm_due_at := 1000;
                 cm_status := CommitmentStatus.ACTIVE;
                 cm_created_at := 5;
                 cm_completed_at := None;
                 cm_failed_at := None |}
              (with_updated_at 4 (with_state COMMITTED
                 (with_updated_at 3 (with_state READY
                    (with_updated_at 1 (with_state NOT_READY sample_work_item))))))
              PrimaryCause.WEATHER None None eq_refl eq_refl)
    as [(signal & w' & Hrun & Hls & _ & _ & _ & _ & _ & Hkey) Hval].
  split.
  - exists signal, w'. auto.
  - destruct (Hval {| Routes.body_primary_cause := None;
                      Routes.body_secondary_cause := None;
                      Routes.body_notes := Some "late" |} eq_refl)
      as (errors & Herr & _).
    exists errors. exact Herr.
Defined.

End Termination.

(** *** What the constraint operations and [create_commitment] leave alone *)

Section Frozen.

Import StateMachine.

Lemma touches_frozen_kept (w w' : World) :
  touches_only_unfrozen w w' -> frozen_kept w w'.
Proof.
  intros [Heq | (id & wi & s & t & Hwi & Hfr & Heq)] id' wi' Hget Hfrozen.
  - exists wi'. unfold get_work_item in *. now rewrite Heq.
  - exists wi'. split; [|reflexivity].
    assert (id <> id') as Hne.
    { intros ->. rewrite Hget in Hwi. injection Hwi as ->. congruence. }
    unfold get_work_item in *. rewrite Heq.
    rewrite !find_update_rows_other by (assumption || reflexivity). exact Hget.
Qed.

Lemma touches_same_items (w0 w w' : World) :
  work_items w = work_items w0 ->
  touches_only_unfrozen w w' -> touches_only_unfrozen w0 w'.
Proof.
  intros H0 [Heq | (id & wi & s & t & Hwi & Hfr & Heq)].
  - left. congruence.
  - right. exists id, wi, s, t. unfold get_work_item in *.
    rewrite <- H0. auto.
Qed.

Lemma update_work_item_state_effect (work_item : Z) (w : World) :
  touches_only_unfrozen w (after (update_work_item_state work_item) w)
  /\ constraints (after (update_work_item_state work_item) w) = constraints w
  /\ commitments (after (update_work_item_state work_item) w) = commitments w.
Proof.
  unfold after, update_work_item_state. run_monad.
  destruct (get_work_item w work_item) as [wi|] eqn:Hwi; simpl.
  2:{ split; [now left | auto]. }
  destruct (frozen (wi_state wi)) eqn:Hfr; simpl.
  { split; [now left | auto]. }
  destruct (WorkItemState_eq_dec (wi_state wi) (calculate_readiness w work_item)); simpl.
  { split; [now left | auto]. }
  split; [|auto].
  right. exists work_item, wi. eexists _, _. repeat split; assumption.
Qed.

Lemma add_constraint_effect (work_item : Z) (type : string) (descr : option string) (w : World) :
  touches_only_unfrozen w (after (add_constraint work_item type descr) w)
  /\ commitments (after (add_constraint work_item type descr) w) = commitments w.
Proof.
  unfold add_constraint.
  destruct (get_work_item w work_item) as [wi|] eqn:Hwi.
  2:{ destruct (work_item_obj_none _ _ Hwi) as [e He].
      rewrite (after_bind_raised _ _ _ _ _ He). split; [now left | reflexivity]. }
  rewrite (after_bind_returned _ _ _ _ _ (work_item_obj_some _ _ _ Hwi)).
  destruct (add_constraint_row (wi_id wi) type descr OPEN w) as [o w1] eqn:Hrow.
  assert (work_items w1 = work_items w /\ commitments w1 = commitments w
          /\ exists row, o = Returned row) as (Hi & Hc & row & ->).
  { revert Hrow. unfold add_constraint_row. run_monad.
    intros H. injection H as <- <-. simpl. eauto. }
  rewrite (after_bind_returned _ _ _ _ _ Hrow).
  rewrite (after_bind_returned db_commit _ w1 w1 tt eq_refl).
  rewrite after_then_ret.
  pose proof (update_work_item_state_effect work_item w1) as (Ht & _ & Hc').
  split; [eapply touches_same_items; eauto | congruence].
Qed.

Lemma set_constraint_then_update_effect (constraint work_item : Z)
    (f : Constraint -> Constraint) (w : World) :
  touches_only_unfrozen w
    (after (set_constraint constraint f ;;; db_commit ;;; update_work_item_state work_item) w)
  /\ commitments
       (after (set_constraint constraint f ;;; db_commit ;;; update_work_item_state work_item) w)
     = commitments w.
Proof.
  destruct (set_constraint constraint f w) as [o w1] eqn:Hset.
  assert (work_items w1 = work_items w /\ commitments w1 = commitments w /\ o = Returned tt)
    as (Hi & Hc & ->).
  { revert Hset. run_monad. intros H. injection H as <- <-. auto. }
  rewrite (after_bind_returned _ _ _ _ _ Hset).
  rewrite (after_bind_returned db_commit _ w1 w1 tt eq_refl).
  pose proof (update_work_item_state_effect work_item w1) as (Ht & _ & Hc').
  split; [eapply touches_same_items; eauto | congruence].
Qed.

Lemma clear_constraint_effect (constraint : Z) (user : string) (w : World) :
  touches_only_unfrozen w (after (clear_constraint constraint user) w)
  /\ commitments (after (clear_constraint constraint user) w) = commitments w.
Proof.
  unfold clear_constraint.
  destruct (get_constraint w constraint) as [c|] eqn:Hc.
  2:{ destruct (constraint_obj_none _ _ Hc) as [e He].
      rewrite (after_bind_raised _ _ _ _ _ He). split; [now left | reflexivity]. }
  rewrite (after_bind_returned _ _ _ _ _ (constraint_obj_some _ _ _ Hc)).
  rewrite (after_bind_returned utcnow _ w (tick w) _ eq_refl).
  match goal with |- context [bind (set_constraint constraint ?f) _] =>
    pose proof (set_constraint_then_update_effect constraint (c_work_item_id c) f (tick w))
      as (Ht & Hcm) end.
  split; [eapply touches_same_items; [|exact Ht]; reflexivity | exact Hcm].
Qed.

Lemma reopen_constraint_effect (constraint : Z) (w : World) :
  touches_only_unfrozen w (after (reopen_constraint constraint) w)
  /\ commitments (after (reopen_constraint constraint) w) = commitments w.
Proof.
  unfold reopen_constraint.
  destruct (get_constraint w constraint) as [c|] eqn:Hc.
  2:{ destruct (constraint_obj_none _ _ Hc) as [e He].
      rewrite (after_bind_raised _ _ _ _ _ He). split; [now left | reflexivity]. }
  rewrite (after_bind_returned _ _ _ _ _ (constraint_obj_some _ _ _ Hc)).
  apply (set_constraint_then_update_effect constraint (c_work_item_id c) _ w).
Qed.

Lemma create_commitment_effect (work_item : Z) (by_user owner : string) (due : datetime)
    (w : World) :
  touches_only_unfrozen w (after (create_commitment work_item by_user owner due) w)
  /\ commitments_kept w (after (create_commitment work_item by_user owner due) w).
Proof.
  unfold after, create_commitment. run_monad.
  destruct (get_work_item w work_item) as [wi|] eqn:Hwi; simpl.
  2:{ split; [now left | intros ? ? H; exact H]. }
  destruct (find (is_active_for (wi_id wi)) (commitments w)); simpl.
  { split; [now left | intros ? ? H; exact H]. }
  destruct (WorkItemState_eq_dec (wi_state wi) READY) as [Hr|Hr]; simpl.
  - split.
    + right. exists work_item, wi. eexists _, _.
      split; [exact Hwi|]. split; [now rewrite Hr | reflexivity].
    + intros id c Hc. unfold get_commitment in *. simpl.
      now apply find_app_some.
  - destruct (work_item_constraints w work_item); simpl;
      (split; [now left | intros ? ? H; exact H]).
Qed.

Lemma reset_to_intent_effect (work_item : Z) (w : World) :
  commitments (after (reset_to_intent work_item) w) = commitments w.
Proof.
  unfold after, reset_to_intent. run_monad.
  destruct (get_work_item w work_item) as [wi|]; simpl; [|reflexivity].
  destruct (wi_state wi); reflexivity.
Qed.

Lemma commitments_kept_eq (w w' : World) :
  commitments w' = commitments w -> commitments_kept w w'.
Proof. intros H id c Hc. unfold get_commitment in *. now rewrite H. Qed.

End Frozen.

(** *** Ending a commitment *)

Section Endings.

Import StateMachine.

Lemma after_fail_commitment (w : World) (commitment : Z) (c : Commitment) (wi : WorkItem)
    (p : PrimaryCause.t) (s n : option string) :
  get_commitment w commitment = Some c ->
  get_work_item w (cm_work_item_id c) = Some wi ->
  get_commitment (after (fail_commitment commitment p s n) w) commitment
  = Some (with_failed_at (clock w (clock_reads w)) (with_status CommitmentStatus.FAILED c)).
Proof.
  intros Hc Hwi. unfold after.
  rewrite (fail_commitment_run w commitment c wi p s n Hc Hwi). simpl.
  now apply get_commitment_after_fail.
Qed.

Lemma after_complete_commitment (w : World) (commitment : Z) (c : Commitment) (wi : WorkItem) :
  get_commitment w commitment = Some c ->
  get_work_item w (cm_work_item_id c) = Some wi ->
  get_commitment (after (complete_commitment commitment) w) commitment
  = Some (if Z.ltb (cm_due_at c) (clock w (clock_reads w))
          then with_failed_at (clock w (S (clock_reads w)))
                 (with_status CommitmentStatus.FAILED c)
          else with_completed_at (clock w (clock_reads w))
                 (with_status CommitmentStatus.COMPLETE c)).
Proof.
  intros Hc Hwi.
  destruct (Z.ltb (cm_due_at c) (clock w (clock_reads w))) eqn:E.
  - apply Z.ltb_lt in E. unfold after.
    rewrite (complete_commitment_late w commitment c Hc E).
    change (snd ((fail_commitment commitment PrimaryCause.OTHER None
                    (Some "Auto-failed: Completed after due date") ;;; ret tt) (tick w)))
      with (after (fail_commitment commitment PrimaryCause.OTHER None
                     (Some "Auto-failed: Completed after due date") ;;; ret tt) (tick w)).
    rewrite after_then_ret.
    apply (after_fail_commitment (tick w) commitment c wi); assumption.
  - apply Z.ltb_ge in E. unfold after.
    rewrite (complete_commitment_on_time w commitment c wi Hc Hwi E). simpl.
    now apply get_commitment_after_completion.
Qed.

Lemma Forall_update_twice {A} (P : A -> Prop) (key : A -> Z) (id : Z) (f g : A -> A)
    (rows : list A) :
  (forall r, key (f r) = key r) ->
  (forall r, P (g (f r))) ->
  Forall P rows ->
  Forall P (update_rows key id g (update_rows key id f rows)).
Proof.
  intros Hk Hgf. induction 1 as [|r rows Hr _ IH]; simpl; [constructor|].
  constructor; [|exact IH].
  destruct (Z.eqb (key r) id) eqn:E.
  - rewrite Hk, E. apply Hgf.
  - rewrite E. exact Hr.
Qed.

Lemma fail_commitment_commitments (w : World) (commitment : Z) (p : PrimaryCause.t)
    (s n : option string) :
  commitments (after (fail_commitment commitment p s n) w) = commitments w
  \/ commitments (after (fail_commitment commitment p s n) w)
     = update_rows cm_id commitment (with_failed_at (clock w (clock_reads w)))
         (update_rows cm_id commitment (with_status CommitmentStatus.FAILED) (commitments w)).
Proof.
  unfold fail_commitment.
  destruct (get_commitment w commitment) as [c|] eqn:Hc.
  2:{ destruct (commitment_obj_none _ _ Hc) as [e He].
      rewrite (after_bind_raised _ _ _ _ _ He). now left. }
  rewrite (after_bind_returned _ _ _ _ _ (commitment_obj_some _ _ _ Hc)).
  right.
  destruct (get_work_item w (cm_work_item_id c)) as [wi|] eqn:Hwi.
  - unfold after. run_monad. unfold get_work_item in *. simpl. rewrite Hwi. reflexivity.
  - unfold after. run_monad. unfold get_work_item in *. simpl. rewrite Hwi. reflexivity.
Qed.

Lemma complete_commitment_commitments (w : World) (commitment : Z) :
  commitments (after (complete_commitment commitment) w) = commitments w
  \/ (exists t,
        commitments (after (complete_commitment commitment) w)
        = update_rows cm_id commitment (with_failed_at t)
            (update_rows cm_id commitment (with_status CommitmentStatus.FAILED) (commitments w)))
  \/ commitments (after (complete_commitment commitment) w)
     = update_rows cm_id commitment (with_completed_at (clock w (clock_reads w)))
         (update_rows cm_id commitment (with_status CommitmentStatus.COMPLETE) (commitments w)).
Proof.
  destruct (get_commitment w commitment) as [c|] eqn:Hc.
  2:{ unfold complete_commitment. destruct (commitment_obj_none _ _ Hc) as [e He].
      rewrite (after_bind_raised _ _ _ _ _ He). now left. }
  destruct (Z.ltb (cm_due_at c) (clock w (clock_reads w))) eqn:E.
  - apply Z.ltb_lt in E. unfold after at 1 2.
    rewrite (complete_commitment_late w commitment c Hc E).
    change (snd ((fail_commitment commitment PrimaryCause.OTHER None
                    (Some "Auto-failed: Completed after due date") ;;; ret tt) (tick w)))
      with (after (fail_commitment commitment PrimaryCause.OTHER None
                     (Some "Auto-failed: Completed after due date") ;;; ret tt) (tick w)).
    rewrite after_then_ret.
    destruct (fail_commitment_commitments (tick w) commitment PrimaryCause.OTHER None
                (Some "Auto-failed: Completed after due date")) as [H | H].
    + left. exact H.
    + right. left. eexists. exact H.
  - right. right. unfold complete_commitment.
    rewrite (after_bind_returned _ _ _ _ _ (commitment_obj_some _ _ _ Hc)).
    destruct (get_work_item w (cm_work_item_id c)) as [wi|] eqn:Hwi.
    + unfold after. run_monad. rewrite E. simpl.
      unfold get_work_item in *. simpl. rewrite Hwi. reflexivity.
    + unfold after. run_monad. rewrite E. simpl.
      unfold get_work_item in *. simpl. rewrite Hwi. reflexivity.
Qed.

Lemma create_commitment_commitments (work_item : Z) (by_user owner : string) (due : datetime)
    (w : World) :
  commitments (after (create_commitment work_item by_user owner due) w) = commitments w
  \/ exists row,
       commitments (after (create_commitment work_item by_user owner due) w)
       = commitments w ++ [row]
       /\ cm_completed_at row = None /\ cm_failed_at row = None.
Proof.
  unfold after, create_commitment. run_monad.
  destruct (get_work_item w work_item) as [wi|]; simpl; [|now left].
  destruct (find (is_active_for (wi_id wi)) (commitments w)); simpl; [now left|].
  destruct (WorkItemState_eq_dec (wi_state wi) READY); simpl.
  - right. eexists. split; [reflexivity | split; reflexivity].
  - destruct (work_item_constraints w work_item); now left.
Qed.

Lemma active_unstamped_kept (w : World) (op : Op) :
  active_unstamped w -> active_unstamped (after (run op) w).
Proof.
  unfold active_unstamped. intros Hinv.
  destruct op as [wid t d | cid u | cid | wid u o d | cid | cid p s n | wid];
    simpl run; rewrite ?after_then_ret.
  - destruct (add_constraint_effect wid t d w) as [_ ->]. exact Hinv.
  - destruct (clear_constraint_effect cid u w) as [_ ->]. exact Hinv.
  - destruct (reopen_constraint_effect cid w) as [_ ->]. exact Hinv.
  - destruct (create_commitment_commitments wid u o d w) as [-> | (row & -> & Hc & Hf)];
      [exact Hinv|].
    apply Forall_app. split; [exact Hinv|].
    constructor; [|constructor]. intros _. now split.
  - destruct (complete_commitment_commitments w cid) as [-> | [[t ->] | ->]];
      [exact Hinv | |];
      (apply Forall_update_twice; [reflexivity | intros r Hr; discriminate Hr | exact Hinv]).
  - destruct (fail_commitment_commitments w cid p s n) as [-> | ->]; [exact Hinv|].
    apply Forall_update_twice; [reflexivity | intros r Hr; discriminate Hr | exact Hinv].
  - rewrite reset_to_intent_effect. exact Hinv.
Qed.

(** C7, as the code has it. That no Active commitment carries a
    completed-at or a failed-at is kept by every operation. In a world
    where it holds, ending an Active commitment by [complete_commitment]
    or by [fail_commitment] leaves it not Active with exactly one of
    completed-at and failed-at set. Every operation other than these two
    leaves each existing commitment as it was, and every operation other
    than these two and [reset_to_intent] leaves each Committed, Complete
    or Failed work item in its state. *)
Theorem commitment_endings
    (w : World) (commitment : Z) (c : Commitment) (wi : WorkItem) :
  active_unstamped w ->
  get_commitment w commitment = Some c ->
  get_work_item w (cm_work_item_id c) = Some wi ->
  cm_status c = CommitmentStatus.ACTIVE ->
  (forall op, active_unstamped (after (run op) w))
  /\ (forall op,
      op = CompleteCommitment commitment
      \/ (exists p s n, op = FailCommitment commitment p s n) ->
      exists c',
        get_commitment (after (run op) w) commitment = Some c'
        /\ cm_status c' <> CommitmentStatus.ACTIVE
        /\ exactly_one_stamp c')
  /\ (forall (w0 : World) (op : Op),
        ends_commitment op = false ->
        commitments_kept w0 (after (run op) w0)
        /\ (is_reset op = false -> frozen_kept w0 (after (run op) w0))).
Proof.
  intros Hinv Hc Hwi Hact.
  assert (cm_completed_at c = None /\ cm_failed_at c = None) as [Hcompl Hfail].
  { unfold active_unstamped in Hinv. rewrite Forall_forall in Hinv.
    apply (Hinv c); [|exact Hact]. now apply (find_key cm_id commitment). }
  split; [intros op; now apply active_unstamped_kept|]. split.
  - intros op [-> | (p & s & n & ->)]; simpl run.
    + rewrite (after_complete_commitment w commitment c wi Hc Hwi).
      eexists. split; [reflexivity|].
      destruct (Z.ltb (cm_due_at c) (clock w (clock_reads w))); simpl.
      * split; [discriminate|]. right. split; [exact Hcompl | discriminate].
      * split; [discriminate|]. left. split; [discriminate | exact Hfail].
    + rewrite after_then_ret.
      rewrite (after_fail_commitment w commitment c wi p s n Hc Hwi).
      eexists. split; [reflexivity|]. simpl.
      split; [discriminate|]. right. split; [exact Hcompl | discriminate].
  - intros w0 [wid t d | cid u | cid | wid u o d | cid | cid p s n | wid] Hend;
      try discriminate Hend; simpl run; rewrite ?after_then_ret.
    + destruct (add_constraint_effect wid t d w0) as [Ht Hcm].
      split; [now apply commitments_kept_eq | intros _; now apply touches_frozen_kept].
    + destruct (clear_constraint_effect cid u w0) as [Ht Hcm].
      split; [now apply commitments_kept_eq | intros _; now apply touches_frozen_kept].
    + destruct (reopen_constraint_effect cid w0) as [Ht Hcm].
      split; [now apply commitments_kept_eq | intros _; now apply touches_frozen_kept].
    + destruct (create_commitment_effect wid u o d w0) as [Ht Hcm].
      split; [exact Hcm | intros _; now apply touches_frozen_kept].
    + split; [apply commitments_kept_eq, reset_to_intent_effect | discriminate].
Qed.

Lemma commitment_endings_witness :
  exists c',
    get_commitment (after (run (FailCommitment 1 PrimaryCause.WEATHER None None))
                      committed_world) 1 = Some c'
    /\ cm_status c' <> CommitmentStatus.ACTIVE
    /\ exactly_one_stamp c'.
Proof.
  destruct (commitment_endings committed_world 1
              {| cm_id := 1; cm_work_item_id := 1;
                 cm_committed_by_user_id := "user_123";
                 cm_owner_user_id := "user_123";
                 cm_due_at := 1000;
                 cm_status := CommitmentStatus.ACTIVE;
                 cm_created_at := 5;
                 cm_completed_at := None;
                 cm_failed_at := None |}
              (with_updated_at 4 (with_state COMMITTED
                 (with_updated_at 3 (with_state READY
                    (with_updated_at 1 (with_state NOT_READY sample_work_item))))))
              ltac:(repeat constructor; intros _; split; reflexivity)
              eq_refl eq_refl eq_refl) as (_ & Hend & _).
  apply Hend. right. eauto.
Defined.

(** C7, as stated, fails: [fail_commitment] on the commitment of
    [completed_world], which is Complete with completed-at set, returns
    and leaves, in [failed_after_complete], the commitment Failed with
    both timestamps set and its work item moved from Complete to Failed;
    [complete_commitment] on the result moves both back to Complete. *)
Lemma fail_commitment_overwrites_complete :
  (option_map cm_status (get_commitment completed_world 1) = Some CommitmentStatus.COMPLETE
   /\ option_map cm_completed_at (get_commitment completed_world 1) = Some (Some 6)
   /\ option_map cm_failed_at (get_commitment completed_world 1) = Some None
   /\ option_map wi_state (get_work_item completed_world 1) = Some COMPLETE)
  /\ (exists signal,
        outcome (fail_commitment 1 PrimaryCause.WEATHER None None) completed_world
        = Returned signal)
  /\ (option_map cm_status (get_commitment failed_after_complete 1)
      = Some CommitmentStatus.FAILED
      /\ option_map cm_completed_at (get_commitment failed_after_complete 1) = Some (Some 6)
      /\ option_map cm_failed_at (get_commitment failed_after_complete 1) = Some (Some 7)
      /\ option_map wi_state (get_work_item failed_after_complete 1) = Some FAILED)
  /\ (option_map cm_status
        (get_commitment (after (complete_commitment 1) failed_after_complete) 1)
      = Some CommitmentStatus.COMPLETE
      /\ option_map wi_state
           (get_work_item (after (complete_commitment 1) failed_after_complete) 1)
         = Some COMPLETE).
Proof.
  split; [|split; [|split]].
  - repeat split; vm_compute; reflexivity.
  - eexists. vm_compute. reflexivity.
  - repeat split; vm_compute; reflexivity.
  - repeat split; vm_compute; reflexivity.
Qed.

End Endings.

(** *** The audit table *)

Section Audit.

Import StateMachine.

Lemma silent_ret {A} (a : A) : audit_silent (ret a).
Proof. intros w. reflexivity. Qed.

Lemma silent_raise {A} (e : Exc) : audit_silent (@raise A e).
Proof. intros w. reflexivity. Qed.

Lemma silent_gets {A} (f : World -> A) : audit_silent (gets f).
Proof. intros w. reflexivity. Qed.

Lemma silent_utcnow : audit_silent utcnow.
Proof. intros w. reflexivity. Qed.

Lemma silent_db_commit : audit_silent db_commit.
Proof. intros w. reflexivity. Qed.

Lemma silent_set_work_item id f : audit_silent (set_work_item id f).
Proof. intros w. reflexivity. Qed.

Lemma silent_set_constraint id f : audit_silent (set_constraint id f).
Proof. intros w. reflexivity. Qed.

Lemma silent_set_commitment id f : audit_silent (set_commitment id f).
Proof. intros w. reflexivity. Qed.

Lemma silent_bind {A B} (m : M A) (k : A -> M B) :
  audit_silent m -> (forall a, audit_silent (k a)) -> audit_silent (bind m k).
Proof.
  intros Hm Hk w. unfold bind. specialize (Hm w).
  destruct (m w) as [[a|e] w1]; simpl in *; [|exact Hm].
  rewrite (Hk a w1). exact Hm.
Qed.

Lemma silent_deref {A} (what : string) (o : option A) : audit_silent (deref what o).
Proof. destruct o; [apply silent_ret | apply silent_raise]. Qed.

Ltac silent :=
  repeat first
    [ solve [auto] | apply silent_ret | apply silent_raise | apply silent_gets | apply silent_utcnow
    | apply silent_db_commit | apply silent_set_work_item | apply silent_set_constraint
    | apply silent_set_commitment | apply silent_deref
    | apply silent_bind; [|intros ?]
    | match goal with
      | |- audit_silent (match ?x with _ => _ end) => destruct x
      end ].

Lemma silent_work_item_obj id : audit_silent (work_item_obj id).
Proof. unfold work_item_obj. silent. Qed.

Lemma silent_constraint_obj id : audit_silent (constraint_obj id).
Proof. unfold constraint_obj. silent. Qed.

Lemma silent_commitment_obj id : audit_silent (commitment_obj id).
Proof. unfold commitment_obj. silent. Qed.

Lemma silent_add_constraint_row wid t d s : audit_silent (add_constraint_row wid t d s).
Proof. unfold add_constraint_row. silent; try (intros w; reflexivity). Qed.

Lemma silent_add_commitment_row wid u o d s : audit_silent (add_commitment_row wid u o d s).
Proof. unfold add_commitment_row. silent; try (intros w; reflexivity). Qed.

Lemma silent_add_learning_signal_row wid cid p s n k :
  audit_silent (add_learning_signal_row wid cid p s n k).
Proof. unfold add_learning_signal_row. silent; try (intros w; reflexivity). Qed.

Lemma silent_update_work_item_state id : audit_silent (update_work_item_state id).
Proof. unfold update_work_item_state. pose proof silent_work_item_obj. silent. Qed.

Lemma silent_add_constraint wid t d : audit_silent (add_constraint wid t d).
Proof.
  unfold add_constraint.
  pose proof silent_work_item_obj. pose proof silent_add_constraint_row.
  pose proof silent_update_work_item_state. silent.
Qed.

Lemma silent_clear_constraint cid u : audit_silent (clear_constraint cid u).
Proof.
  unfold clear_constraint.
  pose proof silent_constraint_obj. pose proof silent_update_work_item_state. silent.
Qed.

Lemma silent_reopen_constraint cid : audit_silent (reopen_constraint cid).
Proof.
  unfold reopen_constraint.
  pose proof silent_constraint_obj. pose proof silent_update_work_item_state. silent.
Qed.

Lemma silent_create_commitment wid u o d : audit_silent (create_commitment wid u o d).
Proof.
  unfold create_commitment.
  pose proof silent_work_item_obj. pose proof silent_add_commitment_row. silent.
Qed.

Lemma silent_fail_commitment cid p s n : audit_silent (fail_commitment cid p s n).
Proof.
  unfold fail_commitment.
  pose proof silent_work_item_obj. pose proof silent_commitment_obj.
  pose proof silent_add_learning_signal_row. silent.
Qed.

Lemma silent_complete_commitment cid : audit_silent (complete_commitment cid).
Proof.
  unfold complete_commitment.
  pose proof silent_work_item_obj. pose proof silent_commitment_obj.
  pose proof silent_fail_commitment. silent.
Qed.

Lemma silent_reset_to_intent wid : audit_silent (reset_to_intent wid).
Proof. unfold reset_to_intent. pose proof silent_work_item_obj. silent. Qed.

(** C2, as the code has it. No operation of the state machine writes to
    the audit table, on any path. In particular the refused commitment
    attempt on the fresh work item, which has no constraints, raises the
    refusal and leaves the audit table empty: there is no
    commitment_refused_not_ready event. *)
Theorem no_operation_writes_an_audit_event :
  (forall (op : Op) (w : World), audit_events (after (run op) w) = audit_events w)
  /\ outcome (create_commitment 1 "user_123" "user_123" 1000) fresh_world
     = Raised (RefusalError msg_no_constraints [])
  /\ audit_events (after (create_commitment 1 "user_123" "user_123" 1000) fresh_world) = []
  /\ audit_events (after (add_constraint 1 "Materials" (Some "Concrete ready")) fresh_world)
     = [].
Proof.
  split; [|repeat split].
  intros op w. unfold after.
  assert (audit_silent (run op)) as H; [|apply H].
  pose proof silent_add_constraint. pose proof silent_clear_constraint.
  pose proof silent_reopen_constraint. pose proof silent_create_commitment.
  pose proof silent_complete_commitment. pose proof silent_fail_commitment.
  pose proof silent_reset_to_intent.
  destruct op; simpl; silent.
Qed.

(** C6, as the code has it. Class [StateMachine] defines no method
    [attempt_modify_commitment]: looking the name up on an instance
    raises [AttributeError], where the test expects a [ValueError] that
    says IMMUTABILITY VIOLATION. *)
Theorem attempt_modify_commitment_is_missing :
  StateMachine_getattr "attempt_modify_commitment"
  = Raised (AttributeError
              "'StateMachine' object has no attribute 'attempt_modify_commitment'")
  /\ ~ In "attempt_modify_commitment" StateMachine_methods.
Proof.
  split; [reflexivity|].
  simpl. intros H.
  repeat (destruct H as [H|H]; [discriminate H|]). exact H.
Qed.

End Audit.

(** *** The drilldown key and its parsing *)

Section DrilldownKey.

Import StateMachine Routes.

Variable sep : ascii.

Lemma split_not_nil (s : string) : split sep s <> [].
Proof.
  destruct s as [|ch s]; simpl; [discriminate|].
  destruct (Ascii.eqb ch sep); [discriminate|].
  destruct (split sep s); discriminate.
Qed.

Lemma split_parts_free (s : string) :
  Forall (fun p => has_char sep p = false) (split sep s).
Proof.
  induction s as [|ch s IH]; simpl.
  - repeat constructor.
  - destruct (Ascii.eqb ch sep) eqn:E.
    + constructor; [reflexivity | exact IH].
    + destruct (split sep s) as [|p ps].
      * constructor; [simpl; now rewrite E | constructor].
      * inversion IH as [|? ? Hp Hps]; subst.
        constructor; [simpl; now rewrite E, Hp | exact Hps].
Qed.

Lemma split_free (s : string) : has_char sep s = false -> split sep s = [s].
Proof.
  induction s as [|ch s IH]; simpl; [reflexivity|].
  intros H. apply orb_false_iff in H. destruct H as [E Hs].
  rewrite E, (IH Hs). reflexivity.
Qed.

Lemma split_app (a b : string) :
  split sep (a +:+ String sep b) = split sep a ++ split sep b.
Proof.
  induction a as [|ch a IH]; simpl.
  - now rewrite Ascii.eqb_refl.
  - destruct (Ascii.eqb ch sep); [now rewrite IH|].
    rewrite IH. pose proof (split_not_nil a) as Hn.
    destruct (split sep a) as [|p ps]; [contradiction | reflexivity].
Qed.

Lemma split_concat (parts : list string) :
  parts <> [] ->
  Forall (fun p => has_char sep p = false) parts ->
  split sep (String.concat (String sep "") parts) = parts.
Proof.
  induction parts as [|x parts IH]; [contradiction|].
  intros _ Hall. inversion Hall as [|? ? Hx Hrest]; subst.
  destruct parts as [|y parts].
  - simpl. now apply split_free.
  - change (String.concat (String sep "") (x :: y :: parts))
      with (x +:+ String sep (String.concat (String sep "") (y :: parts))).
    rewrite split_app, (split_free x Hx), IH; [reflexivity | discriminate | exact Hrest].
Qed.

Lemma split_three (a b c : string) :
  exists p0 p1 p2 rest,
    split sep (String.concat (String sep "") [a; b; c]) = p0 :: p1 :: p2 :: rest.
Proof.
  change (String.concat (String sep "") [a; b; c])
    with (a +:+ String sep (b +:+ String sep c)).
  rewrite !split_app.
  pose proof (split_not_nil a). pose proof (split_not_nil b). pose proof (split_not_nil c).
  destruct (split sep a) as [|a0 [|a1 [|a2 ar]]]; [contradiction| | |];
    destruct (split sep b) as [|b0 [|b1 br]]; try contradiction;
      destruct (split sep c) as [|c0 cr]; try contradiction;
        simpl; eauto.
Qed.

End DrilldownKey.

Section DrilldownRoundTrip.

Import StateMachine Routes.

Lemma Forall_prefix {A} (P : A -> Prop) (n : nat) (l : list A) :
  Forall P l -> Forall P (firstn n l).
Proof.
  intros H. revert n. induction H as [|x l Hx _ IH]; intros [|n]; simpl;
    constructor; auto.
Qed.

Lemma shown_free (sentinel p : string) :
  has_char "|" p = false -> has_char "|" (shown sentinel p) = false.
Proof. intros H. unfold shown. destruct (String.eqb p sentinel); [reflexivity | exact H]. Qed.

Lemma shown_free_inv (sentinel p : string) :
  has_char "|" sentinel = false ->
  has_char "|" (shown sentinel p) = false -> has_char "|" p = false.
Proof.
  intros Hs H. unfold shown in H. destruct (String.eqb p sentinel) eqn:E; [|exact H].
  apply String.eqb_eq in E. now subst.
Qed.

Lemma drilldown_item_of_key (c : string) (l r : option string) (count : Z)
    (latest : datetime) (w : World) :
  exists p0 p1 p2 rest,
    split "|" (_generate_drilldown_key c l r) = p0 :: p1 :: p2 :: rest
    /\ drilldown_item {| row_key := _generate_drilldown_key c l r;
                         row_count := count; row_latest := latest |} w
       = (Returned {| item_primary_cause := p0;
                      item_location := shown "no_location" p1;
                      item_reference_system := shown "no_reference" p2;
                      item_count := count;
                      item_latest_occurrence := latest |}, w).
Proof.
  destruct (split_three "|" c (str_or l "no_location") (str_or r "no_reference"))
    as (p0 & p1 & p2 & rest & Hsplit).
  exists p0, p1, p2, rest. split; [exact Hsplit|].
  unfold drilldown_item, _generate_drilldown_key. cbn [row_key row_count row_latest].
  rewrite Hsplit. reflexivity.
Qed.

Lemma str_or_apart (placeholder : string) (component : option string) :
  apart_from placeholder component ->
  shown placeholder (str_or component placeholder) = original component.
Proof.
  intros [Hempty Hp]. destruct component as [s|]; simpl.
  - destruct s as [|ch s]; [congruence|]. unfold shown.
    destruct (String.eqb (String ch s) placeholder) eqn:E; [|reflexivity].
    apply String.eqb_eq in E. congruence.
  - unfold shown. now rewrite String.eqb_refl.
Qed.

Lemma str_or_free (placeholder : string) (component : option string) :
  has_char "|" placeholder = false ->
  has_delimiter component = false ->
  has_char "|" (str_or component placeholder) = false.
Proof.
  intros Hp Hc. destruct component as [[|ch s]|]; simpl in *; assumption.
Qed.

Lemma original_with_delimiter (component : option string) (p : string) :
  has_delimiter component = true -> has_char "|" p = false -> p <> original component.
Proof.
  intros Hc Hp ->. destruct component as [s|]; simpl in *; congruence.
Qed.

(** C10, as the code has it. The key is the three parts joined by "|",
    and the join is not injective: two different inputs have the same
    key. The drilldown read never fails on a generated key. When the
    primary cause, the location or the reference system contains "|",
    what the read reports is not the components the key was generated
    from. When none contains "|", the read reports the components (an
    absent location or reference system as Not specified) provided that
    a location or reference system that is present is neither empty nor
    the placeholder, no_location or no_reference; an empty one and one
    that reads as the placeholder are reported as Not specified
    instead. *)
Theorem drilldown_key_round_trip :
  (forall c l r,
      _generate_drilldown_key c l r
      = c +:+ "|" +:+ str_or l "no_location" +:+ "|" +:+ str_or r "no_reference")
  /\ (_generate_drilldown_key "Weather" (Some "a|b") (Some "c")
      = _generate_drilldown_key "Weather" (Some "a") (Some "b|c"))
  /\ (forall c l r count latest w,
        exists item,
          drilldown_item {| row_key := _generate_drilldown_key c l r;
                            row_count := count; row_latest := latest |} w
          = (Returned item, w)
          /\ (has_char "|" c = true \/ has_delimiter l = true \/ has_delimiter r = true ->
              reported item <> original_components c l r)
          /\ (has_char "|" c = false -> has_delimiter l = false -> has_delimiter r = false ->
              (apart_from "no_location" l -> apart_from "no_reference" r ->
               reported item = original_components c l r)
              /\ (l = Some "" \/ l = Some "no_location" ->
                  item_location item = "Not specified")
              /\ (r = Some "" \/ r = Some "no_reference" ->
                  item_reference_system item = "Not specified"))).
Proof.
  split; [|split].
  - intros c l r. reflexivity.
  - reflexivity.
  - intros c l r count latest w.
    destruct (drilldown_item_of_key c l r count latest w)
      as (p0 & p1 & p2 & rest & Hsplit & Hrun).
    eexists. split; [exact Hrun|]. unfold reported, original_components. simpl.
    pose proof (split_parts_free "|" (_generate_drilldown_key c l r)) as Hfree.
    rewrite Hsplit in Hfree.
    inversion Hfree as [|? ? H0 Hf1]; subst. inversion Hf1 as [|? ? H1 Hf2]; subst.
    inversion Hf2 as [|? ? H2 _]; subst.
    split.
    + intros Hsome Heq. injection Heq as Hc Hl Hr.
      destruct Hsome as [Hd | [Hd | Hd]].
      * congruence.
      * revert Hl. apply original_with_delimiter; [exact Hd | now apply shown_free].
      * revert Hr. apply original_with_delimiter; [exact Hd | now apply shown_free].
    + intros Hc Hl Hr.
      assert (Forall (fun p => has_char "|" p = false) (key_parts c l r)) as Hall.
      { repeat constructor; [exact Hc | |]; now apply str_or_free. }
      pose proof (split_concat "|" (key_parts c l r) ltac:(discriminate) Hall) as Hparts.
      unfold key_parts in Hparts.
      change (String.concat "|" [c; str_or l "no_location"; str_or r "no_reference"])
        with (_generate_drilldown_key c l r) in Hparts.
      rewrite Hsplit in Hparts. injection Hparts as -> -> -> _.
      split; [|split].
      * intros Hal Har. now rewrite (str_or_apart _ l Hal), (str_or_apart _ r Har).
      * intros [-> | ->]; reflexivity.
      * intros [-> | ->]; reflexivity.
Qed.

Lemma drilldown_key_round_trip_witness :
  exists item,
    drilldown_item {| row_key := _generate_drilldown_key "Weather" (Some "Grid A1-A5") None;
                      row_count := 2; row_latest := 7 |} fresh_world
    = (Returned item, fresh_world)
    /\ reported item = ("Weather", "Grid A1-A5", "Not specified").
Proof.
  destruct drilldown_key_round_trip as (_ & _ & Hread).
  destruct (Hread "Weather" (Some "Grid A1-A5") None 2 7 fresh_world)
    as (item & Hrun & _ & Hfree).
  exists item. split; [exact Hrun|].
  destruct (Hfree eq_refl eq_refl eq_refl) as (Hrec & _).
  apply Hrec; split; discriminate.
Defined.

(** C10, as stated, fails: the location no_location contains no "|" but
    is reported as Not specified, and so is an empty location; the round
    trip does not hold for these inputs without the delimiter. *)
Lemma placeholder_location_is_not_recovered :
  has_char "|" "Weather" = false
  /\ has_delimiter (Some "no_location") = false
  /\ has_delimiter None = false
  /\ (exists item,
        drilldown_item
          {| row_key := _generate_drilldown_key "Weather" (Some "no_location") None;
             row_count := 1; row_latest := 0 |} fresh_world
        = (Returned item, fresh_world)
        /\ item_location item = "Not specified"
        /\ reported item <> original_components "Weather" (Some "no_location") None)
  /\ (exists item,
        drilldown_item
          {| row_key := _generate_drilldown_key "Weather" (Some "") None;
             row_count := 1; row_latest := 0 |} fresh_world
        = (Returned item, fresh_world)
        /\ item_location item = "Not specified"
        /\ reported item <> original_components "Weather" (Some "") None).
Proof.
  repeat split; try reflexivity.
  - eexists. split; [reflexivity|]. split; [reflexivity | discriminate].
  - eexists. split; [reflexivity|]. split; [reflexivity | discriminate].
Qed.

End DrilldownRoundTrip.

(** *** The drilldown read *)

Section Drilldown.

Import StateMachine Routes.

Lemma fold_max_spec (ts : list Z) (t : Z) :
  (fold_left Z.max ts t = t \/ In (fold_left Z.max ts t) ts)
  /\ t <= fold_left Z.max ts t
  /\ (forall x, In x ts -> x <= fold_left Z.max ts t).
Proof.
  revert t. induction ts as [|u ts IH]; intros t; simpl.
  - split; [now left|]. split; [lia | intros x []].
  - destruct (IH (Z.max t u)) as (Hin & Hle & Hall).
    split; [|split].
    + destruct Hin as [Heq | Hin]; [|right; now right].
      rewrite Heq. destruct (Z.max_spec t u) as [[_ ->] | [_ ->]]; [right; now left | now left].
    + lia.
    + intros x [<- | Hx]; [lia | now apply Hall].
Qed.

Lemma in_group_of (signals : list LearningSignal) (key : string) (s : LearningSignal) :
  In s (group_of signals key) <-> In s signals /\ ls_drilldown_key s = key.
Proof.
  unfold group_of. rewrite filter_In. split; intros [Hin Hk]; split; trivial.
  - now apply String.eqb_eq.
  - now apply String.eqb_eq.
Qed.

Lemma max_created_at_spec (group : list LearningSignal) :
  group <> [] ->
  (exists s, In s group /\ ls_created_at s = max_created_at group)
  /\ (forall s, In s group -> ls_created_at s <= max_created_at group).
Proof.
  destruct group as [|s0 group]; [contradiction|]. intros _.
  unfold max_created_at. simpl map.
  destruct (fold_max_spec (map ls_created_at group) (ls_created_at s0)) as (Hin & Hle & Hall).
  split.
  - destruct Hin as [Heq | Hin].
    + exists s0. split; [now left | now rewrite Heq].
    + apply in_map_iff in Hin. destruct Hin as (s & Hs & Hin).
      exists s. split; [now right | exact Hs].
  - intros s [<- | Hs]; [exact Hle|]. apply Hall. now apply in_map.
Qed.

Lemma keys_of_groups (signals : list LearningSignal) :
  map row_key (group_by_key signals) = nodup string_dec (map ls_drilldown_key signals).
Proof.
  unfold group_by_key. rewrite map_map. simpl. apply map_id.
Qed.

Lemma insert_by_count_perm (r : DrilldownRow) (l : list DrilldownRow) :
  Permutation (insert_by_count r l) (r :: l).
Proof.
  induction l as [|x l IH]; simpl; [reflexivity|].
  destruct (Z.leb (row_count x) (row_count r)); [reflexivity|].
  rewrite IH. apply perm_swap.
Qed.

Lemma insert_by_count_sorted (r : DrilldownRow) (l : list DrilldownRow) :
  StronglySorted count_desc l -> StronglySorted count_desc (insert_by_count r l).
Proof.
  induction 1 as [|x l Hs IH Hx]; simpl.
  - repeat constructor.
  - destruct (Z.leb (row_count x) (row_count r)) eqn:E.
    + apply Z.leb_le in E. constructor; [constructor; assumption|].
      constructor; [exact E|].
      eapply Forall_impl; [|exact Hx]. unfold count_desc. intros y Hy. lia.
    + apply Z.leb_gt in E. constructor; [exact IH|].
      eapply Permutation_Forall; [symmetry; apply insert_by_count_perm|].
      constructor; [unfold count_desc; lia | exact Hx].
Qed.

Lemma order_by_count_desc_result (rows : list DrilldownRow) :
  Permutation (order_by_count_desc rows) rows
  /\ StronglySorted count_desc (order_by_count_desc rows).
Proof.
  induction rows as [|r rows [IHp IHs]]; simpl.
  - split; constructor.
  - split.
    + rewrite insert_by_count_perm. now constructor.
    + now apply insert_by_count_sorted.
Qed.

Lemma drilldown_items_fields (rows : list DrilldownRow) (w w' : World)
    (items : list DrilldownItem) :
  drilldown_items rows w = (Returned items, w') ->
  map item_count items = map row_count rows
  /\ map item_latest_occurrence items = map row_latest rows.
Proof.
  revert items w'. induction rows as [|row rows IH]; intros items w'; simpl.
  - intros H. injection H as <- _. now split.
  - unfold bind at 1. unfold drilldown_item.
    unfold bind at 1. unfold subscript at 1.
    destruct (nth_error (split "|" (row_key row)) 0) as [p0|]; [|discriminate].
    unfold ret at 1, bind at 1, subscript at 1.
    destruct (nth_error (split "|" (row_key row)) 1) as [p1|]; [|discriminate].
    unfold ret at 1, bind at 1, subscript at 1.
    destruct (nth_error (split "|" (row_key row)) 2) as [p2|]; [|discriminate].
    unfold ret at 1, ret at 1. unfold bind at 1.
    destruct (drilldown_items rows w) as [[items'|e] w1] eqn:Hrest; [|discriminate].
    intros H. injection H as <- _.
    destruct (IH items' w1 eq_refl) as [Hc Hl]. simpl. now rewrite Hc, Hl.
Qed.

Lemma drilldown_items_returns (rows : list DrilldownRow) (w : World) :
  (forall row, In row rows ->
               exists c l r, row_key row = _generate_drilldown_key c l r) ->
  exists items, drilldown_items rows w = (Returned items, w).
Proof.
  induction rows as [|row rows IH]; intros Hgen; simpl.
  - eexists. reflexivity.
  - destruct (Hgen row (or_introl eq_refl)) as (c & l & r & Hkey).
    destruct row as [key count latest]. simpl in Hkey. subst key.
    destruct (drilldown_item_of_key c l r count latest w) as (p0 & p1 & p2 & rest & _ & Hrun).
    rewrite (bind_returned _ _ _ _ _ Hrun).
    destruct IH as [items Hitems]; [intros row' Hin; apply Hgen; now right|].
    rewrite (bind_returned _ _ _ _ _ Hitems). eexists. reflexivity.
Qed.

(** The read over the answers the query admits. The aggregate query has
    an answer, and every answer has one row per drilldown key of the
    table, carrying the number of signals with that key and the most
    recent of their creation timestamps; the items returned follow the
    rows in order and carry their counts and timestamps, and the read
    returns when the keys of the table were generated by the engine.
    The order among rows of equal count is the database's: the query
    names no second sort key, and nothing here decides it. *)
Theorem get_drilldown_spec (signals : list LearningSignal) :
  query_result signals (order_by_count_desc (group_by_key signals))
  /\ forall rows,
       query_result signals rows ->
       NoDup (map row_key rows)
       /\ (forall key, In key (map row_key rows) <-> In key (map ls_drilldown_key signals))
       /\ (forall row, In row rows ->
             row_count row = Z.of_nat (List.length (group_of signals (row_key row)))
             /\ 0 < row_count row
             /\ (exists s, In s signals /\ ls_drilldown_key s = row_key row
                           /\ ls_created_at s = row_latest row)
             /\ (forall s, In s signals -> ls_drilldown_key s = row_key row ->
                           ls_created_at s <= row_latest row))
       /\ StronglySorted count_desc rows
       /\ (forall w : World,
             learning_signals w = signals ->
             Forall generated_key signals ->
             exists items,
               get_drilldown w rows (Returned items)
               /\ map item_count items = map row_count rows
               /\ map item_latest_occurrence items = map row_latest rows).
Proof.
  split.
  { destruct (order_by_count_desc_result (group_by_key signals)). now split. }
  intros rows [Hperm Hsorted].
  assert (Permutation (map row_key rows) (nodup string_dec (map ls_drilldown_key signals)))
    as Hkeys.
  { rewrite <- keys_of_groups. now apply Permutation_map. }
  assert (forall key, In key (map row_key rows) <-> In key (map ls_drilldown_key signals))
    as Hin_keys.
  { intros key. rewrite <- (nodup_In string_dec (map ls_drilldown_key signals)).
    split; apply Permutation_in.
    - exact Hkeys.
    - now symmetry. }
  split; [|split; [exact Hin_keys | split; [|split; [exact Hsorted|]]]].
  - eapply Permutation_NoDup; [symmetry; exact Hkeys | apply NoDup_nodup].
  - intros row Hrow.
    assert (In (row_key row) (map ls_drilldown_key signals)) as Hk.
    { apply Hin_keys. now apply in_map. }
    apply (Permutation_in _ Hperm) in Hrow.
    unfold group_by_key in Hrow. apply in_map_iff in Hrow.
    destruct Hrow as (key & <- & _). simpl in *.
    apply in_map_iff in Hk. destruct Hk as (s0 & Hs0 & Hin0).
    assert (In s0 (group_of signals key)) as Hg by now apply in_group_of.
    assert (group_of signals key <> []) as Hne by (intros E; now rewrite E in Hg).
    destruct (max_created_at_spec _ Hne) as ((s & Hs & Hmax) & Hub).
    split; [reflexivity|]. split; [|split].
    + destruct (group_of signals key); [contradiction | simpl; lia].
    + apply in_group_of in Hs. destruct Hs as [Hs Hkey]. eauto.
    + intros s' Hin' Hkey'. apply Hub. now apply in_group_of.
  - intros w Hw Hgen.
    destruct (drilldown_items_returns rows w) as [items Hitems].
    { intros row Hrow.
      assert (In (row_key row) (map ls_drilldown_key signals)) as Hk.
      { apply Hin_keys. now apply in_map. }
      apply in_map_iff in Hk. destruct Hk as (s & Hs & Hin).
      rewrite Forall_forall in Hgen. destruct (Hgen s Hin) as (c & l & r & Hkey).
      exists c, l, r. congruence. }
    exists items. split.
    + unfold get_drilldown. rewrite Hw, Hitems. split; [now split | reflexivity].
    + eapply drilldown_items_fields. exact Hitems.
Qed.

Lemma weather_first_is_admitted : query_result two_signals [weather_row; access_row].
Proof.
  split; [apply perm_swap|].
  repeat constructor; unfold count_desc; simpl; lia.
Qed.

Lemma get_drilldown_spec_witness :
  NoDup (map row_key [weather_row; access_row])
  /\ StronglySorted count_desc [weather_row; access_row].
Proof.
  destruct (get_drilldown_spec two_signals) as [_ Hall].
  destruct (Hall [weather_row; access_row] weather_first_is_admitted)
    as (Hnd & _ & _ & Hsorted & _).
  split; assumption.
Defined.

End Drilldown.

(** *** Recomputing the state of a work item *)

Section Recompute.

Import StateMachine.

Lemma next_id_above (ids : list Z) (x : Z) : In x ids -> x < next_id ids.
Proof.
  unfold next_id. induction ids as [|y ids IH]; [contradiction|].
  change (fold_right Z.max 0 (y :: ids)) with (Z.max y (fold_right Z.max 0 ids)).
  intros [-> | Hin]; [lia|]. specialize (IH Hin). lia.
Qed.

Lemma next_id_fresh (ids : list Z) : ~ In (next_id ids) ids.
Proof. intros H. apply next_id_above in H. lia. Qed.

Lemma readiness_open (cs : list Constraint) (c : Constraint) :
  In c cs -> c_status c = OPEN -> readiness cs = NOT_READY.
Proof.
  intros Hin Ho. destruct (readiness_binary cs) as [Hr | Hn]; [|exact Hn].
  apply readiness_ready in Hr. destruct Hr as [_ Hall].
  rewrite Forall_forall in Hall. specialize (Hall c Hin). unfold cleared in Hall. congruence.
Qed.

Lemma update_work_item_state_missing (work_item : Z) (w : World) :
  get_work_item w work_item = None ->
  exists e, update_work_item_state work_item w = (Raised e, w).
Proof.
  intros H. unfold update_work_item_state.
  destruct (work_item_obj_none _ _ H) as [e He].
  exists e. now apply bind_raised.
Qed.

Lemma update_work_item_state_run (work_item : Z) (w : World) (wi : WorkItem) :
  get_work_item w work_item = Some wi ->
  exists w' wi',
    update_work_item_state work_item w = (Returned tt, w')
    /\ constraints w' = constraints w
    /\ commitments w' = commitments w
    /\ learning_signals w' = learning_signals w
    /\ clock w' = clock w
    /\ (forall id, id <> work_item -> get_work_item w' id = get_work_item w id)
    /\ get_work_item w' work_item = Some wi'
    /\ wi_state wi' = recomputed_state w wi
    /\ (wi' = wi
        \/ wi' = with_updated_at (clock w (clock_reads w))
                   (with_state (calculate_readiness w work_item) wi)).
Proof.
  intros Hwi. pose proof (find_key _ _ _ _ Hwi) as [_ Hid].
  unfold update_work_item_state, recomputed_state.
  rewrite (bind_returned _ _ _ _ _ (work_item_obj_some _ _ _ Hwi)). rewrite Hid.
  destruct (frozen (wi_state wi)) eqn:Hfr.
  { exists w, wi. repeat split; auto. }
  unfold bind at 1. unfold gets at 1.
  destruct (WorkItemState_eq_dec (wi_state wi) (calculate_readiness w work_item)) as [E|E].
  { exists w, wi. repeat split; auto. }
  eexists _, _. split; [run_monad; reflexivity|]. simpl.
  repeat split.
  - intros id Hne. unfold get_work_item. simpl.
    rewrite !find_update_rows_other by (congruence || reflexivity). reflexivity.
  - unfold get_work_item in *. simpl.
    rewrite !find_update_rows_same by reflexivity. rewrite Hwi. reflexivity.
  - reflexivity.
  - now right.
Qed.

End Recompute.

(** *** Adding, clearing and reopening a constraint *)

Section Constraints.

Import StateMachine.

Lemma filter_update_rows {A} (p : A -> bool) (key : A -> Z) (id : Z) (f : A -> A)
    (rows : list A) :
  (forall r, p (f r) = p r) ->
  filter p (update_rows key id f rows) = update_rows key id f (filter p rows).
Proof.
  intros Hp. induction rows as [|r rows IH]; [reflexivity|].
  simpl. destruct (Z.eqb (key r) id) eqn:E.
  - rewrite Hp. destruct (p r); simpl; [rewrite E|]; now rewrite IH.
  - destruct (p r); simpl; [rewrite E|]; now rewrite IH.
Qed.

Lemma constraints_after_update (w1 w : World) (work_item id : Z)
    (f : Constraint -> Constraint) :
  constraints w1 = update_rows c_id id f (constraints w) ->
  (forall r, c_work_item_id (f r) = c_work_item_id r) ->
  work_item_constraints w1 work_item
  = update_rows c_id id f (work_item_constraints w work_item).
Proof.
  intros H1 Hf. unfold work_item_constraints. rewrite H1.
  apply filter_update_rows. intros r. now rewrite Hf.
Qed.

Lemma in_update_rows {A} (key : A -> Z) (id : Z) (f : A -> A) (rows : list A) (r : A) :
  In r rows -> key r = id -> In (f r) (update_rows key id f rows).
Proof.
  intros Hin Hk. unfold update_rows.
  apply in_map_iff. exists r. split; [|exact Hin].
  rewrite Hk, Z.eqb_refl. reflexivity.
Qed.

Lemma constraint_of_its_work_item (w : World) (id : Z) (c : Constraint) :
  get_constraint w id = Some c ->
  In c (work_item_constraints w (c_work_item_id c)) /\ c_id c = id.
Proof.
  intros H. apply find_key in H. destruct H as [Hin Hid].
  split; [|exact Hid]. unfold work_item_constraints.
  apply filter_In. split; [exact Hin | apply Z.eqb_refl].
Qed.

Lemma add_constraint_row_run (work_item_id : Z) (type : string) (description : option string)
    (status : ConstraintStatus) (w : World) :
  exists row w1,
    add_constraint_row work_item_id type description status w = (Returned row, w1)
    /\ constraints w1 = constraints w ++ [row]
    /\ work_items w1 = work_items w
    /\ commitments w1 = commitments w
    /\ learning_signals w1 = learning_signals w
    /\ c_id row = next_id (map c_id (constraints w))
    /\ c_work_item_id row = work_item_id
    /\ c_type row = type /\ c_description row = description
    /\ c_status row = status
    /\ c_cleared_by_user_id row = None /\ c_cleared_at row = None.
Proof.
  eexists _, _. split; [unfold add_constraint_row; run_monad; reflexivity|].
  simpl. repeat split.
Qed.

(** X1. [add_constraint] on a work item of the table returns a new Open
    constraint of that work item, under a key no constraint had, with
    neither clearer nor clearing time, and appends it to the constraints
    table; the work item is afterwards Not Ready, unless it was
    Committed, Complete or Failed, in which case its state is kept.
    Commitments and learning signals are untouched. *)
Theorem add_constraint_spec
    (w : World) (work_item : Z) (wi : WorkItem) (type : string) (description : option string) :
  get_work_item w work_item = Some wi ->
  exists row w' wi',
    add_constraint work_item type description w = (Returned row, w')
    /\ constraints w' = constraints w ++ [row]
    /\ c_work_item_id row = work_item
    /\ c_type row = type /\ c_description row = description
    /\ c_status row = OPEN
    /\ c_cleared_by_user_id row = None /\ c_cleared_at row = None
    /\ ~ In (c_id row) (map c_id (constraints w))
    /\ get_work_item w' work_item = Some wi'
    /\ wi_state wi' = (if frozen (wi_state wi) then wi_state wi else NOT_READY)
    /\ commitments w' = commitments w
    /\ learning_signals w' = learning_signals w.
Proof.
  intros Hwi. pose proof (find_key _ _ _ _ Hwi) as [_ Hid].
  unfold add_constraint.
  rewrite (bind_returned _ _ _ _ _ (work_item_obj_some _ _ _ Hwi)).
  destruct (add_constraint_row_run (wi_id wi) type description OPEN w)
    as (row & w1 & Hrow & Hcs1 & Hwi1 & Hcm1 & Hls1 & Hrid & Hrw & Hrt & Hrd & Hrs & Hrb & Hra).
  rewrite (bind_returned _ _ _ _ _ Hrow).
  assert (get_work_item w1 work_item = Some wi) as Hget1.
  { unfold get_work_item in *. now rewrite Hwi1. }
  destruct (update_work_item_state_run work_item w1 wi Hget1)
    as (w' & wi' & Hrun & Hcs & Hcm & Hls & _ & _ & Hget & Hst & _).
  exists row, w', wi'.
  split.
  { unfold bind at 1. unfold db_commit at 1, ret at 1.
    rewrite (bind_returned _ _ _ _ _ Hrun). reflexivity. }
  split; [congruence|].
  split; [congruence|].
  repeat (split; [assumption|]).
  split; [rewrite Hrid; apply next_id_fresh|].
  split; [exact Hget|].
  split; [|split; congruence].
  rewrite Hst. unfold recomputed_state. destruct (frozen (wi_state wi)); [reflexivity|].
  rewrite Hid. unfold calculate_readiness. apply (readiness_open _ row); [|exact Hrs].
  unfold work_item_constraints. apply filter_In. split.
  - rewrite Hcs1. apply in_or_app. right. now left.
  - rewrite Hrw, Hid. apply Z.eqb_refl.
Qed.

Lemma add_constraint_spec_witness :
  exists row w' wi',
    add_constraint 1 "Access" (Some "Gate key") ready_world = (Returned row, w')
    /\ c_status row = OPEN
    /\ get_work_item w' 1 = Some wi'
    /\ wi_state wi' = NOT_READY.
Proof.
  destruct (add_constraint_spec ready_world 1
              (with_updated_at 3 (with_state READY
                 (with_updated_at 1 (with_state NOT_READY sample_work_item))))
              "Access" (Some "Gate key") eq_refl)
    as (row & w' & wi' & Hrun & _ & _ & _ & _ & Ho & _ & _ & _ & Hget & Hst & _).
  exists row, w', wi'. auto.
Defined.

(** X2. [clear_constraint] on a constraint whose work item is in the table
    returns and leaves the constraint Cleared, with the given clearer and
    the reading of the clock as clearing time. A work item that is
    Committed, Complete or Failed keeps its state; any other becomes
    Ready when the constraint was the last of its constraints not
    Cleared, and Not Ready when another of its constraints is Open. *)
Theorem clear_constraint_spec
    (w : World) (constraint : Z) (c : Constraint) (wi : WorkItem) (cleared_by_user_id : string) :
  get_constraint w constraint = Some c ->
  get_work_item w (c_work_item_id c) = Some wi ->
  exists w' c' wi',
    clear_constraint constraint cleared_by_user_id w = (Returned tt, w')
    /\ get_constraint w' constraint = Some c'
    /\ c_status c' = CLEARED
    /\ c_cleared_by_user_id c' = Some cleared_by_user_id
    /\ c_cleared_at c' = Some (clock w (clock_reads w))
    /\ c_work_item_id c' = c_work_item_id c
    /\ c_type c' = c_type c /\ c_description c' = c_description c
    /\ get_work_item w' (c_work_item_id c) = Some wi'
    /\ (frozen (wi_state wi) = true -> wi_state wi' = wi_state wi)
    /\ (frozen (wi_state wi) = false ->
        (forall c2, In c2 (work_item_constraints w (c_work_item_id c)) ->
                    c_id c2 <> constraint -> c_status c2 = CLEARED) ->
        wi_state wi' = READY)
    /\ (frozen (wi_state wi) = false ->
        (exists c2, In c2 (work_item_constraints w (c_work_item_id c))
                    /\ c_id c2 <> constraint /\ c_status c2 = OPEN) ->
        wi_state wi' = NOT_READY).
Proof.
  intros Hc Hwi.
  destruct (constraint_of_its_work_item w constraint c Hc) as [Hin Hcid].
  unfold clear_constraint.
  rewrite (bind_returned _ _ _ _ _ (constraint_obj_some _ _ _ Hc)).
  unfold bind at 1. unfold utcnow at 1.
  unfold bind at 1. unfold set_constraint at 1, modify at 1.
  unfold bind at 1. unfold db_commit at 1, ret at 1.
  match goal with |- context [update_work_item_state _ ?w0] => set (w1 := w0) end.
  assert (get_work_item w1 (c_work_item_id c) = Some wi) as Hwi1 by exact Hwi.
  destruct (update_work_item_state_run (c_work_item_id c) w1 wi Hwi1)
    as (w' & wi' & Hrun & Hcs & _ & _ & _ & _ & Hget & Hst & _).
  pose proof (find_key _ _ _ _ Hwi) as [_ Hwid].
  set (f := with_clearing CLEARED (Some cleared_by_user_id) (Some (clock w (clock_reads w)))) in *.
  assert (work_item_constraints w1 (c_work_item_id c)
          = update_rows c_id constraint f (work_item_constraints w (c_work_item_id c))) as Hrel.
  { apply constraints_after_update; reflexivity. }
  exists w', (f c), wi'.
  split; [exact Hrun|].
  split.
  { unfold get_constraint in *. rewrite Hcs. subst w1. simpl.
    rewrite find_update_rows_same by reflexivity. now rewrite Hc. }
  repeat (split; [reflexivity|]).
  split; [exact Hget|].
  unfold recomputed_state in Hst. rewrite Hwid in Hst.
  split; [intros Hfr; now rewrite Hfr in Hst|].
  split.
  - intros Hfr Hothers. rewrite Hfr in Hst. rewrite Hst.
    unfold calculate_readiness. rewrite Hrel. apply readiness_ready. split.
    + intros E. apply (in_update_rows c_id constraint f) in Hin; [|exact Hcid].
      rewrite E in Hin. contradiction.
    + unfold update_rows. apply Forall_forall. intros r Hr.
      apply in_map_iff in Hr. destruct Hr as (r0 & <- & Hr0).
      destruct (Z.eqb (c_id r0) constraint) eqn:E; [reflexivity|].
      apply Hothers; [exact Hr0|]. now apply Z.eqb_neq.
  - intros Hfr (c2 & Hin2 & Hne & Ho). rewrite Hfr in Hst. rewrite Hst.
    unfold calculate_readiness. rewrite Hrel.
    apply (readiness_open _ c2); [|exact Ho].
    unfold update_rows. apply in_map_iff. exists c2. split; [|exact Hin2].
    apply Z.eqb_neq in Hne. now rewrite Hne.
Qed.

Lemma clear_constraint_spec_witness :
  exists w' wi',
    clear_constraint 2 "user_456" not_ready_world = (Returned tt, w')
    /\ get_work_item w' 1 = Some wi'
    /\ wi_state wi' = NOT_READY.
Proof.
  destruct (clear_constraint_spec not_ready_world 2
              (open_constraint 2 "Access" "Road blocked" 2)
              (with_updated_at 1 (with_state NOT_READY sample_work_item))
              "user_456" eq_refl eq_refl)
    as (w' & c' & wi' & Hrun & _ & _ & _ & _ & _ & _ & _ & Hget & _ & _ & Hopen).
  exists w', wi'. split; [exact Hrun|]. split; [exact Hget|].
  apply Hopen; [reflexivity|].
  exists (open_constraint 1 "Materials" "Concrete not delivered" 0).
  split; [now left|]. split; [discriminate | reflexivity].
Defined.

(** X3. [reopen_constraint] on a constraint whose work item is in the
    table returns and leaves the constraint Open with neither clearer
    nor clearing time; its work item is afterwards Not Ready, unless it
    was Committed, Complete or Failed, in which case its state is
    kept. *)
Theorem reopen_constraint_spec
    (w : World) (constraint : Z) (c : Constraint) (wi : WorkItem) :
  get_constraint w constraint = Some c ->
  get_work_item w (c_work_item_id c) = Some wi ->
  exists w' c' wi',
    reopen_constraint constraint w = (Returned tt, w')
    /\ get_constraint w' constraint = Some c'
    /\ c_status c' = OPEN
    /\ c_cleared_by_user_id c' = None
    /\ c_cleared_at c' = None
    /\ c_work_item_id c' = c_work_item_id c
    /\ c_type c' = c_type c /\ c_description c' = c_description c
    /\ get_work_item w' (c_work_item_id c) = Some wi'
    /\ wi_state wi' = (if frozen (wi_state wi) then wi_state wi else NOT_READY)
    /\ commitments w' = commitments w.
Proof.
  intros Hc Hwi.
  destruct (constraint_of_its_work_item w constraint c Hc) as [Hin Hcid].
  unfold reopen_constraint.
  rewrite (bind_returned _ _ _ _ _ (constraint_obj_some _ _ _ Hc)).
  unfold bind at 1. unfold set_constraint at 1, modify at 1.
  unfold bind at 1. unfold db_commit at 1, ret at 1.
  match goal with |- context [update_work_item_state _ ?w0] => set (w1 := w0) end.
  assert (get_work_item w1 (c_work_item_id c) = Some wi) as Hwi1 by exact Hwi.
  destruct (update_work_item_state_run (c_work_item_id c) w1 wi Hwi1)
    as (w' & wi' & Hrun & Hcs & Hcm & _ & _ & _ & Hget & Hst & _).
  pose proof (find_key _ _ _ _ Hwi) as [_ Hwid].
  set (f := with_clearing OPEN None None) in *.
  assert (work_item_constraints w1 (c_work_item_id c)
          = update_rows c_id constraint f (work_item_constraints w (c_work_item_id c))) as Hrel.
  { apply constraints_after_update; reflexivity. }
  exists w', (f c), wi'.
  split; [exact Hrun|].
  split.
  { unfold get_constraint in *. rewrite Hcs. subst w1. simpl.
    rewrite find_update_rows_same by reflexivity. now rewrite Hc. }
  repeat (split; [reflexivity|]).
  split; [exact Hget|].
  split; [|exact Hcm].
  rewrite Hst. unfold recomputed_state. rewrite Hwid.
  destruct (frozen (wi_state wi)); [reflexivity|].
  unfold calculate_readiness. rewrite Hrel.
  apply (readiness_open _ (f c)); [|reflexivity].
  now apply in_update_rows.
Qed.

Lemma reopen_constraint_spec_witness :
  exists w' wi',
    reopen_constraint 1 ready_world = (Returned tt, w')
    /\ get_work_item w' 1 = Some wi'
    /\ wi_state wi' = NOT_READY.
Proof.
  destruct (reopen_constraint_spec ready_world 1
              {| c_id := 1; c_work_item_id := 1; c_type := "Materials";
                 c_description := Some "Concrete ready"; c_status := CLEARED;
                 c_cleared_by_user_id := Some "user_123";
                 c_cleared_at := Some 2; c_created_at := 0 |}
              (with_updated_at 3 (with_state READY
                 (with_updated_at 1 (with_state NOT_READY sample_work_item))))
              eq_refl eq_refl)
    as (w' & c' & wi' & Hrun & _ & _ & _ & _ & _ & _ & _ & Hget & Hst & _).
  exists w', wi'. auto.
Defined.

End Constraints.

(** *** Creating a commitment *)

Section Creation.

Import StateMachine.

Lemma create_commitment_cases (work_item : Z) (by_user owner : string) (due : datetime)
    (w : World) :
  (exists e, create_commitment work_item by_user owner due w = (Raised e, w))
  \/ (exists wi row w',
        get_work_item w work_item = Some wi
        /\ wi_state wi = READY
        /\ find (is_active_for (wi_id wi)) (commitments w) = None
        /\ create_commitment work_item by_user owner due w = (Returned row, w')
        /\ commitments w' = commitments w ++ [row]
        /\ constraints w' = constraints w
        /\ learning_signals w' = learning_signals w
        /\ work_items w'
           = update_rows wi_id work_item (with_updated_at (clock w (clock_reads w)))
               (update_rows wi_id work_item (with_state COMMITTED) (work_items w))
        /\ cm_id row = next_id (map cm_id (commitments w))
        /\ cm_work_item_id row = work_item
        /\ cm_committed_by_user_id row = by_user
        /\ cm_owner_user_id row = owner
        /\ cm_due_at row = due
        /\ cm_status row = CommitmentStatus.ACTIVE
        /\ cm_completed_at row = None
        /\ cm_failed_at row = None).
Proof.
  destruct (get_work_item w work_item) as [wi|] eqn:Hwi.
  2:{ left. destruct (work_item_obj_none _ _ Hwi) as [e He].
      exists e. unfold create_commitment. now apply bind_raised. }
  pose proof (find_key _ _ _ _ Hwi) as [_ Hid].
  assert (forall k : WorkItem -> M Commitment,
             bind (work_item_obj work_item) k w = k wi w) as Hstart.
  { intros k. apply bind_returned. now apply work_item_obj_some. }
  destruct (find (is_active_for (wi_id wi)) (commitments w)) eqn:Hact.
  { left. unfold create_commitment. rewrite Hstart.
    run_monad. rewrite Hact. eexists. reflexivity. }
  destruct (WorkItemState_eq_dec (wi_state wi) READY) as [Hr|Hr].
  - right. exists wi. eexists _, _.
    split; [reflexivity|]. split; [exact Hr|]. split; [exact Hact|].
    split.
    { unfold create_commitment. rewrite Hstart. run_monad. rewrite Hact.
      destruct (WorkItemState_eq_dec (wi_state wi) READY); [|contradiction].
      simpl. reflexivity. }
    simpl. rewrite Hid. repeat split.
  - left. unfold create_commitment. rewrite Hstart. run_monad. rewrite Hact.
    destruct (WorkItemState_eq_dec (wi_state wi) READY); [contradiction|].
    destruct (work_item_constraints w work_item); eexists; reflexivity.
Qed.

(** X4. [create_commitment] on a Ready work item without Active
    commitment returns a new Active commitment with the given committer,
    owner and due timestamp, under a key no commitment had and with
    neither completed-at nor failed-at; the commitment is appended to the
    table, the work item becomes Committed and has exactly one Active
    commitment, and constraints and learning signals are untouched. *)
Theorem create_commitment_succeeds
    (w : World) (work_item : Z) (wi : WorkItem)
    (committed_by_user_id owner_user_id : string) (due_at : datetime) :
  get_work_item w work_item = Some wi ->
  wi_state wi = READY ->
  ~ has_active_commitment w wi ->
  exists row w' wi',
    create_commitment work_item committed_by_user_id owner_user_id due_at w
    = (Returned row, w')
    /\ commitments w' = commitments w ++ [row]
    /\ ~ In (cm_id row) (map cm_id (commitments w))
    /\ cm_work_item_id row = work_item
    /\ cm_committed_by_user_id row = committed_by_user_id
    /\ cm_owner_user_id row = owner_user_id
    /\ cm_due_at row = due_at
    /\ cm_status row = CommitmentStatus.ACTIVE
    /\ cm_completed_at row = None /\ cm_failed_at row = None
    /\ get_work_item w' work_item = Some wi'
    /\ wi_state wi' = COMMITTED
    /\ active_count w' work_item = 1%nat
    /\ constraints w' = constraints w
    /\ learning_signals w' = learning_signals w.
Proof.
  intros Hwi Hready Hno.
  pose proof (find_key _ _ _ _ Hwi) as [_ Hid].
  destruct (create_commitment_cases work_item committed_by_user_id owner_user_id due_at w)
    as [[e He] | (wi0 & row & w' & Hwi0 & _ & Hact & Hrun & Hcm & Hcs & Hls & Hitems
                  & Hrid & Hrw & Hrb & Hro & Hrd & Hrs & Hrc & Hrf)].
  { exfalso. revert He. unfold create_commitment.
    rewrite (bind_returned _ _ _ _ _ (work_item_obj_some _ _ _ Hwi)).
    unfold bind at 1. unfold gets at 1.
    rewrite (find_active_none w wi Hno).
    destruct (WorkItemState_eq_dec (wi_state wi) READY); [|contradiction].
    run_monad. discriminate. }
  exists row, w', (with_updated_at (clock w (clock_reads w)) (with_state COMMITTED wi)).
  split; [exact Hrun|]. split; [exact Hcm|].
  split; [rewrite Hrid; apply next_id_fresh|].
  repeat (split; [assumption|]).
  split.
  { unfold get_work_item in *. rewrite Hitems.
    rewrite !find_update_rows_same by reflexivity. now rewrite Hwi. }
  split; [reflexivity|].
  split; [|split; assumption].
  unfold active_count. rewrite Hcm, filter_app, length_app.
  rewrite Hwi0 in Hwi. injection Hwi as ->. rewrite Hid in Hact.
  assert (filter (is_active_for work_item) (commitments w) = []) as ->.
  { clear -Hact. induction (commitments w) as [|c l IH]; [reflexivity|].
    simpl in *. destruct (is_active_for work_item c); [discriminate | now apply IH]. }
  simpl. unfold is_active_for. rewrite Hrw, Z.eqb_refl, Hrs. reflexivity.
Qed.

Lemma create_commitment_succeeds_witness :
  exists row w' wi',
    create_commitment 1 "user_123" "user_456" 1000 ready_world = (Returned row, w')
    /\ cm_status row = CommitmentStatus.ACTIVE
    /\ cm_owner_user_id row = "user_456"
    /\ get_work_item w' 1 = Some wi'
    /\ wi_state wi' = COMMITTED.
Proof.
  destruct (create_commitment_succeeds ready_world 1
              (with_updated_at 3 (with_state READY
                 (with_updated_at 1 (with_state NOT_READY sample_work_item))))
              "user_123" "user_456" 1000 eq_refl eq_refl)
    as (row & w' & wi' & Hrun & _ & _ & _ & _ & Ho & _ & Hs & _ & _ & Hget & Hst & _).
  - intros (c & [] & _).
  - exists row, w', wi'. auto.
Defined.

End Creation.

(** *** The commitments table under every operation *)

Section CommitmentsTable.

Import StateMachine.

Lemma commitments_after_run (op : Op) (w : World) :
  commitments (after (run op) w) = commitments w
  \/ (exists wi row,
        get_work_item w (cm_work_item_id row) = Some wi
        /\ find (is_active_for (cm_work_item_id row)) (commitments w) = None
        /\ commitments (after (run op) w) = commitments w ++ [row]
        /\ cm_status row = CommitmentStatus.ACTIVE)
  \/ (exists cid t,
        commitments (after (run op) w)
        = update_rows cm_id cid (with_failed_at t)
            (update_rows cm_id cid (with_status CommitmentStatus.FAILED) (commitments w)))
  \/ (exists cid t,
        commitments (after (run op) w)
        = update_rows cm_id cid (with_completed_at t)
            (update_rows cm_id cid (with_status CommitmentStatus.COMPLETE) (commitments w))).
Proof.
  destruct op as [wid t d | cid u | cid | wid u o d | cid | cid p s n | wid];
    simpl run; rewrite ?after_then_ret.
  - left. apply add_constraint_effect.
  - left. apply clear_constraint_effect.
  - left. apply reopen_constraint_effect.
  - destruct (create_commitment_cases wid u o d w)
      as [[e He] | (wi & row & w' & Hwi & _ & Hact & Hrun & Hcm & _ & _ & _ & _ & Hrw & _ & _ & _
                    & Hrs & _)].
    + left. unfold after. now rewrite He.
    + right. left. exists wi, row. unfold after. rewrite Hrun. simpl.
      pose proof (find_key _ _ _ _ Hwi) as [_ Hid].
      rewrite Hrw. rewrite Hid in Hact. auto.
  - destruct (complete_commitment_commitments w cid) as [H | [[t H] | H]].
    + now left.
    + right. right. left. eauto.
    + right. right. right. eauto.
  - destruct (fail_commitment_commitments w cid p s n) as [H | H].
    + now left.
    + right. right. left. eauto.
  - left. apply reset_to_intent_effect.
Qed.

Lemma filter_none_of_find {A} (p : A -> bool) (l : list A) :
  find p l = None -> filter p l = [].
Proof.
  induction l as [|x l IH]; [reflexivity|]. simpl.
  destruct (p x); [discriminate | exact IH].
Qed.

Lemma active_after_ending (work_item_id cid : Z) (s : CommitmentStatus.t)
    (g : Commitment -> Commitment) (rows : list Commitment) :
  s <> CommitmentStatus.ACTIVE ->
  (forall r, cm_status (g r) = cm_status r) ->
  (List.length (filter (is_active_for work_item_id)
                  (update_rows cm_id cid g (update_rows cm_id cid (with_status s) rows)))
   <= List.length (filter (is_active_for work_item_id) rows))%nat.
Proof.
  intros Hs Hg. induction rows as [|r rows IH]; [apply Nat.le_refl|].
  simpl. destruct (Z.eqb (cm_id r) cid) eqn:E.
  - simpl. rewrite E.
    assert (is_active_for work_item_id (g (with_status s r)) = false) as ->.
    { unfold is_active_for. rewrite Hg. simpl.
      destruct (CommitmentStatus.eq_dec s CommitmentStatus.ACTIVE); [contradiction|].
      apply andb_false_r. }
    destruct (is_active_for work_item_id r); simpl; lia.
  - rewrite E. destruct (is_active_for work_item_id r); simpl; lia.
Qed.

(** X5. If no work item has more than one Active commitment, then after
    any operation of the engine, whatever its outcome, no work item has
    more than one Active commitment. *)
Theorem single_active_commitment_kept (w : World) (op : Op) :
  (forall work_item_id, (active_count w work_item_id <= 1)%nat) ->
  forall work_item_id, (active_count (after (run op) w) work_item_id <= 1)%nat.
Proof.
  intros Hinv id. specialize (Hinv id). unfold active_count in *.
  destruct (commitments_after_run op w)
    as [-> | [(wi & row & _ & Hnone & -> & _) | [(cid & t & ->) | (cid & t & ->)]]].
  - exact Hinv.
  - rewrite filter_app, length_app. simpl.
    destruct (is_active_for id row) eqn:E; simpl; [|lia].
    unfold is_active_for in E. apply andb_true_iff in E. destruct E as [E _].
    apply Z.eqb_eq in E. rewrite E in Hnone.
    rewrite (filter_none_of_find _ _ Hnone). simpl. lia.
  - etransitivity; [apply active_after_ending; [discriminate | reflexivity] | exact Hinv].
  - etransitivity; [apply active_after_ending; [discriminate | reflexivity] | exact Hinv].
Qed.

Lemma single_active_commitment_kept_witness :
  (active_count
     (after (run (CreateCommitment 1%Z "user_456" "user_456" 2000%Z)) committed_world) 1%Z
   <= 1)%nat.
Proof.
  apply (single_active_commitment_kept committed_world
           (CreateCommitment 1 "user_456" "user_456" 2000)).
  intros id. unfold active_count. simpl.
  destruct (is_active_for id _); simpl; lia.
Defined.

(** X6. No operation of the engine changes the key, the work item, the
    committer, the owner, the due timestamp or the creation timestamp of
    an existing commitment, and none removes it. *)
Theorem commitment_pledge_is_immutable (w : World) (op : Op) (id : Z) (c : Commitment) :
  get_commitment w id = Some c ->
  exists c',
    get_commitment (after (run op) w) id = Some c'
    /\ pledge c' = pledge c.
Proof.
  intros Hc. unfold get_commitment in *.
  destruct (commitments_after_run op w)
    as [-> | [(wi & row & _ & _ & -> & _) | [(cid & t & ->) | (cid & t & ->)]]].
  - eauto.
  - exists c. split; [now apply find_app_some | reflexivity].
  - destruct (Z.eq_dec cid id) as [-> | Hne].
    + rewrite !find_update_rows_same by reflexivity. rewrite Hc. eexists. split; reflexivity.
    + rewrite !find_update_rows_other by (assumption || reflexivity). eauto.
  - destruct (Z.eq_dec cid id) as [-> | Hne].
    + rewrite !find_update_rows_same by reflexivity. rewrite Hc. eexists. split; reflexivity.
    + rewrite !find_update_rows_other by (assumption || reflexivity). eauto.
Qed.

Lemma commitment_pledge_is_immutable_witness :
  exists c',
    get_commitment (after (run (CompleteCommitment 1)) committed_world) 1 = Some c'
    /\ cm_due_at c' = 1000 /\ cm_owner_user_id c' = "user_123".
Proof.
  destruct (commitment_pledge_is_immutable committed_world (CompleteCommitment 1) 1
              {| cm_id := 1; cm_work_item_id := 1;
                 cm_committed_by_user_id := "user_123";
                 cm_owner_user_id := "user_123";
                 cm_due_at := 1000;
                 cm_status := CommitmentStatus.ACTIVE;
                 cm_created_at := 5;
                 cm_completed_at := None;
                 cm_failed_at := None |} eq_refl) as (c' & Hget & Hp).
  exists c'. split; [exact Hget|].
  unfold pledge in Hp. injection Hp as _ _ _ Ho Hd _. auto.
Defined.

End CommitmentsTable.

(** *** What each operation writes *)

Section Footprints.

Import StateMachine.

Lemma fail_commitment_footprint (cid : Z) (p : PrimaryCause.t) (s n : option string)
    (w : World) :
  after (fail_commitment cid p s n) w = w
  \/ (exists c,
        get_commitment w cid = Some c
        /\ get_work_item w (cm_work_item_id c) = None
        /\ work_items (after (fail_commitment cid p s n) w) = work_items w
        /\ constraints (after (fail_commitment cid p s n) w) = constraints w
        /\ learning_signals (after (fail_commitment cid p s n) w) = learning_signals w)
  \/ (exists c wi,
        get_commitment w cid = Some c
        /\ get_work_item w (cm_work_item_id c) = Some wi
        /\ after (fail_commitment cid p s n) w
           = world_after_fail w (clock_reads w) cid wi (new_signal w c wi p s n)).
Proof.
  destruct (get_commitment w cid) as [c|] eqn:Hc.
  2:{ left. unfold fail_commitment. destruct (commitment_obj_none _ _ Hc) as [e He].
      now rewrite (after_bind_raised _ _ _ _ _ He). }
  destruct (get_work_item w (cm_work_item_id c)) as [wi|] eqn:Hwi.
  - right. right. exists c, wi. split; [first [reflexivity | assumption]|]. split; [first [reflexivity | assumption]|].
    unfold after. now rewrite (fail_commitment_run w cid c wi p s n Hc Hwi).
  - right. left. exists c. split; [first [reflexivity | assumption]|]. split; [first [reflexivity | assumption]|].
    unfold fail_commitment.
    rewrite (after_bind_returned _ _ _ _ _ (commitment_obj_some _ _ _ Hc)).
    unfold after. run_monad. unfold get_work_item in *. simpl. rewrite Hwi.
    simpl. repeat split.
Qed.

Lemma complete_commitment_footprint (cid : Z) (w : World) :
  after (complete_commitment cid) w = w
  \/ after (complete_commitment cid) w
     = after (fail_commitment cid PrimaryCause.OTHER None
                (Some "Auto-failed: Completed after due date")) (tick w)
  \/ (exists c,
        get_commitment w cid = Some c
        /\ get_work_item w (cm_work_item_id c) = None
        /\ work_items (after (complete_commitment cid) w) = work_items w
        /\ constraints (after (complete_commitment cid) w) = constraints w
        /\ learning_signals (after (complete_commitment cid) w) = learning_signals w)
  \/ (exists c wi,
        get_commitment w cid = Some c
        /\ get_work_item w (cm_work_item_id c) = Some wi
        /\ after (complete_commitment cid) w = world_after_on_time_completion w cid wi).
Proof.
  destruct (get_commitment w cid) as [c|] eqn:Hc.
  2:{ left. unfold complete_commitment. destruct (commitment_obj_none _ _ Hc) as [e He].
      now rewrite (after_bind_raised _ _ _ _ _ He). }
  destruct (Z.ltb (cm_due_at c) (clock w (clock_reads w))) eqn:E.
  { right. left. apply Z.ltb_lt in E. unfold after at 1.
    rewrite (complete_commitment_late w cid c Hc E).
    change (snd ((fail_commitment cid PrimaryCause.OTHER None
                    (Some "Auto-failed: Completed after due date") ;;; ret tt) (tick w)))
      with (after (fail_commitment cid PrimaryCause.OTHER None
                     (Some "Auto-failed: Completed after due date") ;;; ret tt) (tick w)).
    apply after_then_ret. }
  right. right.
  destruct (get_work_item w (cm_work_item_id c)) as [wi|] eqn:Hwi.
  - right. exists c, wi. split; [first [reflexivity | assumption]|]. split; [first [reflexivity | assumption]|].
    apply Z.ltb_ge in E. unfold after.
    now rewrite (complete_commitment_on_time w cid c wi Hc Hwi E).
  - left. exists c. split; [first [reflexivity | assumption]|]. split; [first [reflexivity | assumption]|].
    unfold complete_commitment.
    rewrite (after_bind_returned _ _ _ _ _ (commitment_obj_some _ _ _ Hc)).
    unfold after. run_monad. rewrite E. simpl.
    unfold get_work_item in *. simpl. rewrite Hwi. simpl. repeat split.
Qed.

Lemma reset_to_intent_footprint (wid : Z) (w : World) :
  after (reset_to_intent wid) w = w
  \/ after (reset_to_intent wid) w = world_after_reset w wid.
Proof.
  destruct (get_work_item w wid) as [wi|] eqn:Hwi.
  2:{ left. unfold reset_to_intent. destruct (work_item_obj_none _ _ Hwi) as [e He].
      now rewrite (after_bind_raised _ _ _ _ _ He). }
  destruct (WorkItemState_eq_dec (wi_state wi) COMPLETE) as [Hc|Hc].
  { right. unfold after. now rewrite (reset_to_intent_run w wid wi Hwi (or_introl Hc)). }
  destruct (WorkItemState_eq_dec (wi_state wi) FAILED) as [Hf|Hf].
  { right. unfold after. now rewrite (reset_to_intent_run w wid wi Hwi (or_intror Hf)). }
  left. unfold after. now rewrite (reset_to_intent_rejects w wid wi Hwi Hc Hf).
Qed.

Lemma add_constraint_then_recompute (wid : Z) (t : string) (d : option string) (w : World) :
  after (add_constraint wid t d) w = w
  \/ (exists wi row w1,
        get_work_item w wid = Some wi
        /\ constraints w1 = constraints w ++ [row]
        /\ work_items w1 = work_items w
        /\ commitments w1 = commitments w
        /\ learning_signals w1 = learning_signals w
        /\ c_id row = next_id (map c_id (constraints w))
        /\ c_work_item_id row = wid
        /\ c_status row = OPEN
        /\ c_cleared_by_user_id row = None /\ c_cleared_at row = None
        /\ after (add_constraint wid t d) w = after (update_work_item_state wid) w1).
Proof.
  unfold add_constraint.
  destruct (get_work_item w wid) as [wi|] eqn:Hwi.
  2:{ left. destruct (work_item_obj_none _ _ Hwi) as [e He].
      now rewrite (after_bind_raised _ _ _ _ _ He). }
  right. pose proof (find_key _ _ _ _ Hwi) as [_ Hid].
  rewrite (after_bind_returned _ _ _ _ _ (work_item_obj_some _ _ _ Hwi)).
  destruct (add_constraint_row_run (wi_id wi) t d OPEN w)
    as (row & w1 & Hrow & Hcs1 & Hwi1 & Hcm1 & Hls1 & Hrid & Hrw & _ & _ & Hrs & Hrb & Hra).
  exists wi, row, w1.
  rewrite (after_bind_returned _ _ _ _ _ Hrow).
  rewrite (after_bind_returned db_commit _ w1 w1 tt eq_refl).
  rewrite after_then_ret. rewrite Hid in Hrw. repeat split; assumption.
Qed.

Lemma clear_constraint_then_recompute (cid : Z) (u : string) (w : World) :
  after (clear_constraint cid u) w = w
  \/ (exists c w1,
        get_constraint w cid = Some c
        /\ constraints w1
           = update_rows c_id cid
               (with_clearing CLEARED (Some u) (Some (clock w (clock_reads w)))) (constraints w)
        /\ work_items w1 = work_items w
        /\ commitments w1 = commitments w
        /\ learning_signals w1 = learning_signals w
        /\ after (clear_constraint cid u) w
           = after (update_work_item_state (c_work_item_id c)) w1).
Proof.
  unfold clear_constraint.
  destruct (get_constraint w cid) as [c|] eqn:Hc.
  2:{ left. destruct (constraint_obj_none _ _ Hc) as [e He].
      now rewrite (after_bind_raised _ _ _ _ _ He). }
  right. exists c.
  rewrite (after_bind_returned _ _ _ _ _ (constraint_obj_some _ _ _ Hc)).
  rewrite (after_bind_returned utcnow _ w (tick w) _ eq_refl).
  eexists. split; [reflexivity|].
  split; [|split; [|split; [|split]]]; cycle 4.
  - erewrite after_bind_returned; [|unfold set_constraint, modify; reflexivity].
    erewrite (after_bind_returned db_commit); [|reflexivity]. reflexivity.
  - reflexivity.
  - reflexivity.
  - reflexivity.
  - reflexivity.
Qed.

Lemma reopen_constraint_then_recompute (cid : Z) (w : World) :
  after (reopen_constraint cid) w = w
  \/ (exists c w1,
        get_constraint w cid = Some c
        /\ constraints w1 = update_rows c_id cid (with_clearing OPEN None None) (constraints w)
        /\ work_items w1 = work_items w
        /\ commitments w1 = commitments w
        /\ learning_signals w1 = learning_signals w
        /\ after (reopen_constraint cid) w
           = after (update_work_item_state (c_work_item_id c)) w1).
Proof.
  unfold reopen_constraint.
  destruct (get_constraint w cid) as [c|] eqn:Hc.
  2:{ left. destruct (constraint_obj_none _ _ Hc) as [e He].
      now rewrite (after_bind_raised _ _ _ _ _ He). }
  right. exists c.
  rewrite (after_bind_returned _ _ _ _ _ (constraint_obj_some _ _ _ Hc)).
  eexists. split; [reflexivity|].
  split; [|split; [|split; [|split]]]; cycle 4.
  - erewrite after_bind_returned; [|unfold set_constraint, modify; reflexivity].
    erewrite (after_bind_returned db_commit); [|reflexivity]. reflexivity.
  - reflexivity.
  - reflexivity.
  - reflexivity.
  - reflexivity.
Qed.

Lemma map_key_update_rows {A} (key : A -> Z) (id : Z) (f : A -> A) (rows : list A) :
  (forall r, key (f r) = key r) ->
  map key (update_rows key id f rows) = map key rows.
Proof.
  intros Hk. unfold update_rows. rewrite map_map. apply map_ext.
  intros r. destruct (Z.eqb (key r) id); [apply Hk | reflexivity].
Qed.

Lemma update_work_item_state_after (wid : Z) (w1 : World) :
  constraints (after (update_work_item_state wid) w1) = constraints w1
  /\ commitments (after (update_work_item_state wid) w1) = commitments w1
  /\ learning_signals (after (update_work_item_state wid) w1) = learning_signals w1
  /\ map wi_id (work_items (after (update_work_item_state wid) w1)) = map wi_id (work_items w1)
  /\ (forall id, id <> wid ->
                 get_work_item (after (update_work_item_state wid) w1) id
                 = get_work_item w1 id)
  /\ (forall wi',
        get_work_item (after (update_work_item_state wid) w1) wid = Some wi' ->
        wi_state wi' = READY -> calculate_readiness w1 wid = READY).
Proof.
  destruct (get_work_item w1 wid) as [wi|] eqn:Hwi.
  - destruct (update_work_item_state_run wid w1 wi Hwi)
      as (w' & wi' & Hrun & Hcs & Hcm & Hls & _ & Hoth & Hget & Hst & Hform).
    pose proof (find_key _ _ _ _ Hwi) as [_ Hid].
    assert (after (update_work_item_state wid) w1 = w') as -> by (unfold after; now rewrite Hrun).
    repeat (split; [assumption|]).
    split; [|split; [exact Hoth|]].
    + destruct (update_work_item_state_effect wid w1) as [[Heq | (i & x & s & t & _ & _ & Heq)] _];
        unfold after in Heq; rewrite Hrun in Heq; simpl in Heq; rewrite Heq;
        [reflexivity|].
      now rewrite !map_key_update_rows by reflexivity.
    + intros wi2 Hget2 Hr. rewrite Hget in Hget2. injection Hget2 as <-.
      rewrite Hst in Hr. unfold recomputed_state in Hr. rewrite Hid in Hr.
      destruct (frozen (wi_state wi)) eqn:Hfr; [|exact Hr].
      rewrite Hr in Hfr. discriminate.
  - destruct (update_work_item_state_missing wid w1 Hwi) as [e He].
    assert (after (update_work_item_state wid) w1 = w1) as -> by (unfold after; now rewrite He).
    repeat split. intros wi' Hget. congruence.
Qed.

End Footprints.

(** *** Tables under every operation *)

Section Tables.

Import StateMachine.

Lemma find_key_some_iff {A} (key : A -> Z) (id : Z) (rows : list A) :
  find (fun x => Z.eqb (key x) id) rows <> None <-> In id (map key rows).
Proof.
  induction rows as [|r rows IH]; simpl.
  - split; [congruence | contradiction].
  - destruct (Z.eqb (key r) id) eqn:E.
    + apply Z.eqb_eq in E. split; [now left | discriminate].
    + apply Z.eqb_neq in E. rewrite IH. split; [now right | intros [H|H]; [contradiction | exact H]].
Qed.

Lemma get_work_item_by_ids (w w' : World) (id : Z) :
  map wi_id (work_items w') = map wi_id (work_items w) ->
  get_work_item w id <> None -> get_work_item w' id <> None.
Proof.
  intros Hids H. unfold get_work_item in *.
  apply find_key_some_iff. rewrite Hids. now apply find_key_some_iff.
Qed.

Lemma calculate_readiness_same_constraints (w w' : World) (id : Z) :
  constraints w' = constraints w -> calculate_readiness w' id = calculate_readiness w id.
Proof. intros H. unfold calculate_readiness, work_item_constraints. now rewrite H. Qed.

Lemma update_rows_untouched {A} (key : A -> Z) (id : Z) (f : A -> A) (rows : list A) :
  (forall r, In r rows -> key r <> id) -> update_rows key id f rows = rows.
Proof.
  intros H. induction rows as [|r rows IH]; [reflexivity|]. simpl.
  assert (Z.eqb (key r) id = false) as -> by (apply Z.eqb_neq, H; now left).
  f_equal. apply IH. intros x Hx. apply H. now right.
Qed.

Lemma NoDup_key_inj {A} (key : A -> Z) (rows : list A) (a b : A) :
  NoDup (map key rows) -> In a rows -> In b rows -> key a = key b -> a = b.
Proof.
  induction rows as [|r rows IH]; [contradiction|]. simpl.
  intros Hnd Ha Hb Hk. inversion Hnd as [|? ? Hnotin Hnd']; subst.
  destruct Ha as [-> | Ha], Hb as [-> | Hb].
  - reflexivity.
  - exfalso. apply Hnotin. rewrite Hk. now apply in_map.
  - exfalso. apply Hnotin. rewrite <- Hk. now apply in_map.
  - now apply IH.
Qed.

Lemma fail_commitment_writes (cid : Z) (p : PrimaryCause.t) (s n : option string) (w : World) :
  constraints (after (fail_commitment cid p s n) w) = constraints w
  /\ (work_items (after (fail_commitment cid p s n) w) = work_items w
      \/ exists id t,
           work_items (after (fail_commitment cid p s n) w)
           = update_rows wi_id id (with_updated_at t)
               (update_rows wi_id id (with_state FAILED) (work_items w)))
  /\ (learning_signals (after (fail_commitment cid p s n) w) = learning_signals w
      \/ exists signal,
           learning_signals (after (fail_commitment cid p s n) w)
           = learning_signals w ++ [signal]).
Proof.
  destruct (fail_commitment_footprint cid p s n w)
    as [-> | [(c & _ & _ & Hi & Hc & Hl) | (c & wi & _ & _ & ->)]].
  - repeat split; now left.
  - split; [exact Hc|]. split; now left.
  - split; [reflexivity|]. split; right; eexists; [eexists|]; reflexivity.
Qed.

Lemma complete_commitment_writes (cid : Z) (w : World) :
  constraints (after (complete_commitment cid) w) = constraints w
  /\ (work_items (after (complete_commitment cid) w) = work_items w
      \/ exists id s t,
           s <> READY
           /\ work_items (after (complete_commitment cid) w)
              = update_rows wi_id id (with_updated_at t)
                  (update_rows wi_id id (with_state s) (work_items w)))
  /\ (learning_signals (after (complete_commitment cid) w) = learning_signals w
      \/ exists signal,
           learning_signals (after (complete_commitment cid) w)
           = learning_signals w ++ [signal]).
Proof.
  destruct (complete_commitment_footprint cid w)
    as [-> | [-> | [(c & _ & _ & Hi & Hc & Hl) | (c & wi & _ & _ & ->)]]].
  - repeat split; now left.
  - destruct (fail_commitment_writes cid PrimaryCause.OTHER None
                (Some "Auto-failed: Completed after due date") (tick w))
      as (Hc & Hi & Hl).
    split; [exact Hc|]. split; [|exact Hl].
    destruct Hi as [Hi | (id & t & Hi)]; [now left|].
    right. exists id, FAILED, t. split; [discriminate | exact Hi].
  - split; [exact Hc|]. split; now left.
  - split; [reflexivity|]. split; [|now left].
    right. eexists _, COMPLETE, _. split; [discriminate | reflexivity].
Qed.

Lemma state_write_after (op : Op) (w : World) :
  is_constraint_op op = false ->
  constraints (after (run op) w) = constraints w
  /\ (work_items (after (run op) w) = work_items w
      \/ exists id s t,
           s <> READY
           /\ work_items (after (run op) w)
              = update_rows wi_id id (with_updated_at t)
                  (update_rows wi_id id (with_state s) (work_items w)))
  /\ (learning_signals (after (run op) w) = learning_signals w
      \/ exists signal,
           learning_signals (after (run op) w) = learning_signals w ++ [signal]).
Proof.
  destruct op as [wid t d | cid u | cid | wid u o d | cid | cid p s n | wid];
    try discriminate; intros _; simpl run; rewrite ?after_then_ret.
  - destruct (create_commitment_cases wid u o d w)
      as [[e He] | (wi & row & w' & _ & _ & _ & Hrun & _ & Hcs & Hls & Hitems & _)].
    + unfold after. rewrite He. repeat split; now left.
    + unfold after. rewrite Hrun. simpl. split; [exact Hcs|]. split; [|now left].
      right. eexists _, COMMITTED, _. split; [discriminate | exact Hitems].
  - apply complete_commitment_writes.
  - destruct (fail_commitment_writes cid p s n w) as (Hc & Hi & Hl).
    split; [exact Hc|]. split; [|exact Hl].
    destruct Hi as [Hi | (id & t & Hi)]; [now left|].
    right. exists id, FAILED, t. split; [discriminate | exact Hi].
  - destruct (reset_to_intent_footprint wid w) as [-> | ->].
    + repeat split; now left.
    + split; [reflexivity|]. split; [|now left].
      right. eexists _, INTENT, _. split; [discriminate | reflexivity].
Qed.

Lemma constraint_write_after (op : Op) (w : World) :
  is_constraint_op op = true ->
  after (run op) w = w
  \/ exists wid w1,
       after (run op) w = after (update_work_item_state wid) w1
       /\ work_items w1 = work_items w
       /\ commitments w1 = commitments w
       /\ learning_signals w1 = learning_signals w
       /\ ((exists row,
              constraints w1 = constraints w ++ [row]
              /\ c_id row = next_id (map c_id (constraints w))
              /\ c_work_item_id row = wid
              /\ c_status row = OPEN
              /\ c_cleared_by_user_id row = None /\ c_cleared_at row = None)
           \/ (exists cid c f,
                 get_constraint w cid = Some c
                 /\ c_work_item_id c = wid
                 /\ constraints w1 = update_rows c_id cid f (constraints w)
                 /\ (exists s u t, f = with_clearing s u t
                                   /\ ((s = CLEARED /\ u <> None /\ t <> None)
                                       \/ (s = OPEN /\ u = None /\ t = None))))).
Proof.
  destruct op as [wid t d | cid u | cid | wid u o d | cid | cid p s n | wid];
    try discriminate; intros _; simpl run; rewrite ?after_then_ret.
  - destruct (add_constraint_then_recompute wid t d w)
      as [H | (wi & row & w1 & _ & Hcs & Hi & Hcm & Hls & Hid & Hw & Hs & Hb & Ha & Hafter)];
      [now left|].
    right. exists wid, w1. repeat (split; [assumption|]).
    left. exists row. repeat split; assumption.
  - destruct (clear_constraint_then_recompute cid u w)
      as [H | (c & w1 & Hc & Hcs & Hi & Hcm & Hls & Hafter)]; [now left|].
    right. exists (c_work_item_id c), w1. repeat (split; [assumption|]).
    right. exists cid, c. eexists. split; [exact Hc|]. split; [reflexivity|].
    split; [exact Hcs|]. eexists _, _, _. split; [reflexivity|].
    left. repeat split; discriminate.
  - destruct (reopen_constraint_then_recompute cid w)
      as [H | (c & w1 & Hc & Hcs & Hi & Hcm & Hls & Hafter)]; [now left|].
    right. exists (c_work_item_id c), w1. repeat (split; [assumption|]).
    right. exists cid, c. eexists. split; [exact Hc|]. split; [reflexivity|].
    split; [exact Hcs|]. eexists _, _, _. split; [reflexivity|].
    right. repeat split.
Qed.

End Tables.

(** *** Invariants of the tables *)

Section Invariants.

Import StateMachine.

Lemma Forall_update_rows {A} (P : A -> Prop) (key : A -> Z) (id : Z) (f : A -> A)
    (rows : list A) :
  (forall r, P (f r)) -> Forall P rows -> Forall P (update_rows key id f rows).
Proof.
  intros Hf. induction 1 as [|r rows Hr _ IH]; simpl; constructor; [|exact IH].
  destruct (Z.eqb (key r) id); [apply Hf | exact Hr].
Qed.

Lemma NoDup_snoc {A} (l : list A) (x : A) : NoDup l -> ~ In x l -> NoDup (l ++ [x]).
Proof.
  induction 1 as [|y l Hy Hnd IH]; simpl; intros Hx.
  - constructor; [intros [] | constructor].
  - constructor.
    + intros Hin. apply in_app_or in Hin. destruct Hin as [Hin | [<- | []]].
      * contradiction.
      * apply Hx. now left.
    + apply IH. intros Hin. apply Hx. now right.
Qed.

(** X7. Clearer and clearing time go together: if every constraint is
    Open with neither or Cleared with both, this is so after any
    operation of the engine. *)
Theorem clearing_fields_kept_together (w : World) (op : Op) :
  Forall clearing_consistent (constraints w) ->
  Forall clearing_consistent (constraints (after (run op) w)).
Proof.
  intros Hinv. destruct (is_constraint_op op) eqn:Hop.
  - destruct (constraint_write_after op w Hop)
      as [-> | (wid & w1 & -> & _ & _ & _ & Hform)]; [exact Hinv|].
    destruct (update_work_item_state_after wid w1) as (-> & _).
    destruct Hform as [(row & -> & _ & _ & Hs & Hb & Ha)
                      | (cid & c & f & _ & _ & -> & s & u & t & -> & Hf)].
    + apply Forall_app. split; [exact Hinv|]. constructor; [|constructor].
      unfold clearing_consistent. rewrite Hs. now split.
    + apply Forall_update_rows; [|exact Hinv].
      intros r. unfold clearing_consistent. simpl.
      destruct Hf as [(-> & Hu & Ht) | (-> & -> & ->)]; now split.
  - destruct (state_write_after op w Hop) as (-> & _). exact Hinv.
Qed.

Lemma clearing_fields_kept_together_witness :
  Forall clearing_consistent
    (constraints (after (run (ClearConstraint 1 "user_456")) not_ready_world)).
Proof.
  apply (clearing_fields_kept_together not_ready_world (ClearConstraint 1 "user_456")).
  repeat constructor.
Defined.

Lemma backed_after_recompute (w w1 : World) (wid : Z) :
  ready_is_backed w ->
  work_items w1 = work_items w ->
  (forall id, id <> wid -> work_item_constraints w1 id = work_item_constraints w id) ->
  ready_is_backed (after (update_work_item_state wid) w1).
Proof.
  intros Hinv Hitems Hothers id wi' Hget Hr.
  destruct (update_work_item_state_after wid w1) as (Hcs & _ & _ & _ & Hoth & Htgt).
  rewrite (calculate_readiness_same_constraints _ _ id Hcs).
  destruct (Z.eq_dec id wid) as [-> | Hne].
  - now apply (Htgt wi').
  - rewrite (Hoth id Hne) in Hget.
    unfold calculate_readiness. rewrite (Hothers id Hne).
    apply (Hinv id wi'); [|exact Hr].
    unfold get_work_item in *. now rewrite <- Hitems.
Qed.

Lemma backed_after_state_write (w w' : World) :
  ready_is_backed w ->
  constraints w' = constraints w ->
  (work_items w' = work_items w
   \/ exists id s t,
        s <> READY
        /\ work_items w' = update_rows wi_id id (with_updated_at t)
                             (update_rows wi_id id (with_state s) (work_items w))) ->
  ready_is_backed w'.
Proof.
  intros Hinv Hcs Hitems id wi' Hget Hr.
  rewrite (calculate_readiness_same_constraints _ _ id Hcs).
  unfold get_work_item in Hget.
  destruct Hitems as [Heq | (id0 & s & t & Hs & Heq)]; rewrite Heq in Hget.
  - now apply (Hinv id wi').
  - destruct (Z.eq_dec id0 id) as [-> | Hne].
    + rewrite !find_update_rows_same in Hget by reflexivity.
      destruct (find (fun x => Z.eqb (wi_id x) id) (work_items w)); [|discriminate].
      simpl in Hget. injection Hget as <-. simpl in Hr. contradiction.
    + rewrite !find_update_rows_other in Hget by (assumption || reflexivity).
      now apply (Hinv id wi').
Qed.

(** X8. Ready is always backed by the constraints. If constraint keys are
    unique and every work item recorded as Ready has at least one
    constraint and all its constraints Cleared, then both hold after any
    operation of the engine; and in such a world a commitment is only
    ever created for a work item that has at least one constraint and
    all its constraints Cleared. *)
Theorem ready_is_backed_kept (w : World) (op : Op) :
  NoDup (map c_id (constraints w)) ->
  ready_is_backed w ->
  NoDup (map c_id (constraints (after (run op) w)))
  /\ ready_is_backed (after (run op) w)
  /\ (forall wid u o d row,
        outcome (create_commitment wid u o d) w = Returned row ->
        work_item_constraints w wid <> []
        /\ Forall cleared (work_item_constraints w wid)).
Proof.
  intros Hnd Hinv. split; [|split].
  - destruct (is_constraint_op op) eqn:Hop.
    + destruct (constraint_write_after op w Hop)
        as [-> | (wid & w1 & -> & _ & _ & _ & Hform)]; [exact Hnd|].
      destruct (update_work_item_state_after wid w1) as (-> & _).
      destruct Hform as [(row & -> & Hid & _) | (cid & c & f & _ & _ & -> & s & u & t & -> & _)].
      * rewrite map_app. simpl. apply NoDup_snoc; [exact Hnd|].
        rewrite Hid. apply next_id_fresh.
      * now rewrite map_key_update_rows by reflexivity.
    + destruct (state_write_after op w Hop) as (-> & _). exact Hnd.
  - destruct (is_constraint_op op) eqn:Hop.
    + destruct (constraint_write_after op w Hop)
        as [-> | (wid & w1 & -> & Hitems & _ & _ & Hform)]; [exact Hinv|].
      apply (backed_after_recompute w w1 wid Hinv Hitems).
      intros id Hne.
      destruct Hform as [(row & Hcs & _ & Hw & _)
                        | (cid & c & f & Hc & Hcw & Hcs & s & u & t & -> & _)].
      * unfold work_item_constraints. rewrite Hcs, filter_app. simpl.
        rewrite Hw. apply Z.eqb_neq in Hne. rewrite Z.eqb_sym in Hne. rewrite Hne.
        apply app_nil_r.
      * rewrite (constraints_after_update w1 w id cid _ Hcs) by reflexivity.
        apply update_rows_untouched. intros r Hr Hrid.
        unfold work_item_constraints in Hr. apply filter_In in Hr.
        destruct Hr as [Hin Hrw]. apply Z.eqb_eq in Hrw.
        apply find_key in Hc. destruct Hc as [Hcin Hcid].
        assert (r = c) as -> by (apply (NoDup_key_inj c_id (constraints w)); congruence).
        congruence.
    + destruct (state_write_after op w Hop) as (Hcs & Hitems & _).
      now apply (backed_after_state_write w).
  - intros wid u o d row Hout.
    destruct (create_commitment_cases wid u o d w)
      as [[e He] | (wi & row' & w' & Hwi & Hr & _)].
    + unfold outcome in Hout. rewrite He in Hout. discriminate.
    + apply readiness_ready. apply (Hinv wid wi Hwi Hr).
Qed.

End Invariants.

Section MoreInvariants.

Import StateMachine.

Lemma ready_is_backed_kept_witness :
  ready_is_backed (after (run (ReopenConstraint 1)) ready_world)
  /\ ready_is_backed (after (run (CreateCommitment 1 "user_123" "user_123" 1000)) ready_world).
Proof.
  assert (NoDup (map c_id (constraints ready_world))) as Hnd.
  { simpl. constructor; [intros [] | constructor]. }
  assert (ready_is_backed ready_world) as Hinv.
  { intros id wi Hget _. apply find_key in Hget.
    destruct Hget as [[<- | []] <-]. reflexivity. }
  split.
  - apply (ready_is_backed_kept ready_world (ReopenConstraint 1) Hnd Hinv).
  - apply (ready_is_backed_kept ready_world
             (CreateCommitment 1 "user_123" "user_123" 1000) Hnd Hinv).
Defined.

Lemma in_update_twice {A} (key : A -> Z) (id : Z) (f g : A -> A) (rows : list A) (x : A) :
  (forall r, key (f r) = key r) ->
  In x (update_rows key id g (update_rows key id f rows)) ->
  exists r, In r rows /\ ((key r = id /\ x = g (f r)) \/ (key r <> id /\ x = r)).
Proof.
  intros Hk. induction rows as [|r rows IH]; [contradiction|]. simpl.
  intros [Hx | Hx].
  - exists r. split; [now left|].
    destruct (Z.eqb (key r) id) eqn:E.
    + rewrite Hk, E in Hx. left. apply Z.eqb_eq in E. auto.
    + rewrite E in Hx. right. apply Z.eqb_neq in E. auto.
  - destruct (IH Hx) as (r0 & Hin & Hcase). exists r0. split; [now right | exact Hcase].
Qed.

Lemma work_item_ids_after_run (op : Op) (w : World) :
  map wi_id (work_items (after (run op) w)) = map wi_id (work_items w).
Proof.
  destruct (is_constraint_op op) eqn:Hop.
  - destruct (constraint_write_after op w Hop)
      as [-> | (wid & w1 & -> & Hitems & _)]; [reflexivity|].
    destruct (update_work_item_state_after wid w1) as (_ & _ & _ & -> & _).
    now rewrite Hitems.
  - destruct (state_write_after op w Hop) as (_ & [-> | (id & s & t & _ & ->)] & _);
      [reflexivity|].
    now rewrite !map_key_update_rows by reflexivity.
Qed.

Lemma learning_signals_after_run (op : Op) (w : World) :
  learning_signals (after (run op) w) = learning_signals w
  \/ exists signal, learning_signals (after (run op) w) = learning_signals w ++ [signal].
Proof.
  destruct (is_constraint_op op) eqn:Hop.
  - left. destruct (constraint_write_after op w Hop)
      as [-> | (wid & w1 & -> & _ & _ & Hls & _)]; [reflexivity|].
    destruct (update_work_item_state_after wid w1) as (_ & _ & -> & _). exact Hls.
  - apply (state_write_after op w Hop).
Qed.

Lemma constraint_ids_after_run (op : Op) (w : World) :
  exists new, map c_id (constraints (after (run op) w)) = map c_id (constraints w) ++ new.
Proof.
  destruct (is_constraint_op op) eqn:Hop.
  - destruct (constraint_write_after op w Hop)
      as [-> | (wid & w1 & -> & _ & _ & _ & Hform)];
      [exists []; now rewrite app_nil_r|].
    destruct (update_work_item_state_after wid w1) as (-> & _).
    destruct Hform as [(row & -> & _) | (cid & c & f & _ & _ & -> & s & u & t & -> & _)].
    + exists [c_id row]. now rewrite map_app.
    + exists []. now rewrite map_key_update_rows, app_nil_r by reflexivity.
  - destruct (state_write_after op w Hop) as (-> & _).
    exists []. now rewrite app_nil_r.
Qed.

Lemma commitment_ids_after_run (op : Op) (w : World) :
  exists new, map cm_id (commitments (after (run op) w)) = map cm_id (commitments w) ++ new.
Proof.
  destruct (commitments_after_run op w)
    as [-> | [(wi & row & _ & _ & -> & _) | [(cid & t & ->) | (cid & t & ->)]]].
  - exists []. now rewrite app_nil_r.
  - exists [cm_id row]. now rewrite map_app.
  - exists []. now rewrite !map_key_update_rows, app_nil_r by reflexivity.
  - exists []. now rewrite !map_key_update_rows, app_nil_r by reflexivity.
Qed.

(** X9. No operation of the engine deletes a row or rewrites a learning
    signal: the keys of the work items are as before, the keys of the
    constraints and of the commitments are as before with new keys only
    at the end, and the learning signals are as before with at most one
    new signal at the end. *)
Theorem history_is_kept (op : Op) (w : World) :
  map wi_id (work_items (after (run op) w)) = map wi_id (work_items w)
  /\ (exists new,
        map c_id (constraints (after (run op) w)) = map c_id (constraints w) ++ new)
  /\ (exists new,
        map cm_id (commitments (after (run op) w)) = map cm_id (commitments w) ++ new)
  /\ (exists new,
        learning_signals (after (run op) w) = learning_signals w ++ new
        /\ (List.length new <= 1)%nat).
Proof.
  split; [apply work_item_ids_after_run|].
  split; [apply constraint_ids_after_run|].
  split; [apply commitment_ids_after_run|].
  destruct (learning_signals_after_run op w) as [-> | [signal ->]].
  - exists []. split; [now rewrite app_nil_r | simpl; lia].
  - exists [signal]. split; [reflexivity | simpl; lia].
Qed.

Lemma signals_after_fail (w : World) (n : nat) (cid : Z) (c : Commitment) (wi : WorkItem)
    (signal : LearningSignal) :
  get_commitment w cid = Some c ->
  ls_commitment_id signal = cm_id c ->
  commitments_have_work_items w ->
  failures_have_signals w ->
  commitments_have_work_items (world_after_fail w n cid wi signal)
  /\ failures_have_signals (world_after_fail w n cid wi signal).
Proof.
  intros Hc Hsig Hfk Hinv. apply find_key in Hc. destruct Hc as [_ Hcid].
  split.
  - intros c' Hin. simpl in Hin.
    apply in_update_twice in Hin; [|reflexivity].
    destruct Hin as (r & Hr & [[_ ->] | [_ ->]]);
      (apply (get_work_item_by_ids w);
       [simpl; now rewrite !map_key_update_rows by reflexivity | simpl; apply (Hfk r Hr)]).
  - intros c' Hin Hfailed. simpl in Hin. simpl learning_signals.
    apply in_update_twice in Hin; [|reflexivity].
    destruct Hin as (r & Hr & [[Hk ->] | [_ ->]]).
    + exists signal. split; [apply in_or_app; right; now left|].
      simpl. congruence.
    + destruct (Hinv r Hr Hfailed) as (s & Hs & Hsid).
      exists s. split; [apply in_or_app; now left | exact Hsid].
Qed.

Lemma signals_after_completion (w : World) (cid : Z) (wi : WorkItem) :
  commitments_have_work_items w ->
  failures_have_signals w ->
  commitments_have_work_items (world_after_on_time_completion w cid wi)
  /\ failures_have_signals (world_after_on_time_completion w cid wi).
Proof.
  intros Hfk Hinv. split.
  - intros c' Hin. simpl in Hin.
    apply in_update_twice in Hin; [|reflexivity].
    destruct Hin as (r & Hr & [[_ ->] | [_ ->]]);
      (apply (get_work_item_by_ids w);
       [simpl; now rewrite !map_key_update_rows by reflexivity | simpl; apply (Hfk r Hr)]).
  - intros c' Hin Hfailed. simpl in Hin. simpl learning_signals.
    apply in_update_twice in Hin; [|reflexivity].
    destruct Hin as (r & Hr & [[Hk ->] | [_ ->]]).
    + simpl in Hfailed. discriminate.
    + now apply Hinv.
Qed.

Lemma signals_after_fail_commitment (w : World) (cid : Z) (p : PrimaryCause.t)
    (s n : option string) :
  commitments_have_work_items w ->
  failures_have_signals w ->
  commitments_have_work_items (after (fail_commitment cid p s n) w)
  /\ failures_have_signals (after (fail_commitment cid p s n) w).
Proof.
  intros Hfk Hinv.
  destruct (fail_commitment_footprint cid p s n w)
    as [-> | [(c & Hc & Hnone & _) | (c & wi & Hc & Hwi & ->)]].
  - now split.
  - exfalso. apply (Hfk c); [|exact Hnone]. now apply (find_key cm_id cid).
  - apply (signals_after_fail w (clock_reads w) cid c wi); auto.
Qed.

(** X10. Every failure leaves a learning signal. If every commitment
    belongs to a work item of the table and every Failed commitment has
    a learning signal, then both hold after any operation of the
    engine. *)
Theorem failures_have_signals_kept (w : World) (op : Op) :
  commitments_have_work_items w ->
  failures_have_signals w ->
  commitments_have_work_items (after (run op) w)
  /\ failures_have_signals (after (run op) w).
Proof.
  intros Hfk Hinv.
  destruct op as [wid t d | cid u | cid | wid u o d | cid | cid p s n | wid].
  1-3: match goal with |- context [run ?op] =>
         destruct (constraint_write_after op w eq_refl)
           as [-> | (wid' & w1 & -> & Hitems & Hcm & Hls & _)]; [now split|];
         destruct (update_work_item_state_after wid' w1) as (_ & Hcm' & Hls' & Hids & _)
       end;
    (split;
     [ intros c Hin; rewrite Hcm', Hcm in Hin;
       apply (get_work_item_by_ids w); [now rewrite Hids, Hitems | now apply Hfk]
     | intros c Hin Hf; rewrite Hcm', Hcm in Hin; rewrite Hls', Hls; now apply Hinv ]).
  - simpl run. rewrite after_then_ret.
    destruct (create_commitment_cases wid u o d w)
      as [[e He] | (wi & row & w' & Hwi & _ & _ & Hrun & Hcm & _ & Hls & Hitems & _ & Hrw & _ & _
                    & _ & Hrs & _)].
    { unfold after. rewrite He. now split. }
    unfold after. rewrite Hrun. simpl. split.
    + intros c Hin. rewrite Hcm in Hin.
      apply (get_work_item_by_ids w);
        [rewrite Hitems; now rewrite !map_key_update_rows by reflexivity|].
      apply in_app_or in Hin. destruct Hin as [Hin | [<- | []]]; [now apply Hfk|].
      rewrite Hrw, Hwi. discriminate.
    + intros c Hin Hf. rewrite Hcm in Hin. rewrite Hls.
      apply in_app_or in Hin. destruct Hin as [Hin | [<- | []]]; [now apply Hinv|].
      rewrite Hrs in Hf. discriminate.
  - simpl run.
    destruct (complete_commitment_footprint cid w)
      as [-> | [-> | [(c & Hc & Hnone & _) | (c & wi & _ & _ & ->)]]].
    + now split.
    + apply signals_after_fail_commitment; assumption.
    + exfalso. apply (Hfk c); [|exact Hnone]. now apply (find_key cm_id cid).
    + now apply signals_after_completion.
  - simpl run. rewrite after_then_ret. now apply signals_after_fail_commitment.
  - simpl run.
    destruct (reset_to_intent_footprint wid w) as [-> | ->]; [now split|].
    split.
    + intros c Hin. simpl in Hin.
      apply (get_work_item_by_ids w);
        [simpl; now rewrite !map_key_update_rows by reflexivity | now apply Hfk].
    + exact Hinv.
Qed.

Lemma failures_have_signals_kept_witness :
  failures_have_signals (after (run (FailCommitment 1 PrimaryCause.WEATHER None None))
                           committed_world).
Proof.
  apply (failures_have_signals_kept committed_world
           (FailCommitment 1 PrimaryCause.WEATHER None None)).
  - intros c [<- | []]. simpl. discriminate.
  - intros c [<- | []] Hf. simpl in Hf. discriminate.
Defined.

End MoreInvariants.

(** *** The routes *)

Section ApiRoutes.

Import StateMachine.

Lemma fail_commitment_raises_attribute_error (cid : Z) (p : PrimaryCause.t)
    (s n : option string) (w w' : World) (e : Exc) :
  fail_commitment cid p s n w = (Raised e, w') -> exists m, e = AttributeError m.
Proof.
  unfold fail_commitment. run_monad.
  destruct (get_commitment w cid) as [c|]; simpl.
  2:{ intros H. injection H as <- _. eauto. }
  unfold get_work_item. simpl.
  destruct (find (fun x => Z.eqb (wi_id x) (cm_work_item_id c)) (work_items w)); simpl.
  - discriminate.
  - intros H. injection H as <- _. eauto.
Qed.

Lemma routes_fail_commitment_raised (id : Z) (body : Routes.CommitmentFailBody)
    (w w' : World) (e : Exc) :
  Routes.fail_commitment id body w = (Raised e, w') ->
  (exists m, e = AttributeError m) \/ w' = w.
Proof.
  unfold Routes.fail_commitment, Routes.validate_CommitmentFail.
  unfold bind at 1.
  destruct (Routes.check_primary_cause body ++ Routes.check_notes body) as [|err errs].
  2:{ unfold raise. intros H. injection H as _ <-. now right. }
  destruct (option_map PrimaryCause.of_value (Routes.body_primary_cause body))
    as [[cause|]|].
  2,3: unfold raise; intros H; injection H as _ <-; now right.
  unfold ret at 1. unfold bind, gets.
  destruct (get_commitment w id) as [c|].
  2:{ unfold raise. intros H. injection H as _ <-. now right. }
  intros H. left. eapply fail_commitment_raises_attribute_error. exact H.
Qed.

Lemma answer_client_error {A} (success : Z) (h : Api.Handler A) (w : World) :
  success < 400 ->
  (forall status detail w', h w = (Api.HTTPError status detail, w') -> w' = w) ->
  400 <= fst (Api.answer success h w) < 500 ->
  snd (Api.answer success h w) = w.
Proof.
  intros Hs Hh. unfold Api.answer. simpl.
  destruct (h w) as [[a | status detail | e] w'] eqn:E; simpl; [lia | | lia].
  intros _. eapply Hh. reflexivity.
Qed.

Lemma call_no_http_error {A} (m : M A) (w w' : World) (status : Z) (detail : Api.Detail) :
  Api.call m w <> (Api.HTTPError status detail, w').
Proof. unfold Api.call. destruct (m w) as [[a|e] w1]; discriminate. Qed.

Lemma bind_parameter_http_error {A} (id : Z) (h : Api.Handler A) (w w' : World)
    (status : Z) (detail : Api.Detail) :
  (h w = (Api.HTTPError status detail, w') -> w' = w) ->
  Api.bind_parameter id h w = (Api.HTTPError status detail, w') -> w' = w.
Proof.
  unfold Api.bind_parameter. destruct (Api.fits_integer id); [tauto | discriminate].
Qed.

Lemma response_of_http_error {A} (r : Outcome A * World) (w w' : World)
    (status : Z) (detail : Api.Detail) :
  (forall e, r = (Raised e, w') -> (exists m, e = AttributeError m) \/ w' = w) ->
  Api.response_of r = (Api.HTTPError status detail, w') -> w' = w.
Proof.
  intros Hr. unfold Api.response_of. destruct r as [[a|e] w1]; [discriminate|].
  destruct e; unfold Api.http_error; try discriminate;
    intros H; injection H as _ _ ->;
    (destruct (Hr _ eq_refl) as [[m Hm] | Hw]; [discriminate Hm | exact Hw]).
Qed.

(** X11. A request answered with a client error (status 400 to 499: a
    body that fails its schema, an entity that is not found, a refused
    commitment, a reset from the wrong state) leaves every table as it
    was. *)
Theorem client_errors_leave_the_world (request : Api.Request) (w : World) :
  400 <= fst (Api.serve request w) < 500 ->
  snd (Api.serve request w) = w.
Proof.
  destruct request as [body | id | id body | id | id data | id | id data | id | id | id body | id];
    simpl Api.serve; apply answer_client_error; try lia; intros status detail w'.
  - unfold Api.create_work_item.
    destruct (Api.validate_WorkItemCreate body).
    + unfold Api.http_error. intros H. now injection H.
    + intros H. now apply call_no_http_error in H.
  - unfold Api.get_work_item. apply bind_parameter_http_error. unfold Api.http_error.
    destruct (get_work_item w id); intros H; now injection H.
  - unfold Api.add_constraint.
    destruct (Api.validate_ConstraintCreate body) as [errors | data].
    + unfold Api.http_error. intros H. now injection H.
    + apply bind_parameter_http_error. destruct (get_work_item w id) as [wi|].
      * intros H. now apply call_no_http_error in H.
      * unfold Api.http_error. intros H. now injection H.
  - unfold Api.list_constraints. apply bind_parameter_http_error. unfold Api.http_error.
    destruct (get_work_item w id); intros H; now injection H.
  - unfold Api.clear_constraint. apply bind_parameter_http_error.
    destruct (get_constraint w id) as [c|].
    + intros H. now apply call_no_http_error in H.
    + unfold Api.http_error. intros H. now injection H.
  - unfold Api.reopen_constraint. apply bind_parameter_http_error.
    destruct (get_constraint w id) as [c|].
    + intros H. now apply call_no_http_error in H.
    + unfold Api.http_error. intros H. now injection H.
  - unfold Api.create_commitment. apply bind_parameter_http_error.
    destruct (get_work_item w id) as [wi|].
    2:{ unfold Api.http_error. intros H. now injection H. }
    destruct (create_commitment_cases (wi_id wi) (Api.committed_by_user_id data)
                (Api.commitment_owner_user_id data) (Api.due_at data) w)
      as [[e ->] | (wi0 & row & w1 & _ & _ & _ & -> & _)].
    + unfold Api.http_error. destruct e; intros H; now injection H.
    + discriminate.
  - unfold Api.list_commitments. apply bind_parameter_http_error. unfold Api.http_error.
    destruct (get_work_item w id); intros H; now injection H.
  - unfold Api.complete_commitment. apply bind_parameter_http_error.
    destruct (get_commitment w id) as [c|].
    + intros H. now apply call_no_http_error in H.
    + unfold Api.http_error. intros H. now injection H.
  - unfold Api.fail_commitment.
    assert (Api.response_of (Routes.fail_commitment id body w)
            = (Api.HTTPError status detail, w') -> w' = w) as Hresp.
    { apply response_of_http_error. intros e He.
      now apply (routes_fail_commitment_raised id body w w' e). }
    destruct (Routes.validate_CommitmentFail body w) as [[a|e] w1]; [|exact Hresp].
    apply bind_parameter_http_error. exact Hresp.
  - unfold Api.reset_to_intent. apply bind_parameter_http_error.
    destruct (get_work_item w id) as [wi|] eqn:Hwi.
    2:{ unfold Api.http_error. intros H. now injection H. }
    pose proof (find_key _ _ _ _ Hwi) as [_ Hid]. rewrite Hid.
    destruct (WorkItemState_eq_dec (wi_state wi) COMPLETE) as [Hc|Hc];
      [|destruct (WorkItemState_eq_dec (wi_state wi) FAILED) as [Hf|Hf]].
    + rewrite (bind_returned _ _ _ _ _ (reset_to_intent_run w id wi Hwi (or_introl Hc))).
      assert (get_work_item (world_after_reset w id) id <> None) as Hsome.
      { apply (get_work_item_by_ids w);
          [simpl; now rewrite !map_key_update_rows by reflexivity | congruence]. }
      destruct (get_work_item (world_after_reset w id) id) as [x|] eqn:Hx; [|contradiction].
      rewrite (work_item_obj_some _ _ _ Hx). discriminate.
    + rewrite (bind_returned _ _ _ _ _ (reset_to_intent_run w id wi Hwi (or_intror Hf))).
      assert (get_work_item (world_after_reset w id) id <> None) as Hsome.
      { apply (get_work_item_by_ids w);
          [simpl; now rewrite !map_key_update_rows by reflexivity | congruence]. }
      destruct (get_work_item (world_after_reset w id) id) as [x|] eqn:Hx; [|contradiction].
      rewrite (work_item_obj_some _ _ _ Hx). discriminate.
    + rewrite (bind_raised _ _ _ _ _ (reset_to_intent_rejects w id wi Hwi Hc Hf)).
      unfold Api.http_error. intros H. now injection H.
Qed.

Lemma client_errors_leave_the_world_witness :
  fst (Api.serve (Api.PostCommit 1
                    {| Api.committed_by_user_id := "user_123";
                       Api.commitment_owner_user_id := "user_123";
                       Api.due_at := 1000 |}) not_ready_world) = 403
  /\ snd (Api.serve (Api.PostCommit 1
                       {| Api.committed_by_user_id := "user_123";
                          Api.commitment_owner_user_id := "user_123";
                          Api.due_at := 1000 |}) not_ready_world) = not_ready_world.
Proof.
  split; [reflexivity|].
  apply client_errors_leave_the_world. simpl. lia.
Defined.

End ApiRoutes.

Section ApiCommit.

Import StateMachine.

Lemma create_commitment_already_active (w : World) (wid : Z) (wi : WorkItem) (c0 : Commitment)
    (u o : string) (d : datetime) :
  get_work_item w wid = Some wi ->
  find (is_active_for (wi_id wi)) (commitments w) = Some c0 ->
  create_commitment wid u o d w = (Raised (RefusalError msg_already_committed []), w).
Proof.
  intros Hwi Hact. unfold create_commitment.
  rewrite (bind_returned _ _ _ _ _ (work_item_obj_some _ _ _ Hwi)).
  unfold bind, gets. now rewrite Hact.
Qed.

Lemma create_commitment_not_ready (w : World) (wid : Z) (wi : WorkItem)
    (u o : string) (d : datetime) :
  get_work_item w wid = Some wi ->
  find (is_active_for (wi_id wi)) (commitments w) = None ->
  wi_state wi <> READY ->
  create_commitment wid u o d w
  = (Raised (RefusalError
               match work_item_constraints w wid with
               | [] => msg_no_constraints
               | _ => msg_not_ready
                        (map constraint_label (filter is_open (work_item_constraints w wid)))
               end
               (map constraint_label (filter is_open (work_item_constraints w wid)))), w).
Proof.
  intros Hwi Hact Hnr. unfold create_commitment.
  rewrite (bind_returned _ _ _ _ _ (work_item_obj_some _ _ _ Hwi)).
  unfold bind at 1. unfold gets at 1. rewrite Hact.
  destruct (WorkItemState_eq_dec (wi_state wi) READY); [contradiction|].
  unfold bind, gets. destruct (work_item_constraints w wid); reflexivity.
Qed.

(** X12. The commit route answers a request for a work item of the table
    (its id within the range of the column) either with the commitment
    [create_commitment] of the state machine returns, or with status 403
    and, as detail, the message and the open constraints of the very
    RefusalError the state machine raises, the world as before. With an
    Active commitment the message is the already-committed one and the
    list is empty; without one, the list is the labels of exactly the
    Open constraints of the work item and the message is the
    no-constraints one for a work item without constraints and the
    not-ready one citing those labels otherwise. *)
Theorem commit_route_surfaces_refusal
    (w : World) (work_item_id : Z) (wi : WorkItem) (data : Api.CommitmentCreate) :
  Api.fits_integer work_item_id = true ->
  get_work_item w work_item_id = Some wi ->
  (exists row w',
      create_commitment work_item_id (Api.committed_by_user_id data)
        (Api.commitment_owner_user_id data) (Api.due_at data) w = (Returned row, w')
      /\ Api.create_commitment work_item_id data w = (Api.Ok row, w')
      /\ wi_state wi = READY /\ ~ has_active_commitment w wi
      /\ cm_status row = CommitmentStatus.ACTIVE
      /\ cm_due_at row = Api.due_at data)
  \/ (exists message open_constraints,
        create_commitment work_item_id (Api.committed_by_user_id data)
          (Api.commitment_owner_user_id data) (Api.due_at data) w
        = (Raised (RefusalError message open_constraints), w)
        /\ Api.create_commitment work_item_id data w
           = (Api.HTTPError 403 (Api.Blocked message open_constraints), w)
        /\ ((has_active_commitment w wi
             /\ message = msg_already_committed /\ open_constraints = [])
            \/ (~ has_active_commitment w wi
                /\ wi_state wi <> READY
                /\ open_constraints
                   = map constraint_label
                       (filter is_open (work_item_constraints w work_item_id))
                /\ message
                   = match work_item_constraints w work_item_id with
                     | [] => msg_no_constraints
                     | _ => msg_not_ready open_constraints
                     end))).
Proof.
  intros Hfits Hwi. pose proof (find_key _ _ _ _ Hwi) as [_ Hid].
  unfold Api.create_commitment, Api.bind_parameter. rewrite Hfits, Hwi, Hid.
  destruct (find (is_active_for (wi_id wi)) (commitments w)) as [c0|] eqn:Hact.
  - right. rewrite (create_commitment_already_active w work_item_id wi c0 _ _ _ Hwi Hact).
    assert (has_active_commitment w wi) as Hhas.
    { apply find_some in Hact. destruct Hact as [Hin Hc].
      unfold is_active_for in Hc. apply andb_true_iff in Hc. destruct Hc as [Hcw Hcs].
      exists c0. split; [exact Hin|]. split; [now apply Z.eqb_eq|].
      destruct (CommitmentStatus.eq_dec (cm_status c0) CommitmentStatus.ACTIVE);
        [assumption | discriminate]. }
    eexists _, _. split; [reflexivity|]. split; [reflexivity|]. left. auto.
  - assert (~ has_active_commitment w wi) as Hno.
    { intros Hhas. apply find_active_some in Hhas. destruct Hhas as [c Hc]. congruence. }
    destruct (WorkItemState_eq_dec (wi_state wi) READY) as [Hr|Hr].
    + left.
      destruct (create_commitment_cases work_item_id (Api.committed_by_user_id data)
                  (Api.commitment_owner_user_id data) (Api.due_at data) w)
        as [[e He] | (wi0 & row & w' & _ & _ & _ & Hrun & _ & _ & _ & _ & _ & _ & _ & _
                      & Hrd & Hrs & _)].
      * exfalso. revert He. unfold create_commitment.
        rewrite (bind_returned _ _ _ _ _ (work_item_obj_some _ _ _ Hwi)).
        unfold bind at 1. unfold gets at 1. rewrite Hact.
        destruct (WorkItemState_eq_dec (wi_state wi) READY); [|contradiction].
        run_monad. discriminate.
      * exists row, w'. rewrite Hrun. auto 10.
    + right. rewrite (create_commitment_not_ready w work_item_id wi _ _ _ Hwi Hact Hr).
      eexists _, _. split; [reflexivity|]. split; [reflexivity|]. right.
      split; [exact Hno|]. split; [exact Hr|]. split; reflexivity.
Qed.

Lemma commit_route_surfaces_refusal_witness :
  Api.create_commitment 1
    {| Api.committed_by_user_id := "user_123";
       Api.commitment_owner_user_id := "user_123";
       Api.due_at := 1000 |} not_ready_world
  = (Api.HTTPError 403
       (Api.Blocked
          (msg_not_ready ["Materials: Concrete not delivered"; "Access: Road blocked"])
          ["Materials: Concrete not delivered"; "Access: Road blocked"]), not_ready_world).
Proof.
  destruct (commit_route_surfaces_refusal not_ready_world 1
              (with_updated_at 1 (with_state NOT_READY sample_work_item))
              {| Api.committed_by_user_id := "user_123";
                 Api.commitment_owner_user_id := "user_123";
                 Api.due_at := 1000 |} eq_refl eq_refl)
    as [(row & w' & _ & _ & Hr & _) | (m & o & _ & Hrun & [(Hhas & _) | (_ & _ & Ho & Hm)])].
  - discriminate Hr.
  - destruct Hhas as (c & [] & _).
  - rewrite Hrun, Hm, Ho. reflexivity.
Defined.

(** X13. After [reset_to_intent] the work item stays in Intent whatever
    its constraints: a commitment attempt right after a reset is refused
    with the world as the reset left it, and when every constraint of
    the work item is Cleared (and none is Active-committed) the refusal
    is the not-ready one with an empty list of open constraints. *)
Theorem commit_after_reset_is_refused
    (w : World) (work_item : Z) (wi : WorkItem) (u o : string) (d : datetime) :
  get_work_item w work_item = Some wi ->
  wi_state wi = COMPLETE \/ wi_state wi = FAILED ->
  exists message open_constraints,
    create_commitment work_item u o d (after (reset_to_intent work_item) w)
    = (Raised (RefusalError message open_constraints), after (reset_to_intent work_item) w)
    /\ (~ has_active_commitment w wi ->
        work_item_constraints w work_item <> [] ->
        Forall cleared (work_item_constraints w work_item) ->
        message = msg_not_ready [] /\ open_constraints = []).
Proof.
  intros Hwi Hst. pose proof (find_key _ _ _ _ Hwi) as [_ Hid].
  unfold after. rewrite (reset_to_intent_run w work_item wi Hwi Hst). simpl.
  set (wi1 := with_updated_at (clock w (clock_reads w)) (with_state INTENT wi)).
  assert (get_work_item (world_after_reset w work_item) work_item = Some wi1) as Hwi1.
  { unfold get_work_item, world_after_reset in *. simpl.
    rewrite !find_update_rows_same by reflexivity. now rewrite Hwi. }
  destruct (find (is_active_for (wi_id wi1)) (commitments (world_after_reset w work_item)))
    as [c0|] eqn:Hact.
  - rewrite (create_commitment_already_active _ work_item wi1 c0 _ _ _ Hwi1 Hact).
    eexists _, _. split; [reflexivity|].
    intros Hno. exfalso. apply Hno.
    apply find_some in Hact. destruct Hact as [Hin Hc].
    unfold is_active_for in Hc. apply andb_true_iff in Hc. destruct Hc as [Hcw Hcs].
    exists c0. split; [exact Hin|]. split; [now apply Z.eqb_eq|].
    destruct (CommitmentStatus.eq_dec (cm_status c0) CommitmentStatus.ACTIVE);
      [assumption | discriminate].
  - rewrite (create_commitment_not_ready _ work_item wi1 _ _ _ Hwi1 Hact) by discriminate.
    eexists _, _. split; [reflexivity|].
    intros _ Hne Hall.
    change (work_item_constraints (world_after_reset w work_item) work_item)
      with (work_item_constraints w work_item).
    assert (filter is_open (work_item_constraints w work_item) = []) as ->.
    { clear -Hall. induction Hall as [|c l Hc _ IH]; [reflexivity|].
      simpl. unfold is_open at 1. unfold cleared in Hc. rewrite Hc. exact IH. }
    destruct (work_item_constraints w work_item); [contradiction | now split].
Qed.

Lemma commit_after_reset_is_refused_witness :
  exists message open_constraints,
    create_commitment 1 "user_123" "user_123" 2000 (after (reset_to_intent 1) completed_world)
    = (Raised (RefusalError message open_constraints), after (reset_to_intent 1) completed_world)
    /\ open_constraints = [].
Proof.
  destruct (commit_after_reset_is_refused completed_world 1
              (with_updated_at 6 (with_state COMPLETE
                 (with_updated_at 4 (with_state COMMITTED
                    (with_updated_at 3 (with_state READY
                       (with_updated_at 1 (with_state NOT_READY sample_work_item))))))))
              "user_123" "user_123" 2000 eq_refl (or_introl eq_refl))
    as (m & oc & Hrun & Hmsg).
  exists m, oc. split; [exact Hrun|].
  apply Hmsg.
  - intros (c & [<- | []] & _ & Hs). discriminate Hs.
  - discriminate.
  - repeat constructor.
Defined.

(** X14. The route that creates a work item answers a body that passes
    its schema with a new work item in Intent, whatever the optional
    fields, under a key no work item had, and appends it; existing work
    items and the other tables are untouched. A body without title, with
    an empty title or with a title of more than 200 characters is
    answered 422 with the world as before. *)
Theorem create_work_item_starts_in_intent (w : World) (body : Api.WorkItemCreateBody) :
  (forall data,
      Api.validate_WorkItemCreate body = inr data ->
      exists row w',
        Api.create_work_item body w = (Api.Ok row, w')
        /\ wi_state row = INTENT
        /\ wi_title row = Api.title data
        /\ wi_owner_user_id row = Api.owner_user_id data
        /\ wi_location row = Api.location data
        /\ ~ In (wi_id row) (map wi_id (work_items w))
        /\ work_items w' = work_items w ++ [row]
        /\ (forall id wi, get_work_item w id = Some wi -> get_work_item w' id = Some wi)
        /\ constraints w' = constraints w
        /\ commitments w' = commitments w
        /\ learning_signals w' = learning_signals w)
  /\ ((Api.body_title body = None
       \/ Api.body_title body = Some ""
       \/ exists t, Api.body_title body = Some t /\ (200 < String.length t)%nat) ->
      exists errors,
        Api.create_work_item body w = (Api.HTTPError 422 (Api.Invalid errors), w)
        /\ exists code, In ("title", code) errors).
Proof.
  split.
  - intros data Hvalid. unfold Api.create_work_item. rewrite Hvalid.
    eexists _, _. split; [unfold Api.call, Api.add_work_item_row; run_monad; reflexivity|].
    simpl. repeat (split; [reflexivity|]).
    split; [apply next_id_fresh|]. split; [reflexivity|].
    split; [|repeat split].
    intros id wi Hget. unfold get_work_item in *. simpl. now apply find_app_some.
  - intros Hbad. unfold Api.create_work_item, Api.validate_WorkItemCreate.
    assert (exists code rest,
               Api.check_title (Api.body_title body) = ("title", code) :: rest) as (code & rest & Ht).
    { destruct Hbad as [-> | [-> | (t & -> & Hlen)]]; simpl.
      - eauto.
      - eauto.
      - destruct (Nat.ltb (String.length t) 1); [eauto|].
        apply Nat.ltb_lt in Hlen. rewrite Hlen. eauto. }
    rewrite Ht. simpl. eexists. split; [reflexivity|]. exists code. now left.
Qed.

End ApiCommit.

Section ApiCreate.

Lemma create_work_item_starts_in_intent_witness :
  exists row w',
    Api.create_work_item
      {| Api.body_title := Some "Pour slab";
         Api.body_description := None;
         Api.body_location := Some "Grid B2";
         Api.body_owner_user_id := Some "user_9";
         Api.body_reference_plan_system := Some "P6";
         Api.body_reference_plan_external_id := Some "TASK-7";
         Api.body_reference_plan_dates := None |} fresh_world
    = (Api.Ok row, w')
    /\ wi_state row = INTENT.
Proof.
  destruct (create_work_item_starts_in_intent fresh_world
              {| Api.body_title := Some "Pour slab";
                 Api.body_description := None;
                 Api.body_location := Some "Grid B2";
                 Api.body_owner_user_id := Some "user_9";
                 Api.body_reference_plan_system := Some "P6";
                 Api.body_reference_plan_external_id := Some "TASK-7";
                 Api.body_reference_plan_dates := None |}) as [Hok _].
  destruct (Hok _ eq_refl) as (row & w' & Hrun & Hst & _).
  exists row, w'. auto.
Defined.

End ApiCreate.

(** *** More on the drilldown read *)

Section DrilldownMore.

Import StateMachine Routes.

Lemma concat_cons_char (sep : string) (ch : ascii) (p : string) (ps : list string) :
  String.concat sep (String ch p :: ps) = String ch (String.concat sep (p :: ps)).
Proof. destruct ps; reflexivity. Qed.

(** X15. Joining the parts of a split gives the string back: for every
    key, ["|".join(key.split("|"))] is the key, so parsing a key loses
    nothing; with the round trip of the key on parts without "|", split
    and join are inverse of each other there. *)
Theorem join_of_split (sep : ascii) (s : string) :
  String.concat (String sep "") (split sep s) = s
  /\ (forall parts,
        parts <> [] ->
        Forall (fun p => has_char sep p = false) parts ->
        split sep (String.concat (String sep "") parts) = parts).
Proof.
  split; [|apply split_concat].
  induction s as [|ch s IH]; [reflexivity|]. simpl.
  pose proof (split_not_nil sep s) as Hne.
  destruct (Ascii.eqb ch sep) eqn:E.
  - apply Ascii.eqb_eq in E. subst ch.
    destruct (split sep s) as [|p ps]; [contradiction|].
    change (String.concat (String sep "") ("" :: p :: ps))
      with (String sep (String.concat (String sep "") (p :: ps))).
    now rewrite IH.
  - destruct (split sep s) as [|p ps]; [contradiction|].
    rewrite concat_cons_char. now rewrite IH.
Qed.

Lemma join_of_split_witness :
  split "|" (String.concat "|" ["Weather"; "Grid A1-A5"; "no_reference"])
  = ["Weather"; "Grid A1-A5"; "no_reference"].
Proof.
  apply (proj2 (join_of_split "|" "")); [discriminate | repeat constructor].
Defined.

Lemma split_length (sep : ascii) (s : string) :
  List.length (split sep s) = S (count_char sep s).
Proof.
  induction s as [|ch s IH]; [reflexivity|]. simpl.
  destruct (Ascii.eqb ch sep).
  - simpl. now rewrite IH.
  - pose proof (split_not_nil sep s) as Hne.
    destruct (split sep s) as [|p ps]; [contradiction|]. simpl in *. exact IH.
Qed.

Lemma drilldown_item_short (row : DrilldownRow) (w : World) :
  (count_char "|" (row_key row) < 2)%nat ->
  drilldown_item row w = (Raised (IndexError "list index out of range"), w).
Proof.
  intros Hc. pose proof (split_length "|" (row_key row)) as Hlen.
  unfold drilldown_item.
  destruct (split "|" (row_key row)) as [|p0 [|p1 [|p2 rest]]]; simpl in Hlen;
    try reflexivity.
  lia.
Qed.

Lemma drilldown_item_long (row : DrilldownRow) (w : World) :
  (2 <= count_char "|" (row_key row))%nat ->
  exists item,
    drilldown_item row w = (Returned item, w)
    /\ item_count item = row_count row
    /\ item_latest_occurrence item = row_latest row.
Proof.
  intros Hc. pose proof (split_length "|" (row_key row)) as Hlen.
  unfold drilldown_item.
  destruct (split "|" (row_key row)) as [|p0 [|p1 [|p2 rest]]]; simpl in Hlen; try lia.
  eexists. split; [reflexivity|]. split; reflexivity.
Qed.

(** X16. The drilldown read needs two separators in every key: a row
    whose key has fewer than two "|" makes the item fail with
    IndexError, and one such row anywhere among the rows makes the
    whole read fail with it; a row whose key has at least two gives an
    item with the row's count and latest timestamp. *)
Theorem drilldown_read_needs_two_separators (w : World) :
  (forall row,
      (count_char "|" (row_key row) < 2)%nat ->
      drilldown_item row w = (Raised (IndexError "list index out of range"), w))
  /\ (forall row,
        (2 <= count_char "|" (row_key row))%nat ->
        exists item,
          drilldown_item row w = (Returned item, w)
          /\ item_count item = row_count row
          /\ item_latest_occurrence item = row_latest row)
  /\ (forall rows,
        Exists (fun row => (count_char "|" (row_key row) < 2)%nat) rows ->
        drilldown_items rows w = (Raised (IndexError "list index out of range"), w)).
Proof.
  split; [intros row; apply drilldown_item_short|].
  split; [intros row; apply drilldown_item_long|].
  induction rows as [|row rows IH]; intros Hex; [inversion Hex|].
  simpl. destruct (Nat.ltb (count_char "|" (row_key row)) 2) eqn:E.
  - apply Nat.ltb_lt in E. now rewrite (bind_raised _ _ _ _ _ (drilldown_item_short row w E)).
  - apply Nat.ltb_ge in E.
    destruct (drilldown_item_long row w E) as (item & Hrun & _).
    rewrite (bind_returned _ _ _ _ _ Hrun).
    inversion Hex as [? ? Hbad | ? ? Hrest]; subst; [lia|].
    now rewrite (bind_raised _ _ _ _ _ (IH Hrest)).
Qed.

Lemma drilldown_read_needs_two_separators_witness :
  drilldown_items
    [ {| row_key := "Weather|no_location|no_reference"; row_count := 2; row_latest := 9 |};
      {| row_key := "Weather|Grid A1"; row_count := 1; row_latest := 5 |} ] fresh_world
  = (Raised (IndexError "list index out of range"), fresh_world).
Proof.
  apply (drilldown_read_needs_two_separators fresh_world).
  apply Exists_cons_tl, Exists_cons_hd. simpl. lia.
Defined.

Lemma total_count_perm (rows rows' : list DrilldownRow) :
  Permutation rows rows' -> total_count rows = total_count rows'.
Proof.
  unfold total_count.
  induction 1 as [| x l l' _ IH | x y l | l l' l'' _ IH1 _ IH2]; simpl; lia.
Qed.

Lemma sum_of_indicator (a : string) (ks : list string) :
  NoDup ks ->
  fold_right Z.add 0 (map (fun k => if String.eqb a k then 1 else 0) ks)
  = if in_dec string_dec a ks then 1 else 0.
Proof.
  induction 1 as [|k ks Hk Hnd IH]; [reflexivity|]. simpl. rewrite IH.
  destruct (String.eqb a k) eqn:E.
  - apply String.eqb_eq in E. subst k.
    destruct (string_dec a a); [|contradiction].
    destruct (in_dec string_dec a ks); [contradiction | reflexivity].
  - apply String.eqb_neq in E.
    destruct (string_dec k a); [congruence|].
    destruct (in_dec string_dec a ks); reflexivity.
Qed.

Lemma sum_of_group_sizes (ks : list string) (l : list LearningSignal) :
  NoDup ks ->
  (forall s, In s l -> In (ls_drilldown_key s) ks) ->
  fold_right Z.add 0 (map (fun k => Z.of_nat (List.length (group_of l k))) ks)
  = Z.of_nat (List.length l).
Proof.
  intros Hnd. induction l as [|x l IH]; intros Hin.
  - clear Hnd Hin. induction ks as [|k ks IHk]; [reflexivity|]. simpl in *. lia.
  - assert (forall k, Z.of_nat (List.length (group_of (x :: l) k))
                      = (if String.eqb (ls_drilldown_key x) k then 1 else 0)
                        + Z.of_nat (List.length (group_of l k))) as Hstep.
    { intros k. unfold group_of. cbn [filter].
      destruct (String.eqb (ls_drilldown_key x) k); cbn [List.length]; lia. }
    rewrite (map_ext _ _ Hstep).
    assert (forall (f g : string -> Z) (ks0 : list string),
               fold_right Z.add 0 (map (fun k => f k + g k) ks0)
               = fold_right Z.add 0 (map f ks0) + fold_right Z.add 0 (map g ks0)) as Hadd.
    { intros f g ks0. induction ks0 as [|k ks0 IHk]; simpl; [reflexivity | lia]. }
    rewrite Hadd, (sum_of_indicator _ ks Hnd), IH.
    + destruct (in_dec string_dec (ls_drilldown_key x) ks) as [_ | Hno].
      * simpl List.length. lia.
      * exfalso. apply Hno, Hin. now left.
    + intros s Hs. apply Hin. now right.
Qed.

(** X17. The drilldown read counts every learning signal exactly once: in
    any answer of the aggregate query the counts of the rows add up to
    the number of learning signals. *)
Theorem drilldown_counts_every_signal
    (signals : list LearningSignal) (rows : list DrilldownRow) :
  query_result signals rows ->
  total_count rows = Z.of_nat (List.length signals).
Proof.
  intros [Hperm _]. rewrite (total_count_perm _ _ Hperm).
  unfold total_count, group_by_key. rewrite map_map. simpl.
  apply sum_of_group_sizes.
  - apply NoDup_nodup.
  - intros s Hs. apply nodup_In. now apply in_map.
Qed.

Lemma drilldown_counts_every_signal_witness :
  total_count [weather_row; access_row] = 2.
Proof.
  apply (drilldown_counts_every_signal two_signals [weather_row; access_row]).
  apply weather_first_is_admitted.
Defined.

(** X18. On parts without "|" the key determines its parts: two keys are
    equal only if cause, location or its placeholder, and reference
    system or its placeholder are equal. The placeholder is not kept
    apart from real values: an absent location, an empty one and one
    that reads no_location give the same key. *)
Theorem drilldown_key_determines_parts :
  (forall c l r c' l' r',
      Forall (fun p => has_char "|" p = false) (key_parts c l r) ->
      Forall (fun p => has_char "|" p = false) (key_parts c' l' r') ->
      _generate_drilldown_key c l r = _generate_drilldown_key c' l' r' ->
      key_parts c l r = key_parts c' l' r')
  /\ (forall c r,
        _generate_drilldown_key c None r = _generate_drilldown_key c (Some "") r
        /\ _generate_drilldown_key c None r
           = _generate_drilldown_key c (Some "no_location") r).
Proof.
  split.
  - intros c l r c' l' r' Hf Hf' Hkey.
    rewrite <- (split_concat "|" (key_parts c l r)) by (discriminate || exact Hf).
    rewrite <- (split_concat "|" (key_parts c' l' r')) by (discriminate || exact Hf').
    unfold key_parts.
    change (String.concat "|" [c; str_or l "no_location"; str_or r "no_reference"])
      with (_generate_drilldown_key c l r).
    change (String.concat "|" [c'; str_or l' "no_location"; str_or r' "no_reference"])
      with (_generate_drilldown_key c' l' r').
    now rewrite Hkey.
  - intros c r. split; reflexivity.
Qed.

Lemma drilldown_key_determines_parts_witness :
  key_parts "Weather" (Some "Grid A1") None = key_parts "Weather" (Some "Grid A1") (Some "").
Proof.
  apply (proj1 drilldown_key_determines_parts).
  - repeat constructor.
  - repeat constructor.
  - reflexivity.
Defined.

End DrilldownMore.

(** *** Transitions *)

Section Transitions.

Import StateMachine.

(** X19. Recomputing the state of a work item twice is recomputing it
    once: after [update_work_item_state], a second call has the outcome
    of the first and changes nothing, not even the update time. *)
Theorem update_work_item_state_idempotent (work_item : Z) (w : World) :
  update_work_item_state work_item (after (update_work_item_state work_item) w)
  = (outcome (update_work_item_state work_item) w,
     after (update_work_item_state work_item) w).
Proof.
  destruct (get_work_item w work_item) as [wi|] eqn:Hwi.
  - destruct (update_work_item_state_run work_item w wi Hwi)
      as (w' & wi' & Hrun & Hcs & _ & _ & _ & _ & Hget & Hst & _).
    pose proof (find_key _ _ _ _ Hwi) as [_ Hid].
    unfold after, outcome. rewrite Hrun. simpl.
    unfold update_work_item_state at 1.
    rewrite (bind_returned _ _ _ _ _ (work_item_obj_some _ _ _ Hget)).
    unfold recomputed_state in Hst. rewrite Hid in Hst.
    destruct (frozen (wi_state wi)) eqn:Hfr.
    + rewrite Hst, Hfr. reflexivity.
    + assert (frozen (wi_state wi') = false) as ->.
      { rewrite Hst. unfold calculate_readiness.
        destruct (readiness_binary (work_item_constraints w work_item)) as [-> | ->];
          reflexivity. }
      unfold bind at 1. unfold gets at 1.
      rewrite (calculate_readiness_same_constraints w w' work_item Hcs).
      destruct (WorkItemState_eq_dec (wi_state wi') (calculate_readiness w work_item));
        [reflexivity | contradiction].
  - destruct (update_work_item_state_missing work_item w Hwi) as [e He].
    unfold after, outcome. rewrite He. simpl. exact He.
Qed.

Lemma calculate_readiness_binary (w : World) (id : Z) :
  calculate_readiness w id = READY \/ calculate_readiness w id = NOT_READY.
Proof. apply readiness_binary. Qed.

Lemma calculate_readiness_open (w : World) (id : Z) (c : Constraint) :
  In c (constraints w) -> c_work_item_id c = id -> c_status c = OPEN ->
  calculate_readiness w id = NOT_READY.
Proof.
  intros Hin Hw Ho. apply (readiness_open _ c); [|exact Ho].
  unfold work_item_constraints. apply filter_In. split; [exact Hin|].
  rewrite Hw. apply Z.eqb_refl.
Qed.

Lemma transition_by_recompute (w w1 : World) (wid id : Z) (wi wi' : WorkItem) :
  work_items w1 = work_items w ->
  get_work_item w id = Some wi ->
  get_work_item (after (update_work_item_state wid) w1) id = Some wi' ->
  wi_state wi = wi_state wi'
  \/ (id = wid /\ frozen (wi_state wi) = false
      /\ wi_state wi' = calculate_readiness w1 wid).
Proof.
  intros Hitems Hget Hget'.
  assert (get_work_item w1 id = Some wi) as Hget1.
  { unfold get_work_item in *. now rewrite Hitems. }
  destruct (Z.eq_dec id wid) as [-> | Hne].
  - destruct (update_work_item_state_run wid w1 wi Hget1)
      as (w' & wi2 & Hrun & _ & _ & _ & _ & _ & Hg & Hst & _).
    unfold after in Hget'. rewrite Hrun in Hget'. simpl in Hget'.
    rewrite Hg in Hget'. injection Hget' as <-.
    pose proof (find_key _ _ _ _ Hget1) as [_ Hid].
    unfold recomputed_state in Hst. rewrite Hid in Hst.
    destruct (frozen (wi_state wi)) eqn:Hfr; [now left | right; auto].
  - left. destruct (update_work_item_state_after wid w1) as (_ & _ & _ & _ & Hoth & _).
    rewrite (Hoth id Hne) in Hget'. congruence.
Qed.

Lemma transition_by_write (w : World) (items : list WorkItem) (id0 id : Z) (s : WorkItemState)
    (t : datetime) (wi wi' : WorkItem) :
  items = update_rows wi_id id0 (with_updated_at t)
            (update_rows wi_id id0 (with_state s) (work_items w)) ->
  get_work_item w id = Some wi ->
  find (fun x => Z.eqb (wi_id x) id) items = Some wi' ->
  wi_state wi = wi_state wi' \/ (id = id0 /\ wi_state wi' = s).
Proof.
  intros -> Hget Hget'. unfold get_work_item in Hget.
  destruct (Z.eq_dec id0 id) as [-> | Hne].
  - rewrite !find_update_rows_same in Hget' by reflexivity. rewrite Hget in Hget'.
    injection Hget' as <-. right. now split.
  - rewrite !find_update_rows_other in Hget' by (assumption || reflexivity).
    left. congruence.
Qed.

(** X20. The transitions of the state machine. Whatever the operation and
    its outcome, a work item either keeps its state or moves as the
    operation allows: to Not Ready by adding or reopening a constraint
    and to Ready or Not Ready by clearing one, only when it is not
    Committed, Complete or Failed; to Committed by [create_commitment],
    only from Ready; to Complete or Failed by [complete_commitment] and
    to Failed by [fail_commitment]; to Intent by [reset_to_intent], only
    from Complete or Failed. *)
Theorem transitions_are_allowed (op : Op) (w : World) (id : Z) (wi wi' : WorkItem) :
  get_work_item w id = Some wi ->
  get_work_item (after (run op) w) id = Some wi' ->
  allowed_transition op (wi_state wi) (wi_state wi').
Proof.
  intros Hget Hget'. unfold allowed_transition.
  destruct op as [wid t d | cid u | cid | wid u o d | cid | cid p s n | wid];
    simpl run in Hget'; rewrite ?after_then_ret in Hget'.
  - destruct (add_constraint_then_recompute wid t d w)
      as [H | (wi0 & row & w1 & _ & Hcs & Hitems & _ & _ & _ & Hrw & Hrs & _ & _ & H)];
      rewrite H in Hget'; [left; congruence|].
    destruct (transition_by_recompute w w1 wid id wi wi' Hitems Hget Hget')
      as [E | (-> & Hfr & Hst)]; [now left|].
    right. split; [exact Hfr|]. rewrite Hst.
    apply (calculate_readiness_open w1 wid row); [|exact Hrw | exact Hrs].
    rewrite Hcs. apply in_or_app. right. now left.
  - destruct (clear_constraint_then_recompute cid u w)
      as [H | (c & w1 & _ & _ & Hitems & _ & _ & H)];
      rewrite H in Hget'; [left; congruence|].
    destruct (transition_by_recompute w w1 _ id wi wi' Hitems Hget Hget')
      as [E | (-> & Hfr & Hst)]; [now left|].
    right. split; [exact Hfr|]. rewrite Hst. apply calculate_readiness_binary.
  - destruct (reopen_constraint_then_recompute cid w)
      as [H | (c & w1 & Hc & Hcs & Hitems & _ & _ & H)];
      rewrite H in Hget'; [left; congruence|].
    destruct (transition_by_recompute w w1 _ id wi wi' Hitems Hget Hget')
      as [E | (-> & Hfr & Hst)]; [now left|].
    right. split; [exact Hfr|]. rewrite Hst.
    apply find_key in Hc. destruct Hc as [Hin Hcid].
    apply (calculate_readiness_open w1 _ (with_clearing OPEN None None c));
      [|reflexivity | reflexivity].
    rewrite Hcs. now apply in_update_rows.
  - destruct (create_commitment_cases wid u o d w)
      as [[e He] | (wi0 & row & w' & Hwi0 & Hr & _ & Hrun & _ & _ & _ & Hitems & _)];
      unfold after in Hget'.
    + rewrite He in Hget'. left. simpl in Hget'. congruence.
    + rewrite Hrun in Hget'. simpl in Hget'. unfold get_work_item in Hget' at 1.
      destruct (transition_by_write w _ wid id COMMITTED _ wi wi' Hitems Hget Hget')
        as [E | [-> Hst]]; [now left|].
      right. split; [congruence | exact Hst].
  - destruct (complete_commitment_footprint cid w)
      as [H | [H | [(c & _ & _ & Hi & _) | (c & wi0 & _ & _ & H)]]].
    + rewrite H in Hget'. left. congruence.
    + rewrite H in Hget'.
      destruct (fail_commitment_footprint cid PrimaryCause.OTHER None
                  (Some "Auto-failed: Completed after due date") (tick w))
        as [H2 | [(c & _ & _ & Hi & _) | (c & wi0 & _ & _ & H2)]].
      * rewrite H2 in Hget'. left. unfold get_work_item in *. simpl in Hget'. congruence.
      * left. unfold get_work_item in *. rewrite Hi in Hget'. simpl in Hget'. congruence.
      * rewrite H2 in Hget'. unfold get_work_item in Hget' at 1.
        destruct (transition_by_write w _ (wi_id wi0) id FAILED _ wi wi' eq_refl Hget Hget')
          as [E | [_ Hst]]; [now left | right; now right].
    + left. unfold get_work_item in *. rewrite Hi in Hget'. congruence.
    + rewrite H in Hget'. unfold get_work_item in Hget' at 1.
      destruct (transition_by_write w _ (wi_id wi0) id COMPLETE _ wi wi' eq_refl Hget Hget')
        as [E | [_ Hst]]; [now left | right; now left].
  - destruct (fail_commitment_footprint cid p s n w)
      as [H | [(c & _ & _ & Hi & _) | (c & wi0 & _ & _ & H)]].
    + rewrite H in Hget'. left. congruence.
    + left. unfold get_work_item in *. rewrite Hi in Hget'. congruence.
    + rewrite H in Hget'. unfold get_work_item in Hget' at 1.
      destruct (transition_by_write w _ (wi_id wi0) id FAILED _ wi wi' eq_refl Hget Hget')
        as [E | [_ Hst]]; [now left | now right].
  - destruct (get_work_item w wid) as [wi0|] eqn:Hwi0.
    2:{ destruct (work_item_obj_none _ _ Hwi0) as [e He].
        unfold reset_to_intent in Hget'.
        rewrite (after_bind_raised _ _ _ _ _ He) in Hget'. left. congruence. }
    destruct (WorkItemState_eq_dec (wi_state wi0) COMPLETE) as [Hc|Hc];
      [|destruct (WorkItemState_eq_dec (wi_state wi0) FAILED) as [Hf|Hf]].
    + unfold after in Hget'.
      rewrite (reset_to_intent_run w wid wi0 Hwi0 (or_introl Hc)) in Hget'.
      simpl in Hget'. unfold get_work_item in Hget' at 1.
      destruct (transition_by_write w _ wid id INTENT _ wi wi' eq_refl Hget Hget')
        as [E | [-> Hst]]; [now left|].
      right. split; [left; congruence | exact Hst].
    + unfold after in Hget'.
      rewrite (reset_to_intent_run w wid wi0 Hwi0 (or_intror Hf)) in Hget'.
      simpl in Hget'. unfold get_work_item in Hget' at 1.
      destruct (transition_by_write w _ wid id INTENT _ wi wi' eq_refl Hget Hget')
        as [E | [-> Hst]]; [now left|].
      right. split; [right; congruence | exact Hst].
    + unfold after in Hget'.
      rewrite (reset_to_intent_rejects w wid wi0 Hwi0 Hc Hf) in Hget'.
      left. simpl in Hget'. congruence.
Qed.

Lemma transitions_are_allowed_witness :
  allowed_transition (CreateCommitment 1 "user_123" "user_123" 1000) READY COMMITTED.
Proof.
  apply (transitions_are_allowed (CreateCommitment 1 "user_123" "user_123" 1000)
           ready_world 1
           (with_updated_at 3 (with_state READY
              (with_updated_at 1 (with_state NOT_READY sample_work_item))))
           (with_updated_at 4 (with_state COMMITTED
              (with_updated_at 3 (with_state READY
                 (with_updated_at 1 (with_state NOT_READY sample_work_item))))))).
  - reflexivity.
  - vm_compute. reflexivity.
Defined.

End Transitions.

(** *** From a constraint to a commitment *)

Section Path.

Import StateMachine.

Lemma find_app_none {A} (p : A -> bool) (l l' : list A) :
  find p l = None -> find p (l ++ l') = find p l'.
Proof.
  induction l as [|a l IH]; simpl; [reflexivity|].
  destruct (p a); [discriminate | exact IH].
Qed.

Lemma find_fresh_constraint (rows : list Constraint) (row : Constraint) :
  c_id row = next_id (map c_id rows) ->
  find (fun x => Z.eqb (c_id x) (c_id row)) (rows ++ [row]) = Some row.
Proof.
  intros Hid. rewrite find_app_none.
  - simpl. now rewrite Z.eqb_refl.
  - destruct (find (fun x => Z.eqb (c_id x) (c_id row)) rows) as [r|] eqn:E; [|reflexivity].
    exfalso. apply find_key in E. destruct E as [Hin Hk].
    apply (next_id_fresh (map c_id rows)). rewrite <- Hid, <- Hk. now apply in_map.
Qed.

(** X21. The way to a commitment. On a work item that is not Committed,
    Complete or Failed, has no Active commitment and has no Open
    constraint, the three calls [add_constraint], [clear_constraint] on
    the constraint just returned, and [create_commitment] all return:
    the work item is Not Ready after the first, Ready after the second
    and Committed after the third, which returns an Active commitment of
    that work item. *)
Theorem constraint_cleared_then_committed
    (w : World) (work_item : Z) (wi : WorkItem) (type : string) (description : option string)
    (cleared_by_user_id committed_by_user_id owner_user_id : string) (due_at : datetime) :
  get_work_item w work_item = Some wi ->
  frozen (wi_state wi) = false ->
  (forall c, In c (work_item_constraints w work_item) -> c_status c = CLEARED) ->
  ~ has_active_commitment w wi ->
  exists row w1 wi1 w2 wi2 commitment w3 wi3,
    add_constraint work_item type description w = (Returned row, w1)
    /\ get_work_item w1 work_item = Some wi1 /\ wi_state wi1 = NOT_READY
    /\ clear_constraint (c_id row) cleared_by_user_id w1 = (Returned tt, w2)
    /\ get_work_item w2 work_item = Some wi2 /\ wi_state wi2 = READY
    /\ create_commitment work_item committed_by_user_id owner_user_id due_at w2
       = (Returned commitment, w3)
    /\ get_work_item w3 work_item = Some wi3 /\ wi_state wi3 = COMMITTED
    /\ cm_work_item_id commitment = work_item
    /\ cm_status commitment = CommitmentStatus.ACTIVE
    /\ commitments w3 = commitments w ++ [commitment].
Proof.
  intros Hwi Hfr Hcleared Hno.
  pose proof (find_key _ _ _ _ Hwi) as [_ Hid].
  (* add_constraint *)
  destruct (add_constraint_row_run (wi_id wi) type description OPEN w)
    as (row & wa & Hrow & Hcsa & Hwia & Hcma & _ & Hrid & Hrw & _ & _ & Hrs & _).
  assert (get_work_item wa work_item = Some wi) as Hgeta.
  { unfold get_work_item in *. now rewrite Hwia. }
  destruct (update_work_item_state_run work_item wa wi Hgeta)
    as (w1 & wi1 & Hrun1 & Hcs1 & Hcm1 & _ & _ & _ & Hget1 & Hst1 & _).
  assert (add_constraint work_item type description w = (Returned row, w1)) as Hadd.
  { unfold add_constraint.
    rewrite (bind_returned _ _ _ _ _ (work_item_obj_some _ _ _ Hwi)).
    rewrite (bind_returned _ _ _ _ _ Hrow).
    unfold bind at 1. unfold db_commit at 1, ret at 1.
    rewrite (bind_returned _ _ _ _ _ Hrun1). reflexivity. }
  assert (wi_state wi1 = NOT_READY) as Hnr.
  { rewrite Hst1. unfold recomputed_state. rewrite Hfr, Hid.
    unfold calculate_readiness. apply (readiness_open _ row); [|exact Hrs].
    unfold work_item_constraints. apply filter_In. split.
    - rewrite Hcsa. apply in_or_app. right. now left.
    - rewrite Hrw, Hid. apply Z.eqb_refl. }
  pose proof (find_key _ _ _ _ Hget1) as [_ Hid1].
  (* clear_constraint *)
  assert (get_constraint w1 (c_id row) = Some row) as Hc.
  { unfold get_constraint. rewrite Hcs1, Hcsa. now apply find_fresh_constraint. }
  assert (c_work_item_id row = work_item) as Hrw' by congruence.
  set (f := with_clearing CLEARED (Some cleared_by_user_id) (Some (clock w1 (clock_reads w1)))).
  assert (exists wb,
             constraints wb = update_rows c_id (c_id row) f (constraints w1)
             /\ work_items wb = work_items w1
             /\ commitments wb = commitments w1
             /\ forall w2, update_work_item_state work_item wb = (Returned tt, w2) ->
                           clear_constraint (c_id row) cleared_by_user_id w1 = (Returned tt, w2))
    as (wb & Hcsb & Hwib & Hcmb & Hclear).
  { eexists. split; [|split; [|split]]; cycle 3.
    - intros w2 H2. unfold clear_constraint.
      rewrite (bind_returned _ _ _ _ _ (constraint_obj_some _ _ _ Hc)).
      unfold bind at 1. unfold utcnow at 1.
      unfold bind at 1. unfold set_constraint at 1, modify at 1.
      unfold bind at 1. unfold db_commit at 1, ret at 1.
      rewrite Hrw'. exact H2.
    - reflexivity.
    - reflexivity.
    - reflexivity. }
  assert (get_work_item wb work_item = Some wi1) as Hgetb.
  { unfold get_work_item in *. now rewrite Hwib. }
  destruct (update_work_item_state_run work_item wb wi1 Hgetb)
    as (w2 & wi2 & Hrun2 & Hcs2 & Hcm2 & _ & _ & _ & Hget2 & Hst2 & _).
  assert (wi_state wi2 = READY) as Hready.
  { rewrite Hst2. unfold recomputed_state. rewrite Hnr, Hid1. simpl frozen. cbv iota.
    unfold calculate_readiness.
    rewrite (constraints_after_update wb w1 work_item (c_id row) f Hcsb (fun r => eq_refl)).
    apply readiness_ready.
    assert (In row (work_item_constraints w1 work_item)) as Hin.
    { unfold work_item_constraints. apply filter_In. split.
      - rewrite Hcs1, Hcsa. apply in_or_app. right. now left.
      - rewrite Hrw'. apply Z.eqb_refl. }
    split.
    - intros E. apply (in_update_rows c_id (c_id row) f) in Hin; [|reflexivity].
      rewrite E in Hin. contradiction.
    - unfold update_rows. apply Forall_forall. intros r Hr.
      apply in_map_iff in Hr. destruct Hr as (r0 & <- & Hr0).
      destruct (Z.eqb (c_id r0) (c_id row)) eqn:E; [reflexivity|].
      unfold work_item_constraints in Hr0. rewrite Hcs1, Hcsa, filter_app in Hr0.
      apply in_app_or in Hr0. destruct Hr0 as [Hold | Hnew].
      + now apply Hcleared.
      + apply filter_In in Hnew. destruct Hnew as [[<- | []] _].
        rewrite Z.eqb_refl in E. discriminate. }
  pose proof (find_key _ _ _ _ Hget2) as [_ Hid2].
  (* create_commitment *)
  assert (commitments w2 = commitments w) as Hcmw by congruence.
  assert (find (is_active_for (wi_id wi2)) (commitments w2) = None) as Hact.
  { rewrite Hcmw, Hid2, <- Hid. now apply find_active_none. }
  destruct (create_commitment_cases work_item committed_by_user_id owner_user_id due_at w2)
    as [[e He] | (wi0 & cm & w3 & Hwi0 & _ & _ & Hrun3 & Hcm3 & _ & _ & Hitems
                  & _ & Hcw & _ & _ & _ & Hcst & _)].
  { exfalso. revert He. unfold create_commitment.
    rewrite (bind_returned _ _ _ _ _ (work_item_obj_some _ _ _ Hget2)).
    unfold bind at 1. unfold gets at 1.
    rewrite Hact.
    destruct (WorkItemState_eq_dec (wi_state wi2) READY); [|contradiction].
    run_monad. discriminate. }
  exists row, w1, wi1, w2, wi2, cm, w3,
    (with_updated_at (clock w2 (clock_reads w2)) (with_state COMMITTED wi2)).
  split; [exact Hadd|]. split; [exact Hget1|]. split; [exact Hnr|].
  split; [now apply Hclear|]. split; [exact Hget2|]. split; [exact Hready|].
  split; [exact Hrun3|].
  split.
  { unfold get_work_item in *. rewrite Hitems.
    rewrite !find_update_rows_same by reflexivity. now rewrite Hget2. }
  split; [reflexivity|]. split; [exact Hcw|]. split; [exact Hcst|].
  now rewrite Hcm3, Hcmw.
Qed.

Lemma constraint_cleared_then_committed_witness :
  exists row w1 w2 commitment w3 wi3,
    add_constraint 1 "Materials" (Some "Concrete not delivered") fresh_world = (Returned row, w1)
    /\ clear_constraint (c_id row) "user_456" w1 = (Returned tt, w2)
    /\ create_commitment 1 "user_123" "user_123" 1000 w2 = (Returned commitment, w3)
    /\ get_work_item w3 1 = Some wi3 /\ wi_state wi3 = COMMITTED.
Proof.
  destruct (constraint_cleared_then_committed fresh_world 1 sample_work_item
              "Materials" (Some "Concrete not delivered")
              "user_456" "user_123" "user_123" 1000 eq_refl eq_refl)
    as (row & w1 & wi1 & w2 & wi2 & cm & w3 & wi3
        & Ha & _ & _ & Hc & _ & _ & Hk & Hg & Hs & _).
  - intros c [].
  - intros (c & [] & _).
  - exists row, w1, w2, cm, w3, wi3. auto.
Defined.

End Path.

(** *** No exception gets through *)

Section ApiSafety.

Import StateMachine.





















End ApiSafety.
